(** * DealMonitor: the service and repository layer, embedded in Rocq

    The development follows the JavaScript sources of the repository:
    - [src/models/{Keyword,Subreddit,Post}.js]   entity classes and Joi schemas
    - [src/repositories/*Repository.js]          table access through knex
    - [src/services/*Service.js]                 validation, normalization,
                                                 uniqueness, orchestration

    Promises are run to completion one after the other (the services [await]
    every repository call), so an [async] method is a computation over the
    state of the database that either returns a value or throws. *)

From Stdlib Require Import ZArith Bool List Lia.
From Stdlib Require Import Strings.String Strings.Ascii Numbers.DecimalString.
From Stdlib Require Import Sorting.Sorted Sorting.Permutation.
From Stdlib Require Import Numbers.DecimalPos Numbers.DecimalFacts.
Import ListNotations.

Open Scope string_scope.
Open Scope Z_scope.

(* ================================================================== *)
(** * Part I: definitions                                              *)
(* ================================================================== *)

(** ** JavaScript strings

    A JavaScript string is modelled by a Rocq [string] read as a sequence of
    code units below 256 (the Latin-1 range).  On that range the functions
    below are the ECMAScript ones. *)

Module JsString.

Definition code (c : ascii) : N := N_of_ascii c.

(** ECMAScript WhiteSpace and LineTerminator code units below 256:
    TAB, LF, VT, FF, CR, SP and NBSP. *)
Definition isWhiteSpace (c : ascii) : bool :=
  let n := code c in
  ((9 <=? n) && (n <=? 13))%N || (n =? 32)%N || (n =? 160)%N.

(** [String.prototype.trimStart]. *)
Fixpoint trimStart (s : string) : string :=
  match s with
  | EmptyString => EmptyString
  | String c s' => if isWhiteSpace c then trimStart s' else s
  end.

(** [String.prototype.trimEnd]. *)
Fixpoint trimEnd (s : string) : string :=
  match s with
  | EmptyString => EmptyString
  | String c s' =>
      match trimEnd s' with
      | EmptyString => if isWhiteSpace c then EmptyString else String c EmptyString
      | r => String c r
      end
  end.

(** [String.prototype.trim]. *)
Definition trim (s : string) : string := trimEnd (trimStart s).

(** Lower-case mapping of one code unit: A-Z, and the Latin-1 capitals
    U+00C0..U+00DE except the multiplication sign U+00D7. *)
Definition lowerChar (c : ascii) : ascii :=
  let n := code c in
  if ((65 <=? n) && (n <=? 90))%N
     || ((192 <=? n) && (n <=? 222) && negb (n =? 215))%N
  then ascii_of_N (n + 32)
  else c.

(** [String.prototype.toLowerCase]. *)
Fixpoint toLowerCase (s : string) : string :=
  match s with
  | EmptyString => EmptyString
  | String c s' => String (lowerChar c) (toLowerCase s')
  end.

(** [s.startsWith(p)]. *)
Definition startsWith (s p : string) : bool := String.prefix p s.

(** [s.substring(n)]: the string without its first [n] code units. *)
Fixpoint drop (n : nat) (s : string) : string :=
  match n, s with
  | O, _ => s
  | S n', EmptyString => EmptyString
  | S n', String _ s' => drop n' s'
  end.

(** [s.replace(pat, rep)] with a string pattern: only the first occurrence
    of [pat] is replaced. *)
Fixpoint replace (s pat rep : string) : string :=
  if String.prefix pat s then rep ++ drop (String.length pat) s
  else match s with
       | EmptyString => EmptyString
       | String c s' => String c (replace s' pat rep)
       end.

(** [s.includes(p)]. *)
Fixpoint includes (s p : string) : bool :=
  String.prefix p s ||
  match s with
  | EmptyString => false
  | String _ s' => includes s' p
  end.

(** [s.split(',')] for a one-character separator. *)
Fixpoint split (sep : ascii) (s : string) : list string :=
  match s with
  | EmptyString => [EmptyString]
  | String c s' =>
      if Ascii.eqb c sep then EmptyString :: split sep s'
      else match split sep s' with
           | [] => [String c EmptyString]
           | h :: t => String c h :: t
           end
  end.

(** Truthiness of a string: only the empty string is falsy. *)
Definition truthy (s : string) : bool := negb (String.eqb s EmptyString).

(** The first [n] code units of [s]. *)
Fixpoint take (n : nat) (s : string) : string :=
  match n, s with
  | O, _ => EmptyString
  | S _, EmptyString => EmptyString
  | S n', String c s' => String c (take n' s')
  end.

(** [s.substring(start, end)] with integer arguments: both are clamped to
    [0 .. s.length], and swapped when [start] is the larger. *)
Definition substring (s : string) (start end_ : Z) : string :=
  let len := Z.of_nat (String.length s) in
  let clamp := fun i => Z.min (Z.max i 0) len in
  let from := Z.min (clamp start) (clamp end_) in
  let to := Z.max (clamp start) (clamp end_) in
  take (Z.to_nat (to - from)) (drop (Z.to_nat from) s).

End JsString.

(** ** Normalization of the unique text fields

    [KeywordService.createKeyword] and [PostService.createPost] use
    [value.keyword.trim()] and [value.title.trim()].
    [SubredditService.createSubreddit] and [getSubredditByName] use

      var normalizedName = value.name.trim().toLowerCase();
      if (normalizedName.startsWith('r/')) {
          normalizedName = normalizedName.replace('r/', '');
      }
*)

Definition normalizeKeyword (s : string) : string := JsString.trim s.

Definition normalizeTitle (s : string) : string := JsString.trim s.

Definition normalizeName (s : string) : string :=
  let normalizedName := JsString.toLowerCase (JsString.trim s) in
  if JsString.startsWith normalizedName "r/"
  then JsString.replace normalizedName "r/" ""
  else normalizedName.

(** ** JavaScript values that reach the services as arguments

    [id] and [searchText] arrive untyped.  A Number that is an integer is
    written as its numeral: [VNumber n] is the Number value that the
    numeral [n] denotes in a program, which is [n] itself when [n] is a
    double (as every integer up to 2^53 in magnitude is), the nearest double
    otherwise, and [Infinity] beyond the range of doubles.  [VFraction s e]
    is a Number that is not an integer, given by the numeral it prints: [s]
    times ten to the power [-e], with [s] not a multiple of ten ([0.5] is
    [VFraction 5 1], [1.5e-7] is [VFraction 15 8]). *)

Inductive JsValue : Type :=
| VUndefined
| VNull
| VBoolean (b : bool)
| VNumber (n : Z)
| VNaN
| VString (s : string)
| VFraction (s : Z) (e : positive).

Module Js.

(** ToBoolean: what [!v] tests. *)
Definition truthy (v : JsValue) : bool :=
  match v with
  | VUndefined | VNull | VNaN => false
  | VBoolean b => b
  | VNumber n => negb (n =? 0)
  | VString s => JsString.truthy s
  | VFraction s _ => negb (s =? 0)
  end.

Definition Z_to_string (n : Z) : string := NilEmpty.string_of_int (Z.to_int n).

(** *** Numbers

    An integer [z] in the place of a Number is the exact value of a double.
    Arithmetic rounds to the nearest double, so it is exact as long as the
    result stays within 2^53. *)

(** The double nearest to a natural number, a tie going to the even
    significand (IEEE 754 binary64: 53 bits). *)
Definition nearest (a : Z) : Z :=
  if a <? 2 ^ 53 then a
  else
    let ulp := 2 ^ (Z.log2 a - 52) in
    let q := a / ulp in
    let r := a mod ulp in
    if 2 * r <? ulp then q * ulp
    else if ulp <? 2 * r then (q + 1) * ulp
    else if Z.even q then q * ulp else (q + 1) * ulp.

(** The Number value of an integer. *)
Definition number (z : Z) : Z := Z.sgn z * nearest (Z.abs z).

(** From 2^1024 - 2^970 on, the nearest double is [Infinity]: an integer
    that large stands for [Infinity], or [-Infinity] when negative. *)
Definition isInfinite (z : Z) : bool := 2 ^ 1024 - 2 ^ 970 <=? Z.abs z.

(** [a - b] and [a * b] on Numbers. *)
Definition minus (a b : Z) : Z := number (a - b).
Definition times (a b : Z) : Z := number (a * b).

(** The number of digits of the decimal numeral of a natural number. *)
Definition digits (a : Z) : Z := Z.of_nat (String.length (Z_to_string a)).

(** Number::toString prints the numeral with the fewest significant digits
    that still denotes the Number, and of those the one nearest to it.
    [shortestFrom fuel k a] tries [k], [k+1], ... significant digits on the
    double [a]: the multiple of [10^(digits - k)] below [a] and the one
    above.  Seventeen digits always denote the double they were taken
    from. *)
Fixpoint shortestFrom (fuel : nat) (k : Z) (a : Z) : Z :=
  match fuel with
  | O => a
  | S fuel' =>
      let unit := 10 ^ (digits a - k) in
      let below := a / unit * unit in
      let above := below + unit in
      if nearest below =? a then
        if (nearest above =? a) && (above - a <? a - below) then above else below
      else if nearest above =? a then above
      else shortestFrom fuel' (k + 1) a
  end.

(** Below 2^53 every integer is a double and no shorter numeral stands for
    it. *)
Definition shortest (a : Z) : Z := if a <? 2 ^ 53 then a else shortestFrom 17 1 a.

(** A numeral without its trailing zeros. *)
Fixpoint stripZeros (s : string) : string :=
  match s with
  | EmptyString => EmptyString
  | String c s' =>
      match stripZeros s' with
      | EmptyString => if Ascii.eqb c "0" then EmptyString else String c EmptyString
      | rest => String c rest
      end
  end.

Fixpoint zeros (n : nat) : string :=
  match n with
  | O => EmptyString
  | S n' => String "0" (zeros n')
  end.

(** Number::toString(x) for a positive finite [x], from step 5 on: [s] holds
    the [k] significant digits of [x] and [n] is the position of the point,
    so that [x] is [0.s] times ten to the power [n].

      If -5 <= n <= 21:  k <= n: the digits of s, then n - k zeros;
                         0 < n:  the first n digits, a point, the others;
                         n <= 0: "0.", then -n zeros, then the digits.
      Otherwise the exponent form, with e = n - 1:
                         k = 1:  the digit, "e", the sign of e and |e|;
                         else the first digit, a point, the others, "e", ... *)
Definition numeral (s : string) (n : Z) : string :=
  let k := Z.of_nat (String.length s) in
  if (-5 <=? n) && (n <=? 21) then
    if k <=? n then s ++ zeros (Z.to_nat (n - k))
    else if 0 <? n then JsString.take (Z.to_nat n) s ++ "." ++ JsString.drop (Z.to_nat n) s
    else "0." ++ zeros (Z.to_nat (- n)) ++ s
  else
    let e := (if 0 <? n - 1 then "+" else "-") ++ Z_to_string (Z.abs (n - 1)) in
    match s with
    | EmptyString => EmptyString
    | String c EmptyString => String c ("e" ++ e)
    | String c rest => String c ("." ++ rest ++ "e" ++ e)
    end.

Definition signed (negative : bool) (s : string) : string :=
  if negative then "-" ++ s else s.

(** Number::toString of the Number that the integer numeral [n] denotes.
    Below 10^21 the shortest numeral is printed in full (the case
    [k <= n <= 21] above), from 10^21 on in the exponent form. *)
Definition numberToString (n : Z) : string :=
  if isInfinite n then signed (n <? 0) "Infinity"
  else
    let v := shortest (nearest (Z.abs n)) in
    signed (n <? 0)
      (if v <? 10 ^ 21 then Z_to_string v
       else numeral (stripZeros (Z_to_string v)) (digits v)).

(** ToString, as used by template literals and by [parseInt]. *)
Definition toString (v : JsValue) : string :=
  match v with
  | VUndefined => "undefined"
  | VNull => "null"
  | VBoolean true => "true"
  | VBoolean false => "false"
  | VNumber n => numberToString n
  | VNaN => "NaN"
  | VString s => s
  | VFraction s e =>
      signed (s <? 0) (numeral (Z_to_string (Z.abs s)) (digits (Z.abs s) - Z.pos e))
  end.

(** Value of a character as a digit in a radix up to 36. *)
Definition digitValue (c : ascii) : option Z :=
  let n := Z.of_N (JsString.code c) in
  if (48 <=? n) && (n <=? 57) then Some (n - 48)
  else if (97 <=? n) && (n <=? 122) then Some (n - 87)
  else if (65 <=? n) && (n <=? 90) then Some (n - 55)
  else None.

(** The longest prefix of radix-[R] digits, read as a number; [acc] is
    [None] as long as no digit has been read. *)
Fixpoint readDigits (R : Z) (s : string) (acc : option Z) : option Z :=
  match s with
  | EmptyString => acc
  | String c s' =>
      match digitValue c with
      | Some d =>
          if d <? R
          then readDigits R s' (Some (match acc with Some a => a * R + d | None => d end))
          else acc
      | None => acc
      end
  end.

(** The integer that [parseInt(string)] reads, without a radix argument:
    leading white space, a sign, a [0x]/[0X] prefix selecting radix 16, then
    digits; [None] is [NaN]. *)
Definition parseIntString (s : string) : option Z :=
  let s1 := JsString.trimStart s in
  let '(sign, s2) :=
    match s1 with
    | String "-" r => (-1, r)
    | String "+" r => (1, r)
    | _ => (1, s1)
    end in
  let '(R, s3) :=
    if String.prefix "0x" s2 || String.prefix "0X" s2
    then (16, JsString.drop 2 s2) else (10, s2) in
  option_map (Z.mul sign) (readDigits R s3 None).

(** [parseInt(v)]: [v] is converted with ToString, the string is read, and
    the result is the Number value of the integer read.  So a Number below
    10^21 reads back as itself, one from 10^21 on as the first digit of its
    exponent form, a fraction as what stands before its point or its [e],
    and the values that print as words, [Infinity] among them, give
    [NaN]. *)
Definition parseInt (v : JsValue) : option Z :=
  option_map number (parseIntString (toString v)).

(** [parseInt(value)] of a Number, as an integer: of [Infinity] it is
    [NaN], for which the infinite [value] stands here. *)
Definition integerOf (value : Z) : Z :=
  match parseInt (VNumber value) with
  | Some v => v
  | None => value
  end.

(** [isNaN(parseInt(v))]. *)
Definition isNaN (n : option Z) : bool :=
  match n with Some _ => false | None => true end.

End Js.

(** ** JSON

    [Post.toDatabase] serializes [links] with [JSON.stringify] and
    [Post.parseLinks] reads the column back with [JSON.parse].  A number keeps
    the text of its literal. *)

#[local] Set Warnings "-register-all".

Inductive Json : Type :=
| JNull
| JBool (b : bool)
| JNumber (literal : string)
| JString (s : string)
| JArray (items : list Json)
| JObject (members : list (string * Json)).

Module JSON.

Definition hexDigit (n : N) : ascii :=
  ascii_of_N (if (n <? 10)%N then 48 + n else 87 + n)%N.

(** QuoteJSONString, one code unit. *)
Definition escapeChar (c : ascii) : string :=
  let n := JsString.code c in
  if (n =? 8)%N then "\b"
  else if (n =? 9)%N then "\t"
  else if (n =? 10)%N then "\n"
  else if (n =? 12)%N then "\f"
  else if (n =? 13)%N then "\r"
  else if (n =? 34)%N then String "\" (String c EmptyString)
  else if (n =? 92)%N then "\\"
  else if (n <? 32)%N
       then "\u00" ++ String (hexDigit (n / 16)) (String (hexDigit (n mod 16)) EmptyString)
  else String c EmptyString.

Fixpoint escape (s : string) : string :=
  match s with
  | EmptyString => EmptyString
  | String c s' => escapeChar c ++ escape s'
  end.

Definition dquote : ascii := ascii_of_N 34.

Definition quote (s : string) : string :=
  String dquote (escape s ++ String dquote EmptyString).

Fixpoint join (sep : string) (l : list string) : string :=
  match l with
  | [] => EmptyString
  | [x] => x
  | x :: l' => x ++ sep ++ join sep l'
  end.

(** [JSON.stringify(value)]. *)
Fixpoint stringify (v : Json) : string :=
  match v with
  | JNull => "null"
  | JBool true => "true"
  | JBool false => "false"
  | JNumber literal => literal
  | JString s => quote s
  | JArray items => "[" ++ join "," (map stringify items) ++ "]"
  | JObject members =>
      "{" ++ join "," (map (fun m => quote (fst m) ++ ":" ++ stringify (snd m)) members) ++ "}"
  end.

(** JSON white space: TAB, LF, CR, SP. *)
Definition isJsonWs (c : ascii) : bool :=
  let n := JsString.code c in
  (n =? 9)%N || (n =? 10)%N || (n =? 13)%N || (n =? 32)%N.

Fixpoint skipWs (s : string) : string :=
  match s with
  | EmptyString => EmptyString
  | String c s' => if isJsonWs c then skipWs s' else s
  end.

Definition hexValue (c : ascii) : option N :=
  match Js.digitValue c with
  | Some d => if d <? 16 then Some (Z.to_N d) else None
  | None => None
  end.

(** The code unit of [\uXXXX], kept in the modelled range. *)
Definition unicodeEscape (a b c d : ascii) : option ascii :=
  match hexValue a, hexValue b, hexValue c, hexValue d with
  | Some x, Some y, Some z, Some w =>
      Some (ascii_of_N ((((x * 16 + y) * 16 + z) * 16 + w) mod 256))
  | _, _, _, _ => None
  end.

Definition cons_fst (c : ascii) (r : option (string * string)) : option (string * string) :=
  match r with
  | Some (str, rest) => Some (String c str, rest)
  | None => None
  end.

(** The characters of a string literal after its opening quote, up to and
    including the closing quote. *)
Fixpoint parseChars (s : string) : option (string * string) :=
  match s with
  | EmptyString => None
  | String c s' =>
      if Ascii.eqb c dquote then Some (EmptyString, s')
      else if Ascii.eqb c "\" then
        match s' with
        | String e s'' =>
            if Ascii.eqb e dquote then cons_fst dquote (parseChars s'')
            else if Ascii.eqb e "\" then cons_fst "\" (parseChars s'')
            else if Ascii.eqb e "/" then cons_fst "/" (parseChars s'')
            else if Ascii.eqb e "b" then cons_fst (ascii_of_N 8) (parseChars s'')
            else if Ascii.eqb e "f" then cons_fst (ascii_of_N 12) (parseChars s'')
            else if Ascii.eqb e "n" then cons_fst (ascii_of_N 10) (parseChars s'')
            else if Ascii.eqb e "r" then cons_fst (ascii_of_N 13) (parseChars s'')
            else if Ascii.eqb e "t" then cons_fst (ascii_of_N 9) (parseChars s'')
            else if Ascii.eqb e "u" then
              match s'' with
              | String h1 (String h2 (String h3 (String h4 rest))) =>
                  match unicodeEscape h1 h2 h3 h4 with
                  | Some u => cons_fst u (parseChars rest)
                  | None => None
                  end
              | _ => None
              end
            else None
        | EmptyString => None
        end
      else if (JsString.code c <? 32)%N then None
      else cons_fst c (parseChars s')
  end.

Definition isDigit (c : ascii) : bool :=
  let n := JsString.code c in ((48 <=? n) && (n <=? 57))%N.

(** The longest prefix of decimal digits and what follows it. *)
Fixpoint spanDigits (s : string) : string * string :=
  match s with
  | EmptyString => (EmptyString, EmptyString)
  | String c s' =>
      if isDigit c then let '(d, r) := spanDigits s' in (String c d, r)
      else (EmptyString, s)
  end.

(** A JSON number: [-]? int frac? exp?; returns its text. *)
Definition parseNumber (s : string) : option (string * string) :=
  let '(sign, s1) :=
    match s with String "-" r => ("-", r) | _ => (EmptyString, s) end in
  let '(int, s2) := spanDigits s1 in
  if negb (JsString.truthy int) then None
  else if String.prefix "0" int && negb (String.eqb int "0") then None
  else
    let fracPart :=
      match s2 with
      | String "." r =>
          let '(f, r') := spanDigits r in
          if JsString.truthy f then Some ("." ++ f, r') else None
      | _ => Some (EmptyString, s2)
      end in
    match fracPart with
    | None => None
    | Some (frac, s3) =>
        let expPart :=
          match s3 with
          | String e r =>
              if Ascii.eqb e "e" || Ascii.eqb e "E" then
                let '(sg, r1) :=
                  match r with
                  | String "+" r' => ("+", r')
                  | String "-" r' => ("-", r')
                  | _ => (EmptyString, r)
                  end in
                let '(d, r2) := spanDigits r1 in
                if JsString.truthy d then Some (String e (sg ++ d), r2) else None
              else Some (EmptyString, s3)
          | EmptyString => Some (EmptyString, s3)
          end in
        match expPart with
        | None => None
        | Some (ex, s4) => Some (sign ++ int ++ frac ++ ex, s4)
        end
    end.

Definition literal (word : string) (v : Json) (s : string) : option (Json * string) :=
  if String.prefix word s then Some (v, JsString.drop (String.length word) s) else None.

(** A JSON value, the elements of an array after the first bracket, and the
    members of an object after the first brace.  [fuel] bounds the nesting
    and the number of siblings; [2 * length + 2] is enough for any text. *)
Fixpoint parseValue (fuel : nat) (s : string) : option (Json * string) :=
  match fuel with
  | O => None
  | S fuel' =>
      match skipWs s with
      | EmptyString => None
      | String c s' =>
          if Ascii.eqb c dquote then
            match parseChars s' with
            | Some (str, rest) => Some (JString str, rest)
            | None => None
            end
          else if Ascii.eqb c "[" then
            match skipWs s' with
            | String "]" rest => Some (JArray [], rest)
            | s1 =>
                match parseElements fuel' s1 with
                | Some (items, rest) => Some (JArray items, rest)
                | None => None
                end
            end
          else if Ascii.eqb c "{" then
            match skipWs s' with
            | String "}" rest => Some (JObject [], rest)
            | s1 =>
                match parseMembers fuel' s1 with
                | Some (members, rest) => Some (JObject members, rest)
                | None => None
                end
            end
          else if Ascii.eqb c "n" then literal "null" JNull (String c s')
          else if Ascii.eqb c "t" then literal "true" (JBool true) (String c s')
          else if Ascii.eqb c "f" then literal "false" (JBool false) (String c s')
          else
            match parseNumber (String c s') with
            | Some (lit, rest) => Some (JNumber lit, rest)
            | None => None
            end
      end
  end

with parseElements (fuel : nat) (s : string) : option (list Json * string) :=
  match fuel with
  | O => None
  | S fuel' =>
      match parseValue fuel' s with
      | None => None
      | Some (v, rest) =>
          match skipWs rest with
          | String "," r =>
              match parseElements fuel' r with
              | Some (vs, r') => Some (v :: vs, r')
              | None => None
              end
          | String "]" r => Some ([v], r)
          | _ => None
          end
      end
  end

with parseMembers (fuel : nat) (s : string) : option (list (string * Json) * string) :=
  match fuel with
  | O => None
  | S fuel' =>
      match skipWs s with
      | String c s1 =>
          if Ascii.eqb c dquote then
            match parseChars s1 with
            | None => None
            | Some (key, s2) =>
                match skipWs s2 with
                | String ":" s3 =>
                    match parseValue fuel' s3 with
                    | None => None
                    | Some (v, rest) =>
                        match skipWs rest with
                        | String "," r =>
                            match parseMembers fuel' r with
                            | Some (ms, r') => Some ((key, v) :: ms, r')
                            | None => None
                            end
                        | String "}" r => Some ([(key, v)], r)
                        | _ => None
                        end
                    end
                | _ => None
                end
            end
          else None
      | EmptyString => None
      end
  end.

(** [JSON.parse(text)]; [None] stands for the SyntaxError it throws. *)
Definition parse (text : string) : option Json :=
  match parseValue (2 * String.length text + 2) text with
  | Some (v, rest) =>
      match skipWs rest with
      | EmptyString => Some v
      | String _ _ => None
      end
  | None => None
  end.

End JSON.

(** ** Errors

    Every failure is a JavaScript [Error] with a message.  [kind] is the
    error's place in the taxonomy of the specification; the message is the
    one the source builds. *)

Inductive ErrorKind : Type :=
| ValidationError
| InvalidIdError
| InvalidInputError
| DuplicateError
| NotFoundError
| DeletionFailedError
| RepositoryError      (* a repository's [catch]: `Failed to ...: ${error.message}` *)
| StorageError         (* raised by knex or by the SQLite driver *)
| TypeError.           (* raised by the runtime *)

Record Error : Type := mkError { kind : ErrorKind; message : string }.

(** ** The database: three tables (see [src/database/migrations]) *)

Record KeywordRow : Type := mkKeywordRow {
  kw_id : Z;
  kw_keyword : string;             (* string, not null, unique *)
  kw_created_at : Z;
  kw_updated_at : Z }.

Record SubredditRow : Type := mkSubredditRow {
  sr_id : Z;
  sr_name : string;                (* string, not null, unique *)
  sr_created_at : Z;
  sr_updated_at : Z }.

Record PostRow : Type := mkPostRow {
  p_id : Z;
  p_title : string;                (* string, not null *)
  p_description : option string;   (* text, nullable *)
  p_links : option string;         (* text, nullable *)
  p_created_at : Z;
  p_updated_at : Z }.

(** A table: its rows in rowid order and the AUTOINCREMENT sequence. *)
Record Table (R : Type) : Type := mkTable { rows : list R; seq : Z }.
Arguments mkTable {R} _ _.
Arguments rows {R} _.
Arguments seq {R} _.

Record Database : Type := mkDatabase {
  keywords : Table KeywordRow;
  subreddits : Table SubredditRow;
  posts : Table PostRow }.

Inductive SqlVerb : Type := SELECT | INSERT | UPDATE | DELETE.

Inductive Repository : Type := KeywordRepo | SubredditRepo | PostRepo.

(** What an observer of the repositories and of the connection records:
    the repository methods that were entered, and the statements that
    were sent to the storage engine. *)
Inductive Event : Type :=
| Call (repo : Repository) (method : string)
| Sql (table : string) (verb : SqlVerb).

Record World : Type := mkWorld {
  database : Database;
  now : Z;                         (* the clock read by CURRENT_TIMESTAMP and [new Date()] *)
  trace : list Event }.

(** ** Asynchronous computations *)

Inductive Outcome (A : Type) : Type :=
| Resolved (a : A)
| Rejected (e : Error).
Arguments Resolved {A} _.
Arguments Rejected {A} _.

Definition Async (A : Type) : Type := World -> Outcome A * World.

Definition ret {A} (a : A) : Async A := fun w => (Resolved a, w).

Definition bind {A B} (m : Async A) (k : A -> Async B) : Async B :=
  fun w =>
    match m w with
    | (Resolved a, w') => k a w'
    | (Rejected e, w') => (Rejected e, w')
    end.

(** [throw new Error(message)]. *)
Definition throw {A} (k : ErrorKind) (msg : string) : Async A :=
  fun w => (Rejected (mkError k msg), w).

(** [try { body } catch (error) { handler }]. *)
Definition tryCatch {A} (body : Async A) (handler : Error -> Async A) : Async A :=
  fun w =>
    match body w with
    | (Resolved a, w') => (Resolved a, w')
    | (Rejected e, w') => handler e w'
    end.

Notation "x <- m ;; k" := (bind m (fun x => k))
  (at level 61, m at next level, right associativity).
Notation "m ;;; k" := (bind m (fun _ => k))
  (at level 61, right associativity).

Definition emit (ev : Event) : Async unit :=
  fun w => (Resolved tt, mkWorld (database w) (now w) (trace w ++ [ev])).

Definition getDatabase : Async Database := fun w => (Resolved (database w), w).

Definition putDatabase (d : Database) : Async unit :=
  fun w => (Resolved tt, mkWorld d (now w) (trace w)).

Definition getNow : Async Z := fun w => (Resolved (now w), w).

(** The services' [catch (error) { console.log(...); throw error; }]:
    the error is passed on unchanged. *)
Definition rethrow {A} (body : Async A) : Async A :=
  tryCatch body (fun error => throw (kind error) (message error)).

(** The repositories'
    [catch (error) { throw new Error(`Failed to ...: ${error.message}`); }]. *)
Definition wrap {A} (prefix : string) (body : Async A) : Async A :=
  tryCatch body (fun error => throw RepositoryError (prefix ++ message error)).

(** Calling a property that is [undefined]. *)
Definition notAFunction {A} (expr : string) : Async A :=
  throw TypeError (expr ++ " is not a function").

(** ** The storage connector: knex over SQLite

    Only what the repositories use: [first], [select], [count], [insert],
    [update], [del], the [like] operator, [orderBy], [limit] and [offset]. *)

Module Sqlite.

(** [LIKE] folds the case of ASCII letters only. *)
Definition foldCase (c : ascii) : ascii :=
  let n := JsString.code c in
  if ((65 <=? n) && (n <=? 90))%N then ascii_of_N (n + 32) else c.

(** [text LIKE pattern]: [%] matches any run of characters, [_] matches
    one character, anything else matches itself up to ASCII case. *)
Fixpoint like (pattern text : string) {struct pattern} : bool :=
  match pattern with
  | EmptyString => String.eqb text EmptyString
  | String c pattern' =>
      if Ascii.eqb c "%" then
        (fix star (t : string) : bool :=
           like pattern' t ||
           match t with
           | EmptyString => false
           | String _ t' => star t'
           end) text
      else
        match text with
        | EmptyString => false
        | String d text' =>
            (Ascii.eqb c "_" || Ascii.eqb (foldCase c) (foldCase d))
            && like pattern' text'
        end
  end.

(** [LIKE] on a nullable column: NULL matches nothing. *)
Definition likeNullable (pattern : string) (text : option string) : bool :=
  match text with
  | Some t => like pattern t
  | None => false
  end.

Section OrderBy.
Context {R : Type} (before : R -> R -> bool).

Fixpoint insertBy (x : R) (l : list R) : list R :=
  match l with
  | [] => [x]
  | y :: l' => if before x y then x :: l else y :: insertBy x l'
  end.

(** [ORDER BY]: rows with equal keys stay in rowid order. *)
Definition orderBy (l : list R) : list R := fold_right insertBy [] l.

(** [ORDER BY key DESC] answered from the index on the key, which is
    walked backwards: rows with equal keys come in descending rowid
    order. *)
Definition orderByIndexDesc (l : list R) : list R := orderBy (rev l).
End OrderBy.

(** [LIMIT n]: a negative limit is no limit. *)
Definition limit {R} (n : Z) (l : list R) : list R :=
  if n <? 0 then l else firstn (Z.to_nat n) l.

(** [OFFSET k]: a negative offset is no offset. *)
Definition offset {R} (k : Z) (l : list R) : list R := skipn (Z.to_nat k) l.

(** What [LIMIT ?] and [OFFSET ?] take for the parameter: an integer
    strictly between -2^63 and 2^63.  The driver binds a number beyond 32
    bits as a floating-point value, which SQLite turns back into an integer
    when that loses nothing; for any other number the statement fails with
    a datatype mismatch. *)
Definition isInteger (v : Z) : bool := (- 2 ^ 63 <? v) && (v <? 2 ^ 63).

(** [AVG(x)] over the values that are not NULL: NULL when there is none,
    and otherwise their sum divided by their number, kept here as the two
    integers. *)
Definition avg (values : list Z) : option (Z * Z) :=
  match values with
  | [] => None
  | _ :: _ => Some (fold_right Z.add 0 values, Z.of_nat (List.length values))
  end.

(** [LENGTH(text)]: the number of characters before the first NUL. *)
Fixpoint length (s : string) : Z :=
  match s with
  | EmptyString => 0
  | String c s' => if (JsString.code c =? 0)%N then 0 else 1 + length s'
  end.

End Sqlite.

Module Knex.

(** [require('../config/database')]: the one connection of the process. *)
Inductive Connection : Type := connection.

(** [this.db] of a repository: [None] when the constructor got no
    argument. *)
Definition Handle : Type := option Connection.

Record TableRef (R : Type) : Type := mkTableRef {
  tableName : string;
  getTable : Database -> Table R;
  setTable : Database -> Table R -> Database;
  rowId : R -> Z }.
Arguments tableName {R} _.
Arguments getTable {R} _ _.
Arguments setTable {R} _ _ _.
Arguments rowId {R} _ _.

Definition keywordsTable : TableRef KeywordRow :=
  mkTableRef _ "keywords" keywords
    (fun d t => mkDatabase t (subreddits d) (posts d)) kw_id.

Definition subredditsTable : TableRef SubredditRow :=
  mkTableRef _ "subreddits" subreddits
    (fun d t => mkDatabase (keywords d) t (posts d)) sr_id.

Definition postsTable : TableRef PostRow :=
  mkTableRef _ "posts" posts
    (fun d t => mkDatabase (keywords d) (subreddits d) t) p_id.

(** [this.db(this.tableName)]. *)
Definition table (db : Handle) : Async unit :=
  match db with
  | Some connection => ret tt
  | None => notAFunction "this.db"
  end.

Section Queries.
Context {R : Type} (ref : TableRef R).

(** [.where(p).first()]. *)
Definition first (p : R -> bool) : Async (option R) :=
  emit (Sql (tableName ref) SELECT) ;;;
  d <- getDatabase ;;
  ret (find p (rows (getTable ref d))).

(** [.where(p)] awaited: the matching rows. *)
Definition select (p : R -> bool) : Async (list R) :=
  emit (Sql (tableName ref) SELECT) ;;;
  d <- getDatabase ;;
  ret (filter p (rows (getTable ref d))).

(** [.where(p).count('id as count')]. *)
Definition count (p : R -> bool) : Async Z :=
  emit (Sql (tableName ref) SELECT) ;;;
  d <- getDatabase ;;
  ret (Z.of_nat (List.length (filter p (rows (getTable ref d))))).

Definition maxId (l : list R) : Z :=
  fold_right (fun r m => Z.max (rowId ref r) m) 0 l.

(** [.insert(data)] into a table with an AUTOINCREMENT key: the new id
    is above every id in the table and every id handed out before.
    [violation] is the constraint the data breaks, if any. *)
Definition insert (violation : list R -> option string) (mk : Z -> Z -> R) : Async Z :=
  emit (Sql (tableName ref) INSERT) ;;;
  d <- getDatabase ;;
  t <- getNow ;;
  let tbl := getTable ref d in
  match violation (rows tbl) with
  | Some msg => throw StorageError msg
  | None =>
      let id := Z.max (seq tbl) (maxId (rows tbl)) + 1 in
      putDatabase (setTable ref d (mkTable (rows tbl ++ [mk id t]) id)) ;;;
      ret id
  end.

(** [.where(p).update(data)]: the number of rows changed.  [violation]
    sees the rows that are not updated, and is checked only when some row
    is. *)
Definition update (p : R -> bool) (violation : list R -> option string)
           (set : Z -> R -> R) : Async Z :=
  emit (Sql (tableName ref) UPDATE) ;;;
  d <- getDatabase ;;
  t <- getNow ;;
  let tbl := getTable ref d in
  match filter p (rows tbl) with
  | [] => ret 0
  | hit :: hits =>
      match violation (filter (fun r => negb (p r)) (rows tbl)) with
      | Some msg => throw StorageError msg
      | None =>
          putDatabase (setTable ref d
            (mkTable (map (fun r => if p r then set t r else r) (rows tbl)) (seq tbl))) ;;;
          ret (Z.of_nat (List.length (hit :: hits)))
      end
  end.

(** [.limit(value)]: the value is read with [parseInt(value, 10)]; when
    that is [NaN] the clause is left out. *)
Definition limitClause (value : Z) : option Z := Js.parseInt (VNumber value).

(** [.offset(value)]: the same, and a negative offset is refused when the
    query is built. *)
Definition offsetClause (value : Z) : Async (option Z) :=
  match Js.parseInt (VNumber value) with
  | Some val =>
      if val <? 0
      then throw StorageError "A non-negative integer must be provided to offset."
      else ret (Some val)
  | None => ret None
  end.

(** The rows that the statement returns from the [ordered] rows it
    matches: those that [LIMIT] and [OFFSET] leave, when SQLite takes the
    two parameters.  It takes an integer of 64 bits, the two ends apart, or
    a double with such a value.  The message of the refusal is the driver's;
    knex puts the text of the statement before it. *)
Definition window (limit offset : option Z) (ordered : list R) : Async (list R) :=
  let accepted := fun clause => match clause with
                                | Some v => Sqlite.isInteger v
                                | None => true
                                end in
  if accepted limit && accepted offset
  then ret (match limit with Some n => Sqlite.limit n | None => fun l => l end
              (match offset with Some k => Sqlite.offset k | None => fun l => l end
                 ordered))
  else throw StorageError "SQLITE_MISMATCH: datatype mismatch".

(** [.where(p).del()]: the number of rows removed. *)
Definition del (p : R -> bool) : Async Z :=
  emit (Sql (tableName ref) DELETE) ;;;
  d <- getDatabase ;;
  let tbl := getTable ref d in
  putDatabase (setTable ref d
    (mkTable (filter (fun r => negb (p r)) (rows tbl)) (seq tbl))) ;;;
  ret (Z.of_nat (List.length (filter p (rows tbl)))).
End Queries.

End Knex.

(** Constraints of the migrations.  The message is the driver's; knex
    puts the text of the statement before it. *)
Module Schema.

(** [table.string('keyword', 255).notNullable()], [table.unique(['keyword'])]. *)
Definition keywordViolation (keyword : option string) (others : list KeywordRow)
  : option string :=
  match keyword with
  | None => Some "SQLITE_CONSTRAINT: NOT NULL constraint failed: keywords.keyword"
  | Some k =>
      if existsb (fun r => String.eqb (kw_keyword r) k) others
      then Some "SQLITE_CONSTRAINT: UNIQUE constraint failed: keywords.keyword"
      else None
  end.

(** [table.string('name', 50).notNullable()], [table.unique(['name'])]. *)
Definition subredditViolation (name : option string) (others : list SubredditRow)
  : option string :=
  match name with
  | None => Some "SQLITE_CONSTRAINT: NOT NULL constraint failed: subreddits.name"
  | Some n =>
      if existsb (fun r => String.eqb (sr_name r) n) others
      then Some "SQLITE_CONSTRAINT: UNIQUE constraint failed: subreddits.name"
      else None
  end.

(** [table.string('title', 500).notNullable()]; no unique index. *)
Definition postViolation (title : option string) (others : list PostRow)
  : option string :=
  match title with
  | None => Some "SQLITE_CONSTRAINT: NOT NULL constraint failed: posts.title"
  | Some _ => None
  end.

End Schema.

(** ** Entity models ([src/models])

    A constructor argument [data] is a record of optional fields: [None] is a
    field that is absent, [undefined] or [null].  A timestamp is the
    instant that a [Date] or a stored datetime names, written as the tick of
    the clock at which it was taken.  As a JavaScript value it is a [Date]
    or a string, never the Number [0]: [created_at || createdAt || null]
    keeps every timestamp, the one of tick 0 too. *)

(** [x || null] on a number. *)
Definition orNullZ (x : option Z) : option Z :=
  match x with
  | Some 0 => None
  | other => other
  end.

(** [x || null] on a string. *)
Definition orNullString (x : option string) : option string :=
  match x with
  | Some s => if JsString.truthy s then Some s else None
  | None => None
  end.

(** [x || ''] on a string. *)
Definition orEmptyString (x : option string) : string :=
  match x with
  | Some s => s
  | None => EmptyString
  end.

Module Keyword.

Record t : Type := mk {
  id : option Z;
  keyword : string;
  createdAt : option Z;
  updatedAt : option Z }.

Record Data : Type := mkData {
  d_id : option Z;
  d_keyword : option string;
  d_createdAt : option Z;
  d_updatedAt : option Z }.

(** [constructor(data)]. *)
Definition new (data : Data) : t :=
  mk (orNullZ (d_id data)) (orEmptyString (d_keyword data))
     (d_createdAt data) (d_updatedAt data).

(** [toDatabase()]: the fields under their column names. *)
Definition toDatabase (k : t) : Data :=
  mkData (id k) (Some (keyword k)) (createdAt k) (updatedAt k).

Definition ofRow (row : KeywordRow) : Data :=
  mkData (Some (kw_id row)) (Some (kw_keyword row))
         (Some (kw_created_at row)) (Some (kw_updated_at row)).

(** [static fromDatabase(row)]. *)
Definition fromDatabase (row : option KeywordRow) : option t :=
  match row with
  | None => None
  | Some r => Some (new (ofRow r))
  end.

(** [{...existingKeyword}]: an instance seen as constructor data. *)
Definition spread (k : t) : Data :=
  mkData (id k) (Some (keyword k)) (createdAt k) (updatedAt k).

(** [static isValidKeyword(keyword)]:

      return keyword && typeof keyword === 'string' &&
             keyword.trim().length > 0 && keyword.length < 500;

    A chain of [&&] gives its first falsy operand, or else the last one. *)
Definition isValidKeyword (keyword : JsValue) : JsValue :=
  if negb (Js.truthy keyword) then keyword
  else match keyword with
       | VString s =>
           VBoolean ((0 <? Z.of_nat (String.length (JsString.trim s)))
                     && (Z.of_nat (String.length s) <? 500))
       | _ => VBoolean false
       end.

End Keyword.

Module Subreddit.

Record t : Type := mk {
  id : option Z;
  name : option string;
  createdAt : option Z;
  updatedAt : option Z }.

Record Data : Type := mkData {
  d_id : option Z;
  d_name : option string;
  d_createdAt : option Z;
  d_updatedAt : option Z }.

(** [constructor(data)]. *)
Definition new (data : Data) : t :=
  mk (orNullZ (d_id data)) (orNullString (d_name data))
     (d_createdAt data) (d_updatedAt data).

(** [toDatabase()]. *)
Definition toDatabase (x : t) : Data :=
  mkData (id x) (name x) (createdAt x) (updatedAt x).

Definition ofRow (row : SubredditRow) : Data :=
  mkData (Some (sr_id row)) (Some (sr_name row))
         (Some (sr_created_at row)) (Some (sr_updated_at row)).

(** [static fromDatabase(row)]. *)
Definition fromDatabase (row : option SubredditRow) : option t :=
  match row with
  | None => None
  | Some r => Some (new (ofRow r))
  end.

(** [{...existingSubreddit}]. *)
Definition spread (x : t) : Data :=
  mkData (id x) (name x) (createdAt x) (updatedAt x).

(** [static isValidName(name)]:

      return name && typeof name === 'string' &&
             name.trim().length > 0 && name.length < 500;
*)
Definition isValidName (name : JsValue) : JsValue :=
  if negb (Js.truthy name) then name
  else match name with
       | VString s =>
           VBoolean ((0 <? Z.of_nat (String.length (JsString.trim s)))
                     && (Z.of_nat (String.length s) <? 500))
       | _ => VBoolean false
       end.

End Subreddit.

Module Post.

(** [links] holds whatever the constructor put there: an array in every
    row the repository wrote, any JSON value for foreign rows. *)
Record t : Type := mk {
  id : option Z;
  title : string;
  description : option string;
  links : Json;
  createdAt : option Z;
  updatedAt : option Z }.

(** [d_links] is [JNull] when the field is absent or null, [JString] for
    the text of a [links] column. *)
Record Data : Type := mkData {
  d_id : option Z;
  d_title : option string;
  d_description : option string;
  d_links : Json;
  d_createdAt : option Z;
  d_updatedAt : option Z }.

(** [parseLinks(linksData)]:

      if (!linksData) return [];
      if (typeof linksData === 'string') {
        try { return JSON.parse(linksData); }
        catch (error) {
          return linksData.split(',').map(link => link.trim()).filter(link => link);
        }
      }
      return [];
*)
Definition parseLinks (linksData : Json) : Json :=
  match linksData with
  | JString s =>
      if negb (JsString.truthy s) then JArray []
      else
        match JSON.parse s with
        | Some v => v
        | None =>
            JArray (map JString
              (filter JsString.truthy (map JsString.trim (JsString.split "," s))))
        end
  | _ => JArray []
  end.

(** [constructor(data)]; [Array.isArray(data.links) ? data.links
    : this.parseLinks(data.links)]. *)
Definition new (data : Data) : t :=
  mk (orNullZ (d_id data))
     (orEmptyString (d_title data))
     (orNullString (d_description data))
     (match d_links data with
      | JArray items => JArray items
      | other => parseLinks other
      end)
     (d_createdAt data) (d_updatedAt data).

(** [toDatabase()]; [links: JSON.stringify(this.links)]. *)
Record Columns : Type := mkColumns {
  c_id : option Z;
  c_title : string;
  c_description : option string;
  c_links : string;
  c_created_at : option Z;
  c_updated_at : option Z }.

Definition toDatabase (x : t) : Columns :=
  mkColumns (id x) (title x) (description x) (JSON.stringify (links x))
            (createdAt x) (updatedAt x).

Definition ofRow (row : PostRow) : Data :=
  mkData (Some (p_id row)) (Some (p_title row)) (p_description row)
         (match p_links row with Some text => JString text | None => JNull end)
         (Some (p_created_at row)) (Some (p_updated_at row)).

(** [static fromDatabase(row)]. *)
Definition fromDatabase (row : option PostRow) : option t :=
  match row with
  | None => None
  | Some r => Some (new (ofRow r))
  end.

(** [{...existingPost}]. *)
Definition spread (x : t) : Data :=
  mkData (id x) (Some (title x)) (description x) (links x)
         (createdAt x) (updatedAt x).

(** The computed property [hasLinks: this.links.length > 0] of [toJSON],
    for a [links] that is a sequence. *)
Definition linksNonEmpty (x : t) : bool :=
  match links x with
  | JArray (_ :: _) => true
  | _ => false
  end.

(** [getPreviewText(maxLength = 150)]:

      const text = this.description || this.title;
      if (!text) return '';
      if (text.length <= maxLength) return text;
      return text.substring(0, maxLength).trim() + '...';
*)
Definition getPreviewText (x : t) (maxLength : option Z) : string :=
  let maxLength := match maxLength with Some m => m | None => 150 end in
  let text := match orNullString (description x) with
              | Some d => d
              | None => title x
              end in
  if negb (JsString.truthy text) then EmptyString
  else if Z.of_nat (String.length text) <=? maxLength then text
  else JsString.trim (JsString.substring text 0 maxLength) ++ "...".

(** [static isValidTitle(title)]:

      return title && typeof title === 'string' &&
             title.trim().length > 0 && title.length <= 500;
*)
Definition isValidTitle (title : JsValue) : JsValue :=
  if negb (Js.truthy title) then title
  else match title with
       | VString s =>
           VBoolean ((0 <? Z.of_nat (String.length (JsString.trim s)))
                     && (Z.of_nat (String.length s) <=? 500))
       | _ => VBoolean false
       end.

(** [l === link] for an element [l] of [this.links] and a string [link]. *)
Definition isLink (link : string) (l : Json) : bool :=
  match l with
  | JString s => String.eqb s link
  | _ => false
  end.

(** The post with [this.links] replaced. *)
Definition setLinks (x : t) (newLinks : Json) : t :=
  mk (id x) (title x) (description x) newLinks (createdAt x) (updatedAt x).

Section Links.
(** [static isValidLink(link)]: whether [new URL(link)] returns. *)
Variable isValidLink : string -> bool.

(** [addLink(link)]:

      if (Post.isValidLink(link) && !this.links.includes(link)) {
        this.links.push(link);
      }

    [links] is an array in every post the constructor built from an array
    or from a serialized column; for the other values [JSON.parse] can give
    the method calls fail, or, on a string, [includes] is the substring
    test. *)
Definition addLink (x : t) (link : string) : Outcome t :=
  if isValidLink link then
    match links x with
    | JArray items =>
        if existsb (isLink link) items then Resolved x
        else Resolved (setLinks x (JArray (items ++ [JString link])))
    | JString s =>
        if JsString.includes s link then Resolved x
        else Rejected (mkError TypeError "this.links.push is not a function")
    | JNull =>
        Rejected (mkError TypeError "Cannot read properties of null (reading 'includes')")
    | JBool _ | JNumber _ | JObject _ =>
        Rejected (mkError TypeError "this.links.includes is not a function")
    end
  else Resolved x.
End Links.

(** [removeLink(link)]: [this.links = this.links.filter(l => l !== link)]. *)
Definition removeLink (x : t) (link : string) : Outcome t :=
  match links x with
  | JArray items =>
      Resolved (setLinks x (JArray (filter (fun l => negb (isLink link l)) items)))
  | JNull =>
      Rejected (mkError TypeError "Cannot read properties of null (reading 'filter')")
  | JBool _ | JNumber _ | JString _ | JObject _ =>
      Rejected (mkError TypeError "this.links.filter is not a function")
  end.

End Post.

(** ** Validation schemas (Joi)

    [schema.validate(input)] gives [{ error, value }]; [Invalid detail] is an
    [error] whose [details[0].message] is [detail].  An input object carries
    exactly the keys of its schema; a key that is absent holds [VUndefined]
    (or [None]).  Joi neither trims nor changes the case of a string. *)

Inductive Validated (A : Type) : Type :=
| Valid (value : A)
| Invalid (detail : string).
Arguments Valid {A} _.
Arguments Invalid {A} _.

Module Joi.

(** A key as Joi prints it, between double quotes. *)
Definition label (key : string) : string :=
  String JSON.dquote (key ++ String JSON.dquote EmptyString).

(** [Joi.string().min(1).max(max)]; ['string.empty'] and ['string.max']
    are the messages for these two failures. *)
Definition text (key : string) (max : Z) (emptyMsg maxMsg : string)
           (s : string) : Validated string :=
  if negb (JsString.truthy s) then Invalid emptyMsg
  else if max <? Z.of_nat (String.length s) then Invalid maxMsg
  else Valid s.

Definition notEmptyMsg (key : string) : string :=
  label key ++ " is not allowed to be empty".

Definition tooLongMsg (key : string) (max : string) : string :=
  label key ++ " length must be less than or equal to " ++ max ++ " characters long".

(** [.required()]. *)
Definition required (key : string) (max : Z) (emptyMsg maxMsg : string)
           (v : JsValue) : Validated string :=
  match v with
  | VUndefined => Invalid (label key ++ " is required")
  | VString s => text key max emptyMsg maxMsg s
  | _ => Invalid (label key ++ " must be a string")
  end.

(** [.optional()]. *)
Definition optional (key : string) (max : Z) (emptyMsg maxMsg : string)
           (v : JsValue) : Validated (option string) :=
  match v with
  | VUndefined => Valid None
  | VString s =>
      match text key max emptyMsg maxMsg s with
      | Valid s' => Valid (Some s')
      | Invalid d => Invalid d
      end
  | _ => Invalid (label key ++ " must be a string")
  end.

(** [Joi.string().max(10000).optional().allow(null, '')]: absent
    ([None]), [null] ([Some None]) or a string. *)
Definition nullableText (key : string) (max : Z) (v : JsValue)
  : Validated (option (option string)) :=
  match v with
  | VUndefined => Valid None
  | VNull => Valid (Some None)
  | VString s =>
      if max <? Z.of_nat (String.length s) then Invalid (tooLongMsg key "10000")
      else Valid (Some (Some s))
  | _ => Invalid (label key ++ " must be a string")
  end.

Definition MAX_SAFE_INTEGER : Z := 2 ^ 53 - 1.

(** [Joi.number().integer().required()] on the result of [parseInt]. *)
Definition integer (key : string) (n : option Z) : Validated Z :=
  match n with
  | None => Invalid (label key ++ " must be a number")
  | Some z =>
      if Js.isInfinite z
      then Invalid (label key ++ " cannot be infinity")
      else if (z <? - MAX_SAFE_INTEGER) || (MAX_SAFE_INTEGER <? z)
      then Invalid (label key ++ " must be a safe number")
      else Valid z
  end.

(** [Joi.number().integer().min(lo).max(hi).default(dflt)]; [hi] is
    [None] when the schema has no [max]. *)
Definition bounded (key : string) (lo : Z) (hi : option Z) (dflt : Z)
           (n : option Z) : Validated Z :=
  match n with
  | None => Valid dflt
  | Some z =>
      if Js.isInfinite z
      then Invalid (label key ++ " cannot be infinity")
      else if (z <? - MAX_SAFE_INTEGER) || (MAX_SAFE_INTEGER <? z)
      then Invalid (label key ++ " must be a safe number")
      else if z <? lo
      then Invalid (label key ++ " must be greater than or equal to " ++ Js.Z_to_string lo)
      else
        match hi with
        | Some h =>
            if h <? z
            then Invalid (label key ++ " must be less than or equal to " ++ Js.Z_to_string h)
            else Valid z
        | None => Valid z
        end
  end.

(** [Joi.string().max(max).optional()]. *)
Definition search (max : Z) (maxText : string) (v : option string)
  : Validated (option string) :=
  match v with
  | None => Valid None
  | Some s =>
      match text "search" max (notEmptyMsg "search") (tooLongMsg "search" maxText) s with
      | Valid s' => Valid (Some s')
      | Invalid d => Invalid d
      end
  end.

(** [Joi.string().valid(...).default(dflt)]. *)
Definition oneOf (key : string) (allowed : list string) (dflt : string)
           (v : option string) : Validated string :=
  match v with
  | None => Valid dflt
  | Some s =>
      if existsb (String.eqb s) allowed then Valid s
      else Invalid (label key ++ " must be one of [" ++ JSON.join ", " allowed ++ "]")
  end.

End Joi.

(** [const { error, value } = schema.validate(input);
     if (error) throw new Error(`${prefix}${error.details[0].message}`);] *)
Definition validate {A} (prefix : string) (v : Validated A) : Async A :=
  match v with
  | Valid value => ret value
  | Invalid detail => throw ValidationError (prefix ++ detail)
  end.

Module KeywordValidation.

Record CreateInput : Type := mkCreateInput { keyword : JsValue }.
Record CreateValue : Type := mkCreateValue { v_keyword : string }.

Definition create (input : CreateInput) : Validated CreateValue :=
  match Joi.required "keyword" 500 "Keyword cannot be empty"
          "Keyword must be less than 500 characters" (keyword input) with
  | Valid k => Valid (mkCreateValue k)
  | Invalid d => Invalid d
  end.

Record UpdateInput : Type := mkUpdateInput { u_keyword : JsValue }.
Record UpdateValue : Type := mkUpdateValue { uv_id : Z; uv_keyword : option string }.

(** [update.validate({ id: parseInt(id), ...updateData })]. *)
Definition update (id : option Z) (updateData : UpdateInput) : Validated UpdateValue :=
  match Joi.integer "id" id with
  | Invalid d => Invalid d
  | Valid i =>
      match Joi.optional "keyword" 500 (Joi.notEmptyMsg "keyword")
              (Joi.tooLongMsg "keyword" "500") (u_keyword updateData) with
      | Valid k => Valid (mkUpdateValue i k)
      | Invalid d => Invalid d
      end
  end.

Record QueryInput : Type := mkQueryInput {
  page : option Z; limit : option Z; search : option string;
  sortBy : option string; sortOrder : option string }.
Record QueryValue : Type := mkQueryValue {
  q_page : Z; q_limit : Z; q_search : option string;
  q_sortBy : string; q_sortOrder : string }.

Definition query (options : QueryInput) : Validated QueryValue :=
  match Joi.bounded "page" 1 None 1 (page options) with
  | Invalid d => Invalid d
  | Valid p =>
  match Joi.bounded "limit" 1 (Some 100) 20 (limit options) with
  | Invalid d => Invalid d
  | Valid l =>
  match Joi.search 255 "255" (search options) with
  | Invalid d => Invalid d
  | Valid s =>
  match Joi.oneOf "sortBy" ["keyword"; "created_at"; "updated_at"] "created_at"
          (sortBy options) with
  | Invalid d => Invalid d
  | Valid sb =>
  match Joi.oneOf "sortOrder" ["asc"; "desc"] "desc" (sortOrder options) with
  | Invalid d => Invalid d
  | Valid so => Valid (mkQueryValue p l s sb so)
  end end end end end.

End KeywordValidation.

Module SubredditValidation.

Record CreateInput : Type := mkCreateInput { name : JsValue }.
Record CreateValue : Type := mkCreateValue { v_name : string }.

Definition create (input : CreateInput) : Validated CreateValue :=
  match Joi.required "name" 500 "name cannot be empty"
          "name must be less than 500 characters" (name input) with
  | Valid n => Valid (mkCreateValue n)
  | Invalid d => Invalid d
  end.

Record UpdateInput : Type := mkUpdateInput { u_name : JsValue }.
Record UpdateValue : Type := mkUpdateValue { uv_id : Z; uv_name : option string }.

(** [update.validate({ id: parseInt(id), ...updateData })]. *)
Definition update (id : option Z) (updateData : UpdateInput) : Validated UpdateValue :=
  match Joi.integer "id" id with
  | Invalid d => Invalid d
  | Valid i =>
      match Joi.optional "name" 500 (Joi.notEmptyMsg "name")
              (Joi.tooLongMsg "name" "500") (u_name updateData) with
      | Valid n => Valid (mkUpdateValue i n)
      | Invalid d => Invalid d
      end
  end.

Record QueryInput : Type := mkQueryInput {
  page : option Z; limit : option Z; search : option string;
  sortBy : option string; sortOrder : option string }.
Record QueryValue : Type := mkQueryValue {
  q_page : Z; q_limit : Z; q_search : option string;
  q_sortBy : string; q_sortOrder : string }.

Definition query (options : QueryInput) : Validated QueryValue :=
  match Joi.bounded "page" 1 None 1 (page options) with
  | Invalid d => Invalid d
  | Valid p =>
  match Joi.bounded "limit" 1 (Some 100) 20 (limit options) with
  | Invalid d => Invalid d
  | Valid l =>
  match Joi.search 50 "50" (search options) with
  | Invalid d => Invalid d
  | Valid s =>
  match Joi.oneOf "sortBy" ["name"; "created_at"; "updated_at"] "name"
          (sortBy options) with
  | Invalid d => Invalid d
  | Valid sb =>
  match Joi.oneOf "sortOrder" ["asc"; "desc"] "asc" (sortOrder options) with
  | Invalid d => Invalid d
  | Valid so => Valid (mkQueryValue p l s sb so)
  end end end end end.

End SubredditValidation.

Module PostValidation.

Section Uri.
(** [Joi.string().uri()]: the RFC 3986 test of the validation library. *)
Variable isUri : string -> bool.

(** [Joi.array().items(Joi.string().uri())], with the message that the
    schema gives for ['string.uri']: the items are checked in order, and an
    empty string fails as empty before it is tested as a URI. *)
Fixpoint linkItems (index : Z) (l : list string) : option string :=
  match l with
  | [] => None
  | link :: l' =>
      if negb (JsString.truthy link)
      then Some (Joi.notEmptyMsg ("links[" ++ Js.Z_to_string index ++ "]"))
      else if negb (isUri link) then Some "Invalid URL format for link"
      else linkItems (index + 1) l'
  end.

Definition linkArray (l : list string) : Validated (list string) :=
  match linkItems 0 l with
  | None => Valid l
  | Some detail => Invalid detail
  end.

Record CreateInput : Type := mkCreateInput {
  title : JsValue; description : JsValue; links : option (list string) }.
Record CreateValue : Type := mkCreateValue {
  v_title : string; v_description : option (option string); v_links : list string }.

Definition create (input : CreateInput) : Validated CreateValue :=
  match Joi.required "title" 500 "Title cannot be empty"
          "Title must be less than 500 characters" (title input) with
  | Invalid d => Invalid d
  | Valid t =>
  match Joi.nullableText "description" 10000 (description input) with
  | Invalid d => Invalid d
  | Valid de =>
  match links input with
  | None => Valid (mkCreateValue t de [])          (* [.default([])] *)
  | Some l =>
      match linkArray l with
      | Valid l' => Valid (mkCreateValue t de l')
      | Invalid d => Invalid d
      end
  end end end.

Record UpdateInput : Type := mkUpdateInput {
  u_title : JsValue; u_description : JsValue; u_links : option (list string) }.
Record UpdateValue : Type := mkUpdateValue {
  uv_id : Z; uv_title : option string;
  uv_description : option (option string); uv_links : option (list string) }.

(** [update.validate({ id: parseInt(id), ...updateData })]. *)
Definition update (id : option Z) (updateData : UpdateInput) : Validated UpdateValue :=
  match Joi.integer "id" id with
  | Invalid d => Invalid d
  | Valid i =>
  match Joi.optional "title" 500 (Joi.notEmptyMsg "title")
          (Joi.tooLongMsg "title" "500") (u_title updateData) with
  | Invalid d => Invalid d
  | Valid t =>
  match Joi.nullableText "description" 10000 (u_description updateData) with
  | Invalid d => Invalid d
  | Valid de =>
  match u_links updateData with
  | None => Valid (mkUpdateValue i t de None)
  | Some l =>
      match linkArray l with
      | Valid l' => Valid (mkUpdateValue i t de (Some l'))
      | Invalid d => Invalid d
      end
  end end end end.
End Uri.

Record QueryInput : Type := mkQueryInput {
  page : option Z; limit : option Z; search : option string;
  hasLinks : option bool }.
Record QueryValue : Type := mkQueryValue {
  q_page : Z; q_limit : Z; q_search : option string; q_hasLinks : option bool }.

Definition query (options : QueryInput) : Validated QueryValue :=
  match Joi.bounded "page" 1 None 1 (page options) with
  | Invalid d => Invalid d
  | Valid p =>
  match Joi.bounded "limit" 1 (Some 100) 20 (limit options) with
  | Invalid d => Invalid d
  | Valid l =>
  match Joi.search 255 "255" (search options) with
  | Invalid d => Invalid d
  | Valid s => Valid (mkQueryValue p l s (hasLinks options))
  end end end.

End PostValidation.

(** ** Repositories ([src/repositories])

    Every method records that it was entered, then runs its body inside the
    method's [try]/[catch]. *)

(** [Math.ceil(total / limit)] for integers, [limit] finite and not zero.
    For a [total] below 2^53 the floating-point quotient lies on the same
    side of every integer as the exact one, so the ceiling is the exact
    one. *)
Definition ceilDiv (total limit : Z) : Z := - ((- total) / limit).

(** The object returned by [findAll]. *)
Record Page (A : Type) : Type := mkPage {
  items : list A;
  total : Z;
  page : Z;
  limit : Z;
  pages : Z }.
Arguments mkPage {A} _ _ _ _ _.
Arguments items {A} _.
Arguments total {A} _.
Arguments page {A} _.
Arguments limit {A} _.
Arguments pages {A} _.

(** [`%${search}%`]. *)
Definition searchPattern (search : string) : string := "%" ++ search ++ "%".

(** [if (search)]: a search option that is present and not empty. *)
Definition activeSearch (search : option string) : option string :=
  match search with
  | Some text => if JsString.truthy text then Some text else None
  | None => None
  end.

(** [Math.round(sum / count)] for [count > 0] and [sum >= 0]: the nearest
    integer, a tie going up.  For a [sum] below 2^52 the floating-point
    quotient lies on the same side of every half-integer as the exact one,
    so the rounding is the exact one. *)
Definition roundDiv (sum count : Z) : Z := (2 * sum + count) / (2 * count).

Module KeywordRepository.

(** The class defines [create], [findById], [update] and [delete], and no
    other method. *)

(** [{...existingKeyword, ...updateData}]. *)
Record Patch : Type := mkPatch { patch_id : option Z; patch_keyword : option string }.

Definition merge (existing : Keyword.Data) (updateData : Patch) : Keyword.Data :=
  Keyword.mkData
    (match patch_id updateData with Some i => Some i | None => Keyword.d_id existing end)
    (match patch_keyword updateData with Some k => Some k | None => Keyword.d_keyword existing end)
    (Keyword.d_createdAt existing) (Keyword.d_updatedAt existing).

Definition findById (db : Knex.Handle) (id : Z) : Async (option Keyword.t) :=
  emit (Call KeywordRepo "findById") ;;;
  wrap "Failed to find keyword by ID: "
    (Knex.table db ;;;
     row <- Knex.first Knex.keywordsTable (fun r => kw_id r =? id) ;;
     ret (Keyword.fromDatabase row)).

Definition create (db : Knex.Handle) (keywordData : Keyword.Data) : Async (option Keyword.t) :=
  emit (Call KeywordRepo "create") ;;;
  wrap "Failed to create keyword: "
    (let keyword := Keyword.new keywordData in
     let dataToInsert := Keyword.toDatabase keyword in
     (* delete dataToInsert.id, .created_at, .updated_at *)
     Knex.table db ;;;
     id <- Knex.insert Knex.keywordsTable
             (Schema.keywordViolation (Keyword.d_keyword dataToInsert))
             (fun id t => mkKeywordRow id (orEmptyString (Keyword.d_keyword dataToInsert)) t t) ;;
     findById db id).

Definition update (db : Knex.Handle) (id : Z) (updateData : Patch) : Async (option Keyword.t) :=
  emit (Call KeywordRepo "update") ;;;
  wrap "Failed to update keyword: "
    (existingKeyword <- findById db id ;;
     match existingKeyword with
     | None => ret None
     | Some existing =>
         let updatedKeyword := Keyword.new (merge (Keyword.spread existing) updateData) in
         let dataToUpdate := Keyword.toDatabase updatedKeyword in
         (* delete dataToUpdate.id, .created_at; dataToUpdate.updated_at = new Date() *)
         Knex.table db ;;;
         updatedCount <- Knex.update Knex.keywordsTable (fun r => kw_id r =? id)
             (Schema.keywordViolation (Keyword.d_keyword dataToUpdate))
             (fun t r => mkKeywordRow (kw_id r) (orEmptyString (Keyword.d_keyword dataToUpdate))
                                      (kw_created_at r) t) ;;
         if updatedCount =? 0 then ret None else findById db id
     end).

Definition delete (db : Knex.Handle) (id : Z) : Async bool :=
  emit (Call KeywordRepo "delete") ;;;
  wrap "Failed to delete keyword: "
    (Knex.table db ;;;
     deletedCount <- Knex.del Knex.keywordsTable (fun r => kw_id r =? id) ;;
     ret (0 <? deletedCount)).

End KeywordRepository.

Module SubredditRepository.

Record Patch : Type := mkPatch { patch_id : option Z; patch_name : option string }.

(** [{...existingSubreddit, ...updateData}]. *)
Definition merge (existing : Subreddit.Data) (updateData : Patch) : Subreddit.Data :=
  Subreddit.mkData
    (match patch_id updateData with Some i => Some i | None => Subreddit.d_id existing end)
    (match patch_name updateData with Some n => Some n | None => Subreddit.d_name existing end)
    (Subreddit.d_createdAt existing) (Subreddit.d_updatedAt existing).

Definition findById (db : Knex.Handle) (id : Z) : Async (option Subreddit.t) :=
  emit (Call SubredditRepo "findById") ;;;
  wrap "Failed to find subreddit by ID: "
    (Knex.table db ;;;
     row <- Knex.first Knex.subredditsTable (fun r => sr_id r =? id) ;;
     ret (Subreddit.fromDatabase row)).

Definition create (db : Knex.Handle) (subredditData : Subreddit.Data)
  : Async (option Subreddit.t) :=
  emit (Call SubredditRepo "create") ;;;
  wrap "Failed to create subreddit: "
    (let subreddit := Subreddit.new subredditData in
     let dataToInsert := Subreddit.toDatabase subreddit in
     (* delete dataToInsert.id, .created_at, .updated_at *)
     Knex.table db ;;;
     id <- Knex.insert Knex.subredditsTable
             (Schema.subredditViolation (Subreddit.d_name dataToInsert))
             (fun id t => mkSubredditRow id (orEmptyString (Subreddit.d_name dataToInsert)) t t) ;;
     findById db id).

Definition findByName (db : Knex.Handle) (name : string) : Async (option Subreddit.t) :=
  emit (Call SubredditRepo "findByName") ;;;
  wrap "Failed to find subreddit by name: "
    (Knex.table db ;;;
     row <- Knex.first Knex.subredditsTable (fun r => String.eqb (sr_name r) name) ;;
     ret (Subreddit.fromDatabase row)).

Definition nameAsc (a b : SubredditRow) : bool := String.leb (sr_name a) (sr_name b).

Definition searchByName (db : Knex.Handle) (searchText : string) (limit : Z)
  : Async (list Subreddit.t) :=
  emit (Call SubredditRepo "searchByName") ;;;
  wrap "Failed to search subreddits: "
    (Knex.table db ;;;
     matching <- Knex.select Knex.subredditsTable
                   (fun r => Sqlite.like (searchPattern searchText) (sr_name r)) ;;
     rows <- Knex.window (Knex.limitClause limit) None (Sqlite.orderBy nameAsc matching) ;;
     ret (map (fun row => Subreddit.new (Subreddit.ofRow row)) rows)).

(** The [where] clause shared by [query] and [countQuery]. *)
Definition matches (search : option string) (r : SubredditRow) : bool :=
  match activeSearch search with
  | Some text => Sqlite.like (searchPattern text) (sr_name r)
  | None => true
  end.

(** [findAll(options)], for a [page] and a [limit] that are integers:

      const [{ count }] = await countQuery.count('id as count');
      const total = parseInt(count);
      const offset = (page - 1) * limit;
      const rows = await query.orderBy('name', 'asc').limit(limit).offset(offset);
      const subreddits = rows.map(row => Subreddit.fromDatabase(row));
      return { subreddits, total, page: parseInt(page), limit: parseInt(limit),
               pages: Math.ceil(total / limit) };

    The count has run when [offset] refuses a negative value. *)
Definition findAll (db : Knex.Handle) (options : SubredditValidation.QueryValue)
  : Async (Page Subreddit.t) :=
  emit (Call SubredditRepo "findAll") ;;;
  wrap "Failed to find subreddits: "
    (let page := SubredditValidation.q_page options in
     let limit := SubredditValidation.q_limit options in
     let search := SubredditValidation.q_search options in
     Knex.table db ;;;
     Knex.table db ;;;
     total <- Knex.count Knex.subredditsTable (matches search) ;;
     let offset := Js.times (Js.minus page 1) limit in
     offsetClause <- Knex.offsetClause offset ;;
     matching <- Knex.select Knex.subredditsTable (matches search) ;;
     rows <- Knex.window (Knex.limitClause limit) offsetClause
               (Sqlite.orderBy nameAsc matching) ;;
     let subreddits := map (fun row => Subreddit.new (Subreddit.ofRow row)) rows in
     ret (mkPage subreddits total (Js.integerOf page) (Js.integerOf limit)
            (ceilDiv total limit))).

Definition exists_ (db : Knex.Handle) (name : string) : Async bool :=
  emit (Call SubredditRepo "exists") ;;;
  wrap "Failed to check subreddit existence: "
    (Knex.table db ;;;
     result <- Knex.first Knex.subredditsTable (fun r => String.eqb (sr_name r) name) ;;
     ret (match result with Some _ => true | None => false end)).

Definition update (db : Knex.Handle) (id : Z) (updateData : Patch)
  : Async (option Subreddit.t) :=
  emit (Call SubredditRepo "update") ;;;
  wrap "Failed to update subreddit: "
    (existingSubreddit <- findById db id ;;
     match existingSubreddit with
     | None => ret None
     | Some existing =>
         let updatedSubreddit := Subreddit.new (merge (Subreddit.spread existing) updateData) in
         let dataToUpdate := Subreddit.toDatabase updatedSubreddit in
         (* delete dataToUpdate.id, .created_at; dataToUpdate.updated_at = new Date() *)
         Knex.table db ;;;
         updatedCount <- Knex.update Knex.subredditsTable (fun r => sr_id r =? id)
             (Schema.subredditViolation (Subreddit.d_name dataToUpdate))
             (fun t r => mkSubredditRow (sr_id r) (orEmptyString (Subreddit.d_name dataToUpdate))
                                        (sr_created_at r) t) ;;
         if updatedCount =? 0 then ret None else findById db id
     end).

Definition delete (db : Knex.Handle) (id : Z) : Async bool :=
  emit (Call SubredditRepo "delete") ;;;
  wrap "Failed to delete subreddit: "
    (Knex.table db ;;;
     deletedCount <- Knex.del Knex.subredditsTable (fun r => sr_id r =? id) ;;
     ret (0 <? deletedCount)).

End SubredditRepository.

Module PostRepository.

(** The validated patch that [PostService.updatePost] passes on; for
    [description], [Some None] is an explicit [null]. *)
Record Patch : Type := mkPatch {
  patch_id : option Z;
  patch_title : option string;
  patch_description : option (option string);
  patch_links : option (list string) }.

(** [{...existingPost, ...updateData}]. *)
Definition merge (existing : Post.Data) (updateData : Patch) : Post.Data :=
  Post.mkData
    (match patch_id updateData with Some i => Some i | None => Post.d_id existing end)
    (match patch_title updateData with Some t => Some t | None => Post.d_title existing end)
    (match patch_description updateData with Some d => d | None => Post.d_description existing end)
    (match patch_links updateData with
     | Some l => JArray (map JString l)
     | None => Post.d_links existing
     end)
    (Post.d_createdAt existing) (Post.d_updatedAt existing).

Definition findById (db : Knex.Handle) (id : Z) : Async (option Post.t) :=
  emit (Call PostRepo "findById") ;;;
  wrap "Failed to find post by ID: "
    (Knex.table db ;;;
     row <- Knex.first Knex.postsTable (fun r => p_id r =? id) ;;
     ret (Post.fromDatabase row)).

Definition create (db : Knex.Handle) (postData : Post.Data) : Async (option Post.t) :=
  emit (Call PostRepo "create") ;;;
  wrap "Failed to create post: "
    (let post := Post.new postData in
     let dataToInsert := Post.toDatabase post in
     (* delete dataToInsert.id, .created_at, .updated_at *)
     Knex.table db ;;;
     id <- Knex.insert Knex.postsTable
             (Schema.postViolation (Some (Post.c_title dataToInsert)))
             (fun id t => mkPostRow id (Post.c_title dataToInsert)
                            (Post.c_description dataToInsert)
                            (Some (Post.c_links dataToInsert)) t t) ;;
     findById db id).

(** [whereNot('links', '[]').whereNotNull('links')]. *)
Definition withLinks (r : PostRow) : bool :=
  match p_links r with
  | Some text => negb (String.eqb text "[]")
  | None => false
  end.

(** [where('links', '[]').orWhereNull('links')]. *)
Definition withoutLinks (r : PostRow) : bool :=
  match p_links r with
  | Some text => String.eqb text "[]"
  | None => true
  end.

(** The [where] clauses shared by [query] and [countQuery]. *)
Definition matches (search : option string) (hasLinks : option bool) (r : PostRow) : bool :=
  (match activeSearch search with
   | Some text =>
       Sqlite.like (searchPattern text) (p_title r)
       || Sqlite.likeNullable (searchPattern text) (p_description r)
   | None => true
   end)
  &&
  (match hasLinks with
   | Some true => withLinks r
   | Some false => withoutLinks r
   | None => true
   end).

Definition createdDesc (a b : PostRow) : bool := p_created_at b <=? p_created_at a.

(** [findAll(options)], for a [page] and a [limit] that are integers:

      const [{ count }] = await countQuery.count('id as count');
      const total = parseInt(count);
      const offset = (page - 1) * limit;
      const rows = await query.orderBy('created_at', 'desc').limit(limit).offset(offset);
      const posts = rows.map(row => Post.fromDatabase(row));
      return { posts, total, page: parseInt(page), limit: parseInt(limit),
               pages: Math.ceil(total / limit) };

    The count has run when [offset] refuses a negative value.  The rows
    come from the index on [created_at], read backwards. *)
Definition findAll (db : Knex.Handle) (options : PostValidation.QueryValue)
  : Async (Page Post.t) :=
  emit (Call PostRepo "findAll") ;;;
  wrap "Failed to find posts: "
    (let page := PostValidation.q_page options in
     let limit := PostValidation.q_limit options in
     let search := PostValidation.q_search options in
     let hasLinks := PostValidation.q_hasLinks options in
     Knex.table db ;;;
     Knex.table db ;;;
     total <- Knex.count Knex.postsTable (matches search hasLinks) ;;
     let offset := Js.times (Js.minus page 1) limit in
     offsetClause <- Knex.offsetClause offset ;;
     matching <- Knex.select Knex.postsTable (matches search hasLinks) ;;
     rows <- Knex.window (Knex.limitClause limit) offsetClause
               (Sqlite.orderByIndexDesc createdDesc matching) ;;
     let posts := map (fun row => Post.new (Post.ofRow row)) rows in
     ret (mkPage posts total (Js.integerOf page) (Js.integerOf limit)
            (ceilDiv total limit))).

Definition update (db : Knex.Handle) (id : Z) (updateData : Patch) : Async (option Post.t) :=
  emit (Call PostRepo "update") ;;;
  wrap "Failed to update post: "
    (existingPost <- findById db id ;;
     match existingPost with
     | None => ret None
     | Some existing =>
         let updatedPost := Post.new (merge (Post.spread existing) updateData) in
         let dataToUpdate := Post.toDatabase updatedPost in
         (* delete dataToUpdate.id, .created_at; dataToUpdate.updated_at = new Date() *)
         Knex.table db ;;;
         updatedCount <- Knex.update Knex.postsTable (fun r => p_id r =? id)
             (Schema.postViolation (Some (Post.c_title dataToUpdate)))
             (fun t r => mkPostRow (p_id r) (Post.c_title dataToUpdate)
                           (Post.c_description dataToUpdate)
                           (Some (Post.c_links dataToUpdate)) (p_created_at r) t) ;;
         if updatedCount =? 0 then ret None else findById db id
     end).

Definition delete (db : Knex.Handle) (id : Z) : Async bool :=
  emit (Call PostRepo "delete") ;;;
  wrap "Failed to delete post: "
    (Knex.table db ;;;
     deletedCount <- Knex.del Knex.postsTable (fun r => p_id r =? id) ;;
     ret (0 <? deletedCount)).

Definition searchByText (db : Knex.Handle) (searchText : string) (limit : Z)
  : Async (list Post.t) :=
  emit (Call PostRepo "searchByText") ;;;
  wrap "Failed to search posts: "
    (Knex.table db ;;;
     matching <- Knex.select Knex.postsTable
                   (fun r => Sqlite.like (searchPattern searchText) (p_title r)
                             || Sqlite.likeNullable (searchPattern searchText) (p_description r)) ;;
     rows <- Knex.window (Knex.limitClause limit) None
               (Sqlite.orderByIndexDesc createdDesc matching) ;;
     ret (map (fun row => Post.new (Post.ofRow row)) rows)).

Definition existsByTitle (db : Knex.Handle) (title : string) : Async bool :=
  emit (Call PostRepo "existsByTitle") ;;;
  wrap "Failed to check post existence: "
    (Knex.table db ;;;
     result <- Knex.first Knex.postsTable (fun r => String.eqb (p_title r) title) ;;
     ret (match result with Some _ => true | None => false end)).


Definition findPostsWithLinks (db : Knex.Handle) : Async (list Post.t) :=
  emit (Call PostRepo "findPostsWithLinks") ;;;
  wrap "Failed to find posts with links: "
    (Knex.table db ;;;
     matching <- Knex.select Knex.postsTable withLinks ;;
     let rows := Sqlite.orderByIndexDesc createdDesc matching in
     ret (map (fun row => Post.new (Post.ofRow row)) rows)).

(** The object returned by [getStatistics]. *)
Record Statistics : Type := mkStatistics {
  totalPosts : Z;
  postsWithLinks : Z;
  postsWithoutLinks : Z;
  averageDescriptionLength : Z }.

(** [LENGTH(description)] of the rows whose description is not NULL. *)
Definition descriptionLengths (rows : list PostRow) : list Z :=
  flat_map (fun r => match p_description r with
                     | Some d => [Sqlite.length d]
                     | None => []
                     end) rows.

(** [getStatistics()]: one SELECT of three aggregates over the whole table,

      COUNT( * ) as total,
      COUNT(CASE WHEN links != "[]" AND links IS NOT NULL THEN 1 END) as with_links,
      AVG(LENGTH(description)) as avg_description_length

    (SQLite reads the double-quoted ["[]"] as a string, there being no such
    column), and then

      totalPosts: parseInt(stats.total),
      postsWithLinks: parseInt(stats.with_links || 0),
      postsWithoutLinks: parseInt(stats.total) - parseInt(stats.with_links || 0),
      averageDescriptionLength:
        Math.round(parseFloat(stats.avg_description_length || 0))
*)
Definition getStatistics (db : Knex.Handle) : Async Statistics :=
  emit (Call PostRepo "getStatistics") ;;;
  wrap "Failed to get statistics: "
    (Knex.table db ;;;
     all <- Knex.select Knex.postsTable (fun _ => true) ;;
     let total := Z.of_nat (List.length all) in
     let with_links := Z.of_nat (List.length (filter withLinks all)) in
     let avg_description_length := Sqlite.avg (descriptionLengths all) in
     ret (mkStatistics total with_links (total - with_links)
            (match avg_description_length with
             | Some (sum, count) => roundDiv sum count
             | None => 0
             end))).

End PostRepository.

(** ** Services ([src/services])

    [console.log] and [console.error] are not modelled; a property read
    inside a logged template literal is, because it throws on [null]. *)

(** [searchText.trim()] on an untyped argument. *)
Definition trimOf (expr : string) (v : JsValue) : Async string :=
  match v with
  | VString s => ret (JsString.trim s)
  | VUndefined =>
      throw TypeError ("Cannot read properties of undefined (reading 'trim')")
  | VNull =>
      throw TypeError ("Cannot read properties of null (reading 'trim')")
  | _ => notAFunction (expr ++ ".trim")
  end.

(** [limit = dflt] in a parameter list. *)
Definition defaultTo (dflt : Z) (limit : option Z) : Z :=
  match limit with
  | Some l => l
  | None => dflt
  end.

Module KeywordService.

(** [constructor() { this.keywordRepository = new KeywordRepository(); }]:
    the repository is built without a connection. *)
Definition db : Knex.Handle := None.

Definition createKeyword (keywordData : KeywordValidation.CreateInput)
  : Async (option Keyword.t) :=
  rethrow
    (value <- validate "Validation error: " (KeywordValidation.create keywordData) ;;
     let normalizedKeyword := JsString.trim (KeywordValidation.v_keyword value) in
     existingKeyword <- notAFunction (A := bool) "this.keywordRepository.exists" ;;
     if existingKeyword
     then throw DuplicateError ("Keyword '" ++ normalizedKeyword ++ "' already exists")
     else
       createdKeyword <- KeywordRepository.create db
                           (Keyword.mkData None (Some normalizedKeyword) None None) ;;
       ret createdKeyword).

Definition getAllKeywords (options : KeywordValidation.QueryInput)
  : Async (Page Keyword.t) :=
  rethrow
    (value <- validate "Query validation error: " (KeywordValidation.query options) ;;
     result <- notAFunction (A := Page Keyword.t) "this.keywordRepository.findAll" ;;
     ret result).

Definition getKeywordById (id : JsValue) : Async Keyword.t :=
  rethrow
    (match Js.truthy id, Js.parseInt id with   (* if (!id || isNaN(parseInt(id))) *)
     | true, Some n =>
         keyword <- KeywordRepository.findById db n ;;
         match keyword with
         | None => throw NotFoundError ("Keyword with ID " ++ Js.toString id ++ " not found")
         | Some k => ret k
         end
     | _, _ => throw InvalidIdError "Invalid keyword ID"
     end).

Definition updateKeyword (id : JsValue) (updateData : KeywordValidation.UpdateInput)
  : Async (option Keyword.t) :=
  rethrow
    (value <- validate "Validation error: "
                (KeywordValidation.update (Js.parseInt id) updateData) ;;
     (* [parseInt(id)] is the integer that was validated as [value.id] *)
     let n := KeywordValidation.uv_id value in
     existingKeyword <- KeywordRepository.findById db n ;;
     match existingKeyword with
     | None => throw NotFoundError ("Keyword with ID " ++ Js.toString id ++ " not found.")
     | Some existing =>
         keyword <-
           match KeywordValidation.uv_keyword value with
           | Some k =>
               if negb (String.eqb k (Keyword.keyword existing)) then
                 let normalizedKeyword := JsString.trim k in
                 duplicateExists <- notAFunction (A := bool) "this.keywordRepository.exists" ;;
                 if duplicateExists
                 then throw DuplicateError ("Keyword '" ++ normalizedKeyword ++ "' already exists")
                 else ret (Some normalizedKeyword)
               else ret (Some k)
           | None => ret None
           end ;;
         KeywordRepository.update db n (KeywordRepository.mkPatch (Some n) keyword)
     end).

(** Line 151 of the source ends in a colon, [throw new Error('Failed to
    delete keyword'):], where a semicolon is meant; it is read as one. *)
Definition deleteKeyword (id : JsValue) : Async bool :=
  rethrow
    (match Js.truthy id, Js.parseInt id with
     | true, Some n =>
         existingKeyword <- KeywordRepository.findById db n ;;
         match existingKeyword with
         | None => throw NotFoundError ("Keyword with ID " ++ Js.toString id ++ " not found")
         | Some _ =>
             deleted <- KeywordRepository.delete db n ;;
             if deleted then ret true
             else throw DeletionFailedError "Failed to delete keyword"
         end
     | _, _ => throw InvalidIdError "Invalid keyword ID"
     end).

Definition searchKeywords (searchText : JsValue) (limit : option Z)
  : Async (list Keyword.t) :=
  let limit := defaultTo 20 limit in
  rethrow
    (blank <- (if negb (Js.truthy searchText) then ret true
               else trimmed <- trimOf "searchText" searchText ;;
                    ret (Nat.eqb (String.length trimmed) 0)) ;;
     if blank then throw InvalidInputError "Search text is required"
     else
       trimmed <- trimOf "searchText" searchText ;;
       keywords <- notAFunction (A := list Keyword.t) "this.keywordRepository.searchByText" ;;
       ret keywords).

(** The statistics object is left abstract: the call never returns one. *)
Definition getStatistics : Async unit :=
  rethrow
    (stats <- notAFunction (A := unit) "this.keywordRepository.getStatistics" ;;
     ret stats).

End KeywordService.

Module SubredditService.

(** [constructor() { this.subredditRepository = new SubredditRepository(db); }]. *)
Definition db : Knex.Handle := Some Knex.connection.

Definition createSubreddit (subredditData : SubredditValidation.CreateInput)
  : Async Subreddit.t :=
  rethrow
    (value <- validate "Validation error: " (SubredditValidation.create subredditData) ;;
     let normalizedName :=
       let normalizedName :=
         JsString.toLowerCase (JsString.trim (SubredditValidation.v_name value)) in
       if JsString.startsWith normalizedName "r/"
       then JsString.replace normalizedName "r/" ""
       else normalizedName in
     existingName <- SubredditRepository.exists_ db normalizedName ;;
     if existingName
     then throw DuplicateError ("Subreddit " ++ normalizedName ++ " already exists")
     else
       createdSubreddit <- SubredditRepository.create db
                             (Subreddit.mkData None (Some normalizedName) None None) ;;
       match createdSubreddit with   (* `Created subreddit: ${createdSubreddit.name}` *)
       | None => throw TypeError "Cannot read properties of null (reading 'name')"
       | Some created => ret created
       end).

Definition getAllSubreddits (options : SubredditValidation.QueryInput)
  : Async (Page Subreddit.t) :=
  rethrow
    (value <- validate "Query validation error: " (SubredditValidation.query options) ;;
     result <- SubredditRepository.findAll db value ;;
     ret result).

Definition getSubredditById (id : JsValue) : Async Subreddit.t :=
  rethrow
    (match Js.truthy id, Js.parseInt id with   (* if (!id || isNaN(parseInt(id))) *)
     | true, Some n =>
         subreddit <- SubredditRepository.findById db n ;;
         match subreddit with
         | None => throw NotFoundError ("Subreddit with ID " ++ Js.toString id ++ " not found")
         | Some x => ret x
         end
     | _, _ => throw InvalidIdError "Invalid subreddit ID"
     end).

Definition getSubredditByName (name : string) : Async Subreddit.t :=
  rethrow
    (let normalizedName :=
       let normalizedName := JsString.toLowerCase (JsString.trim name) in
       if JsString.startsWith normalizedName "r/"
       then JsString.replace normalizedName "r/" ""
       else normalizedName in
     if negb (JsString.truthy normalizedName)
     then throw InvalidInputError "Invalid subreddit name"
     else
       existingSubreddit <- SubredditRepository.findByName db normalizedName ;;
       match existingSubreddit with
       | None => throw NotFoundError ("Subreddit with name '" ++ name ++ "' not found")
       | Some x => ret x
       end).

Definition updateSubreddit (id : JsValue) (updateData : SubredditValidation.UpdateInput)
  : Async (option Subreddit.t) :=
  rethrow
    (value <- validate "Validation error: "
                (SubredditValidation.update (Js.parseInt id) updateData) ;;
     (* [parseInt(id)] is the integer that was validated as [value.id] *)
     let n := SubredditValidation.uv_id value in
     existingSubreddit <- SubredditRepository.findById db n ;;
     match existingSubreddit with
     | None => throw NotFoundError ("Subreddit with ID " ++ Js.toString id ++ " not found.")
     | Some existing =>
         name <-
           match SubredditValidation.uv_name value with
           | Some v =>
               if negb (match Subreddit.name existing with
                        | Some stored => String.eqb v stored
                        | None => false
                        end)
               then
                 let normalizedName := JsString.trim v in
                 duplicate <- SubredditRepository.exists_ db normalizedName ;;
                 if duplicate
                 then throw DuplicateError ("Subreddit " ++ normalizedName ++ " already exists")
                 else ret (Some normalizedName)
               else ret (Some v)
           | None => ret None
           end ;;
         SubredditRepository.update db n (SubredditRepository.mkPatch (Some n) name)
     end).

Definition deleteSubreddit (id : JsValue) : Async bool :=
  rethrow
    (match Js.truthy id, Js.parseInt id with
     | true, Some n =>
         existingSubreddit <- SubredditRepository.findById db n ;;
         match existingSubreddit with
         | None => throw NotFoundError ("Subreddit with ID " ++ Js.toString id ++ " not found")
         | Some _ =>
             deleted <- SubredditRepository.delete db n ;;
             if deleted then ret true
             else throw DeletionFailedError "Failed to delete subreddit"
         end
     | _, _ => throw InvalidIdError "Invalid subreddit id"
     end).

(** The normalized text is computed before the emptiness test, so a missing
    [searchText] fails in [searchText.trim()].  [replace] is applied without
    the [startsWith] test.  [if (!result)] never fires: an array is truthy. *)
Definition searchSubreddits (searchText : JsValue) (limit : option Z)
  : Async (list Subreddit.t) :=
  let limit := defaultTo 50 limit in
  rethrow
    (trimmed <- trimOf "searchText" searchText ;;
     let normalizedText := JsString.replace (JsString.toLowerCase trimmed) "r/" "" in
     blank <- (if negb (Js.truthy searchText) then ret true
               else trimmed' <- trimOf "searchText" searchText ;;
                    ret (Nat.eqb (String.length trimmed') 0)) ;;
     if blank then throw InvalidInputError "Search text is required"
     else
       result <- SubredditRepository.searchByName db normalizedText limit ;;
       ret result).

(** [SubredditRepository] defines no [getStatistics]. *)
Definition getStatistics : Async unit :=
  rethrow
    (stats <- notAFunction (A := unit) "this.subredditRepository.getStatistics" ;;
     ret stats).

End SubredditService.

Module PostService.

(** [constructor() { this.postRepository = new PostRepository(db); }]. *)
Definition db : Knex.Handle := Some Knex.connection.

(** [value.description?.trim() || value.description]. *)
Definition trimDescription (description : option (option string)) : option string :=
  match description with
  | Some (Some s) => if JsString.truthy (JsString.trim s) then Some (JsString.trim s) else Some s
  | Some None | None => None
  end.

Section Uri.
Variable isUri : string -> bool.

Definition createPost (postData : PostValidation.CreateInput) : Async Post.t :=
  rethrow
    (value <- validate "Validation error: " (PostValidation.create isUri postData) ;;
     let normalizedTitle := JsString.trim (PostValidation.v_title value) in
     duplicateExists <- PostRepository.existsByTitle db normalizedTitle ;;
     if duplicateExists
     then throw DuplicateError "Duplicate post exists"
     else
       createdPost <- PostRepository.create db
                        (Post.mkData None
                           (Some (JsString.trim (PostValidation.v_title value)))
                           (trimDescription (PostValidation.v_description value))
                           (JArray (map JString (PostValidation.v_links value)))
                           None None) ;;
       match createdPost with   (* `Created Post: ${createdPost.id}` *)
       | None => throw TypeError "Cannot read properties of null (reading 'id')"
       | Some created => ret created
       end).

Definition updatePost (id : JsValue) (updateData : PostValidation.UpdateInput)
  : Async (option Post.t) :=
  rethrow
    (value <- validate "Validation error: "
                (PostValidation.update isUri (Js.parseInt id) updateData) ;;
     (* [parseInt(id)] is the integer that was validated as [value.id] *)
     let n := PostValidation.uv_id value in
     existingPost <- PostRepository.findById db n ;;
     match existingPost with
     | None => throw NotFoundError ("Post with ID " ++ Js.toString id ++ " not found.")
     | Some existing =>
         title <-
           match PostValidation.uv_title value with
           | Some v =>
               if negb (String.eqb v (Post.title existing)) then
                 let normalizedTitle := JsString.trim v in
                 duplicateExists <- PostRepository.existsByTitle db normalizedTitle ;;
                 if duplicateExists
                 then throw DuplicateError ("Post '" ++ normalizedTitle ++ "' already exists")
                 else ret (Some normalizedTitle)
               else ret (Some v)
           | None => ret None
           end ;;
         PostRepository.update db n
           (PostRepository.mkPatch (Some n) title
              (PostValidation.uv_description value) (PostValidation.uv_links value))
     end).
End Uri.

Definition getAllPosts (options : PostValidation.QueryInput) : Async (Page Post.t) :=
  rethrow
    (value <- validate "Query validation error: " (PostValidation.query options) ;;
     result <- PostRepository.findAll db value ;;
     ret result).

Definition getPostById (id : JsValue) : Async Post.t :=
  rethrow
    (match Js.truthy id, Js.parseInt id with   (* if (!id || isNaN(parseInt(id))) *)
     | true, Some n =>
         post <- PostRepository.findById db n ;;
         match post with
         | None => throw NotFoundError ("Post with ID " ++ Js.toString id ++ " not found")
         | Some x => ret x
         end
     | _, _ => throw InvalidIdError "Invalid post ID"
     end).

Definition deletePost (id : JsValue) : Async bool :=
  rethrow
    (match Js.truthy id, Js.parseInt id with
     | true, Some n =>
         existingPost <- PostRepository.findById db n ;;
         match existingPost with
         | None => throw NotFoundError ("Post with ID " ++ Js.toString id ++ " not found")
         | Some _ =>
             deleted <- PostRepository.delete db n ;;
             if deleted then ret true
             else throw DeletionFailedError "Failed to delete post"
         end
     | _, _ => throw InvalidIdError "Invalid post ID"
     end).

(** The emptiness test stands before the [try]. *)
Definition searchPosts (searchText : JsValue) (limit : option Z) : Async (list Post.t) :=
  let limit := defaultTo 20 limit in
  blank <- (if negb (Js.truthy searchText) then ret true
            else trimmed <- trimOf "searchText" searchText ;;
                 ret (Nat.leb (String.length trimmed) 0)) ;;
  if blank then throw InvalidInputError "Search text is required"
  else
    rethrow
      (searchText' <- trimOf "searchText" searchText ;;
       results <- PostRepository.searchByText db searchText' limit ;;
       ret results).

(** The class has a second method with the body of [getPostById], under
    the name [Id]. *)
Definition Id (id : JsValue) : Async Post.t :=
  rethrow
    (match Js.truthy id, Js.parseInt id with   (* if (!id || isNaN(parseInt(id))) *)
     | true, Some n =>
         post <- PostRepository.findById db n ;;
         match post with
         | None => throw NotFoundError ("Post with ID " ++ Js.toString id ++ " not found")
         | Some x => ret x
         end
     | _, _ => throw InvalidIdError "Invalid post ID"
     end).

Definition getPostsWithLinks : Async (list Post.t) :=
  rethrow
    (results <- PostRepository.findPostsWithLinks db ;;
     ret results).

Definition getStatistics : Async PostRepository.Statistics :=
  rethrow
    (results <- PostRepository.getStatistics db ;;
     ret results).

End PostService.

(** ** Vocabulary of the properties *)

(** The world after the events [evs] were recorded: same tables, same
    clock. *)
Definition logged (w : World) (evs : list Event) : World :=
  mkWorld (database w) (now w) (trace w ++ evs).

Definition subredditsOf (w : World) : Table SubredditRow := subreddits (database w).
Definition postsOf (w : World) : Table PostRow := posts (database w).

(** The row a lookup by id finds. *)
Definition subredditById (n : Z) (w : World) : option SubredditRow :=
  find (fun r => sr_id r =? n) (rows (subredditsOf w)).

Definition postById (n : Z) (w : World) : option PostRow :=
  find (fun r => p_id r =? n) (rows (postsOf w)).

(** A unique key that is in storage. *)
Definition subredditNamed (name : string) (w : World) : Prop :=
  exists row, In row (rows (subredditsOf w)) /\ sr_name row = name.

Definition postTitled (title : string) (w : World) : Prop :=
  exists row, In row (rows (postsOf w)) /\ p_title row = title.

(** The id the next insert receives. *)
Definition freshId {R} (ref : Knex.TableRef R) (t : Table R) : Z :=
  Z.max (seq t) (Knex.maxId ref (rows t)) + 1.

(** A string that does not begin with white space. *)
Definition headNotWhiteSpace (s : string) : bool :=
  match s with
  | EmptyString => true
  | String c _ => negb (JsString.isWhiteSpace c)
  end.

(** A string of white space only (the empty string included). *)
Fixpoint allWhiteSpace (s : string) : bool :=
  match s with
  | EmptyString => true
  | String c s' => JsString.isWhiteSpace c && allWhiteSpace s'
  end.

(** A search text that is missing, empty or white space only. *)
Definition blankSearchText (v : JsValue) : bool :=
  match v with
  | VUndefined | VNull => true
  | VString s => allWhiteSpace s
  | _ => false
  end.

Definition requiredText : Error := mkError InvalidInputError "Search text is required".

(** The TypeError of a call to a method the repository does not have. *)
Definition missingMethod (e : Error) (name : string) : Prop :=
  e = mkError TypeError ("this.keywordRepository." ++ name ++ " is not a function").

(** *** Numerals

    What [parseInt] needs of the string it reads. *)

(** A decimal digit. *)
Definition isDigit (c : ascii) : bool :=
  match Js.digitValue c with Some d => d <? 10 | None => false end.

Fixpoint allDigits (s : string) : bool :=
  match s with
  | EmptyString => true
  | String c rest => isDigit c && allDigits rest
  end.

(** The string does not go on with the [x] of a [0x] prefix. *)
Definition headNotX (s : string) : bool :=
  match s with
  | String c _ => negb (Ascii.eqb c "x") && negb (Ascii.eqb c "X")
  | EmptyString => true
  end.

(** Whether a string begins like a decimal numeral: with a digit that is not
    the [0] of a [0x] prefix. *)
Definition digitLed (s : string) : bool :=
  match s with
  | String c rest =>
      match Js.digitValue c with
      | Some d => (d <? 10) && negb (String.prefix "0x" s || String.prefix "0X" s)
      | None => false
      end
  | EmptyString => false
  end.


(** [m] fails with an error of kind [k]. *)
Definition failsWith {A} (k : ErrorKind) (m : Async A) (w : World) : Prop :=
  exists msg w', m w = (Rejected (mkError k msg), w').


(** [m] fails with a DuplicateError whose message names [value], and
    [repo.create] is not entered. *)
Definition duplicateNaming {A} (m : Async A) (repo : Repository) (value : string)
           (w : World) : Prop :=
  exists e w', m w = (Rejected e, w')
    /\ kind e = DuplicateError
    /\ JsString.includes (message e) value = true
    /\ ~ In (Call repo "create") (trace w').

(** A sequence of link strings as a JSON value. *)
Definition stringArray (l : list string) : Json := JArray (map JString l).

(** A [links] column that is NULL or what [Post.toDatabase] writes for a
    sequence of strings, and a world in which every column is. *)
Definition rowSerialized (row : PostRow) : Prop :=
  p_links row = None \/ exists l, p_links row = Some (JSON.stringify (stringArray l)).

Definition linksSerialized (w : World) : Prop :=
  forall row, In row (rows (postsOf w)) -> rowSerialized row.

(** A post whose [links] is a sequence of strings. *)
Definition postLinksSerialized (p : Post.t) : Prop :=
  exists l, Post.links p = stringArray l.

(** [m], started in a world that satisfies [P], ends in a world that
    satisfies [Q a] when it returns [a] and [E] when it throws. *)
Definition triple {A} (P : World -> Prop) (m : Async A)
           (Q : A -> World -> Prop) (E : World -> Prop) : Prop :=
  forall w, P w ->
    match m w with
    | (Resolved a, w') => Q a w'
    | (Rejected _, w') => E w'
    end.

(** [m] keeps [I]: it holds afterwards, whether [m] returns or throws. *)
Definition keeps {A} (I : World -> Prop) (m : Async A) : Prop :=
  triple I m (fun _ => I) I.

(** [getAllPosts({ hasLinks: true })] returns only posts with a non-empty
    [links] sequence. *)
Definition onlyPostsWithLinks (w : World) : Prop :=
  forall r w',
    PostService.getAllPosts (PostValidation.mkQueryInput None None None (Some true)) w
      = (Resolved r, w') ->
    forall post, In post (items r) -> Post.linksNonEmpty post = true.

(** The rows a [findAll] query matches, before ordering and paging, and the
    rows of the requested page. *)
Definition matchingPosts (options : PostValidation.QueryValue) (w : World) : list PostRow :=
  filter (PostRepository.matches (PostValidation.q_search options)
                                 (PostValidation.q_hasLinks options))
         (rows (postsOf w)).

Definition matchingSubreddits (options : SubredditValidation.QueryValue) (w : World)
  : list SubredditRow :=
  filter (SubredditRepository.matches (SubredditValidation.q_search options))
         (rows (subredditsOf w)).

(** The offset of a page: [(page - 1) * limit], as [findAll] computes
    it. *)
Definition offsetOf (page limit : Z) : Z := Js.times (Js.minus page 1) limit.

Definition postPage (options : PostValidation.QueryValue) (w : World) : list PostRow :=
  Sqlite.limit (PostValidation.q_limit options)
    (Sqlite.offset (offsetOf (PostValidation.q_page options) (PostValidation.q_limit options))
       (Sqlite.orderByIndexDesc PostRepository.createdDesc (matchingPosts options w))).

Definition subredditPage (options : SubredditValidation.QueryValue) (w : World)
  : list SubredditRow :=
  Sqlite.limit (SubredditValidation.q_limit options)
    (Sqlite.offset (offsetOf (SubredditValidation.q_page options)
                             (SubredditValidation.q_limit options))
       (Sqlite.orderBy SubredditRepository.nameAsc (matchingSubreddits options w))).

(** The pagination law for one returned page: [total] is the number of
    matching rows, [pages] is the least number of pages of [limit] rows
    that hold them, the page holds at most [limit] items, and a page whose
    offset lies at or beyond the matching rows is empty: the offset as
    [findAll] computes it, which for up to 2^53 matching rows is the exact
    product. *)
Definition paginated {A} (r : Page A) (matching page limit : Z) : Prop :=
  total r = matching /\
  (pages r - 1) * limit < total r <= pages r * limit /\
  Z.of_nat (List.length (items r)) <= limit /\
  (total r <= offsetOf page limit -> items r = []) /\
  (total r <= 2 ^ 53 -> total r <= (page - 1) * limit -> items r = []).

(** The page and the limit that the query schemas let through: safe
    integers, the page from 1 on and the limit from 1 to 100. *)
Definition inSchemaRange (page limit : Z) : Prop :=
  1 <= page <= Joi.MAX_SAFE_INTEGER /\ 1 <= limit <= 100.

(** ** Worlds used as examples *)

Definition emptyTable {R} : Table R := mkTable [] 0.

Definition emptyWorld : World :=
  mkWorld (mkDatabase emptyTable emptyTable emptyTable) 0 [].

(** One subreddit, [news]. *)
Definition newsWorld : World :=
  mkWorld (mkDatabase emptyTable (mkTable [mkSubredditRow 1 "news" 0 0] 1) emptyTable) 5 [].

(** One post titled [Deal], without links. *)
Definition dealWorld : World :=
  mkWorld (mkDatabase emptyTable emptyTable
             (mkTable [mkPostRow 1 "Deal" None (Some "[]") 0 0] 1)) 5 [].

(** One post whose [links] column holds the empty string. *)
Definition blankLinksWorld : World :=
  mkWorld (mkDatabase emptyTable emptyTable
             (mkTable [mkPostRow 1 "Deal" None (Some EmptyString) 0 0] 1)) 5 [].

(** Two posts, the first with one link and the second with none, as the
    repository writes them. *)
Definition linkedWorld : World :=
  mkWorld (mkDatabase emptyTable emptyTable
             (mkTable [mkPostRow 1 "Deal" None
                         (Some (JSON.stringify (stringArray ["https://a.example/x"]))) 0 0;
                       mkPostRow 2 "Talk" None (Some "[]") 1 1] 2)) 5 [].

(** Any string counts as a URI. *)
Definition anyUri (link : string) : bool := true.

(** ** Vocabulary of the further properties *)

(** The text [getPreviewText] shows: the description, or the title when
    there is no description. *)
Definition previewSource (x : Post.t) : string :=
  match orNullString (Post.description x) with
  | Some d => d
  | None => Post.title x
  end.

(** [s.endsWith(p)]. *)
Definition endsWith (s p : string) : bool :=
  String.eqb (JsString.drop (String.length s - String.length p) s) p.

(** The table of [ref] in a world, and the world with that table replaced
    and the events [evs] recorded. *)
Definition tableOf {R} (ref : Knex.TableRef R) (w : World) : Table R :=
  Knex.getTable ref (database w).

Definition withTable {R} (ref : Knex.TableRef R) (w : World) (t : Table R)
           (evs : list Event) : World :=
  mkWorld (Knex.setTable ref (database w) t) (now w) (trace w ++ evs).

(** The entities read from a sequence of rows. *)
Definition fromPostRows (page : list PostRow) : list Post.t :=
  map (fun row => Post.new (Post.ofRow row)) page.

Definition fromSubredditRows (page : list SubredditRow) : list Subreddit.t :=
  map (fun row => Subreddit.new (Subreddit.ofRow row)) page.

(** Rows in the order of [orderBy('created_at', 'desc')] and of
    [orderBy('name', 'asc')]. *)
Definition newestFirst (page : list PostRow) : Prop :=
  StronglySorted (fun a b => p_created_at b <= p_created_at a) page.

Definition byName (page : list SubredditRow) : Prop :=
  StronglySorted (fun a b => String.leb (sr_name a) (sr_name b) = true) page.

(** The items of a page that [findAll] returned. *)
Definition itemsOf {A} (result : Outcome (Page A) * World) : list A :=
  match fst result with
  | Resolved r => items r
  | Rejected _ => []
  end.

(** An event of reading: a repository method entered, or a SELECT. *)
Definition isRead (ev : Event) : bool :=
  match ev with
  | Call _ _ => true
  | Sql _ SELECT => true
  | Sql _ _ => false
  end.

(** [m] only reads: whether it returns or throws, the world afterwards is
    the world before with some events of reading recorded. *)
Definition readOnly {A} (m : Async A) : Prop :=
  forall w, exists evs, snd (m w) = logged w evs /\ forallb isRead evs = true.

(** A posts table as the post service leaves it: the ids are positive,
    distinct and not above the AUTOINCREMENT sequence, and no title is
    stored twice. *)
Definition wellFormedPosts (w : World) : Prop :=
  NoDup (map p_id (rows (postsOf w))) /\
  NoDup (map p_title (rows (postsOf w))) /\
  forall r, In r (rows (postsOf w)) -> 0 < p_id r <= seq (postsOf w).

(** A subreddits table as the subreddit service leaves it: the same for
    ids, no name is stored twice, and no name is empty. *)
Definition wellFormedSubreddits (w : World) : Prop :=
  NoDup (map sr_id (rows (subredditsOf w))) /\
  NoDup (map sr_name (rows (subredditsOf w))) /\
  forall r, In r (rows (subredditsOf w)) ->
            0 < sr_id r <= seq (subredditsOf w) /\ sr_name r <> "".

(** A writing operation of the post service with its arguments, and the
    world that a sequence of them leaves, whether they return or throw. *)
Inductive PostWrite : Type :=
| CreatePost (input : PostValidation.CreateInput)
| UpdatePost (id : JsValue) (patch : PostValidation.UpdateInput)
| DeletePost (id : JsValue).

Definition afterWrite (isUri : string -> bool) (w : World) (op : PostWrite) : World :=
  match op with
  | CreatePost input => snd (PostService.createPost isUri input w)
  | UpdatePost id patch => snd (PostService.updatePost isUri id patch w)
  | DeletePost id => snd (PostService.deletePost id w)
  end.

Definition afterWrites (isUri : string -> bool) (ops : list PostWrite) (w : World) : World :=
  fold_left (afterWrite isUri) ops w.





(** The keywords table, the row a lookup by id finds, and a keyword that is
    in storage. *)
Definition keywordsOf (w : World) : Table KeywordRow := keywords (database w).

Definition keywordById (n : Z) (w : World) : option KeywordRow :=
  find (fun r => kw_id r =? n) (rows (keywordsOf w)).

Definition keywordStored (keyword : string) (w : World) : Prop :=
  exists row, In row (rows (keywordsOf w)) /\ kw_keyword row = keyword.

(** A keyword repository built with the connection, as the other two
    services build theirs. *)
Definition connected : Knex.Handle := Some Knex.connection.

(** An event that is a repository method entered, not a statement. *)
Definition isCall (ev : Event) : bool :=
  match ev with
  | Call _ _ => true
  | Sql _ _ => false
  end.

(* ================================================================== *)
(** * Part II: properties                                              *)
(* ================================================================== *)

(** ** Numbers *)

Lemma nearest_small a : a < 2 ^ 53 -> Js.nearest a = a.
Proof. intros H. unfold Js.nearest. now destruct (Z.ltb_spec a (2 ^ 53)); [|lia]. Qed.

(** From 2^53 on, the nearest double is a 53-bit significand times the
    unit in the last place. *)
Lemma nearest_large a :
  2 ^ 53 <= a ->
  exists q, let e := Z.log2 a - 52 in
    1 <= e /\ 2 ^ 52 <= q <= 2 ^ 53 /\ Js.nearest a = q * 2 ^ e
    /\ a / 2 ^ e <= q <= a / 2 ^ e + 1.
Proof.
  intros Ha. unfold Js.nearest.
  destruct (Z.ltb_spec a (2 ^ 53)) as [|_]; [lia|].
  assert (Hpos : 0 < a) by (pose proof (Z.pow_pos_nonneg 2 53); lia).
  destruct (Z.log2_spec a Hpos) as [Hlo Hhi].
  assert (HL : 53 <= Z.log2 a) by (apply Z.log2_le_pow2; lia).
  set (e := Z.log2 a - 52) in *.
  assert (He : 1 <= e) by (unfold e; lia).
  assert (Hu : 0 < 2 ^ e) by (apply Z.pow_pos_nonneg; lia).
  assert (E1 : 2 ^ Z.log2 a = 2 ^ 52 * 2 ^ e).
  { rewrite <- Z.pow_add_r by lia. f_equal. unfold e. lia. }
  assert (E2 : 2 ^ Z.succ (Z.log2 a) = 2 ^ 53 * 2 ^ e).
  { rewrite <- Z.pow_add_r by lia. f_equal. unfold e. lia. }
  assert (Q1 : 2 ^ 52 <= a / 2 ^ e) by (apply Z.div_le_lower_bound; lia).
  assert (Q2 : a / 2 ^ e < 2 ^ 53) by (apply Z.div_lt_upper_bound; lia).
  cbv zeta. fold e.
  destruct (2 * (a mod 2 ^ e) <? 2 ^ e);
    [|destruct (2 ^ e <? 2 * (a mod 2 ^ e)); [|destruct (Z.even (a / 2 ^ e))]].
  all: eexists; split; [exact He|]; split; [|split; [reflexivity|]]; lia.
Qed.

Lemma nearest_ge a : 2 ^ 53 <= a -> 2 ^ 53 <= Js.nearest a.
Proof.
  intros H. destruct (nearest_large a H) as (q & He & Hq & -> & _).
  set (e := Z.log2 a - 52) in *.
  change (2 ^ 53) with (2 ^ 52 * 2 ^ 1).
  assert (2 ^ 1 <= 2 ^ e) by (apply Z.pow_le_mono_r; lia).
  assert (0 < 2 ^ e) by (apply Z.pow_pos_nonneg; lia). nia.
Qed.

Lemma nearest_nonneg a : 0 <= a -> 0 <= Js.nearest a.
Proof.
  intros Ha. destruct (Z.lt_ge_cases a (2 ^ 53)) as [H|H].
  - now rewrite nearest_small.
  - pose proof (nearest_ge a H). lia.
Qed.

Lemma nearest_idem a : 0 <= a -> Js.nearest (Js.nearest a) = Js.nearest a.
Proof.
  intros Ha. destruct (Z.lt_ge_cases a (2 ^ 53)) as [H|H].
  - rewrite !nearest_small; auto. now rewrite nearest_small.
  - pose proof (nearest_ge a H) as Hbig.
    destruct (nearest_large a H) as (q & He & Hq & E & _).
    set (e := Z.log2 a - 52) in *. rewrite E in *.
    assert (Hu : 0 < 2 ^ e) by (apply Z.pow_pos_nonneg; lia).
    unfold Js.nearest at 1.
    destruct (Z.ltb_spec (q * 2 ^ e) (2 ^ 53)) as [|_]; [lia|].
    assert (Hq0 : 0 < q) by lia.
    rewrite (Z.log2_mul_pow2 q e Hq0) by lia.
    destruct (Z.eq_dec q (2 ^ 53)) as [->|Hne].
    + change (Z.log2 (2 ^ 53)) with 53.
      replace (e + 53 - 52) with (e + 1) by lia.
      replace (2 ^ 53 * 2 ^ e) with (2 ^ 52 * 2 ^ (e + 1))
        by (rewrite Z.pow_add_r by lia; change (2 ^ 53) with (2 ^ 52 * 2 ^ 1); lia).
      assert (Hu' : 0 < 2 ^ (e + 1)) by (apply Z.pow_pos_nonneg; lia).
      rewrite Z.div_mul, Z.mod_mul by lia. cbv zeta.
      destruct (Z.ltb_spec (2 * 0) (2 ^ (e + 1))); [reflexivity | lia].
    + assert (HL : Z.log2 q = 52).
      { apply Z.log2_unique; [lia|]. change (Z.succ 52) with 53. lia. }
      rewrite HL. replace (e + 52 - 52) with e by lia.
      rewrite Z.div_mul, Z.mod_mul by lia. cbv zeta.
      destruct (Z.ltb_spec (2 * 0) (2 ^ e)); [reflexivity | lia].
Qed.

(** Rounding does not cross a power of two. *)
Lemma nearest_le_pow2 a k : 0 <= a <= 2 ^ k -> 53 <= k -> Js.nearest a <= 2 ^ k.
Proof.
  intros Ha Hk. destruct (Z.lt_ge_cases a (2 ^ 53)) as [H|H].
  - rewrite nearest_small; lia.
  - assert (Hpos : 0 < a) by (pose proof (Z.pow_pos_nonneg 2 53); lia).
    destruct (Z.le_gt_cases (2 ^ k) a) as [Hk'|Hk'].
    + assert (a = 2 ^ k) by lia. subst a.
      unfold Js.nearest. destruct (Z.ltb_spec (2 ^ k) (2 ^ 53)) as [|_]; [lia|].
      rewrite Z.log2_pow2 by lia. cbv zeta.
      assert (Hu : 0 < 2 ^ (k - 52)) by (apply Z.pow_pos_nonneg; lia).
      replace (2 ^ k) with (2 ^ 52 * 2 ^ (k - 52))
        by (rewrite <- Z.pow_add_r by lia; f_equal; lia).
      rewrite Z.div_mul, Z.mod_mul by lia.
      destruct (Z.ltb_spec (2 * 0) (2 ^ (k - 52))); lia.
    + destruct (nearest_large a H) as (q & He & Hq & -> & _).
      set (e := Z.log2 a - 52) in *.
      assert (HL : Z.log2 a < k) by (apply Z.log2_lt_pow2; lia).
      assert (Hu : 0 < 2 ^ e) by (apply Z.pow_pos_nonneg; lia).
      assert (E : 2 ^ 53 * 2 ^ e = 2 ^ (Z.log2 a + 1)).
      { rewrite <- Z.pow_add_r by lia. f_equal. unfold e. lia. }
      assert (2 ^ (Z.log2 a + 1) <= 2 ^ k) by (apply Z.pow_le_mono_r; lia).
      nia.
Qed.

(** A number is less than twice its nearest double. *)
Lemma nearest_half a : 0 <= a -> a <= 2 * Js.nearest a.
Proof.
  intros Ha. destruct (Z.lt_ge_cases a (2 ^ 53)) as [H|H].
  - rewrite nearest_small; lia.
  - destruct (nearest_large a H) as (q & He & Hq & -> & Hq').
    set (e := Z.log2 a - 52) in *.
    assert (Hu : 0 < 2 ^ e) by (apply Z.pow_pos_nonneg; lia).
    pose proof (Z.div_mod a (2 ^ e) ltac:(lia)).
    pose proof (Z.mod_pos_bound a (2 ^ e) Hu).
    assert (1 <= a / 2 ^ e) by lia. nia.
Qed.

Lemma nearest_zero a : 0 <= a -> Js.nearest a = 0 -> a = 0.
Proof. intros Ha H. pose proof (nearest_half a Ha). lia. Qed.

Lemma number_safe z : Z.abs z < 2 ^ 53 -> Js.number z = z.
Proof.
  intros H. unfold Js.number. rewrite nearest_small by exact H.
  destruct z; cbn; lia.
Qed.

Lemma number_nonneg z : 0 <= z -> Js.number z = Js.nearest z.
Proof.
  intros H. unfold Js.number. rewrite Z.abs_eq by exact H.
  destruct (Z.eq_dec z 0) as [->|]; [reflexivity|].
  rewrite Z.sgn_pos by lia. lia.
Qed.

Lemma isInfinite_small z : Z.abs z <= 2 ^ 64 -> Js.isInfinite z = false.
Proof.
  intros H. unfold Js.isInfinite. apply Z.leb_gt.
  assert (2 ^ 64 < 2 ^ 1024 - 2 ^ 970) by reflexivity. lia.
Qed.

(** The shortest numeral of a double denotes that double. *)
Lemma shortestFrom_reads_back fuel k a :
  Js.nearest a = a -> Js.nearest (Js.shortestFrom fuel k a) = a.
Proof.
  intros Ha. revert k. induction fuel as [|fuel IH]; intros k; cbn [Js.shortestFrom].
  - exact Ha.
  - cbv zeta.
    destruct (Z.eqb_spec (Js.nearest (a / 10 ^ (Js.digits a - k) * 10 ^ (Js.digits a - k))) a)
      as [E1|_].
    + destruct (Z.eqb_spec (Js.nearest (a / 10 ^ (Js.digits a - k) * 10 ^ (Js.digits a - k)
                                         + 10 ^ (Js.digits a - k))) a) as [E2|_]; cbn [andb].
      * destruct (_ <? _); assumption.
      * exact E1.
    + destruct (Z.eqb_spec (Js.nearest (a / 10 ^ (Js.digits a - k) * 10 ^ (Js.digits a - k)
                                         + 10 ^ (Js.digits a - k))) a) as [E2|_].
      * exact E2.
      * apply IH.
Qed.

Lemma shortest_reads_back a : Js.nearest a = a -> Js.nearest (Js.shortest a) = a.
Proof.
  intros Ha. unfold Js.shortest. destruct (a <? 2 ^ 53); [exact Ha|].
  now apply shortestFrom_reads_back.
Qed.

Lemma shortestFrom_nonneg fuel k a : 0 <= a -> 0 <= Js.shortestFrom fuel k a.
Proof.
  intros Ha. revert k. induction fuel as [|fuel IH]; intros k; cbn [Js.shortestFrom].
  - exact Ha.
  - cbv zeta.
    assert (Hu : 0 <= 10 ^ (Js.digits a - k)) by (apply Z.pow_nonneg; lia).
    assert (Hb : 0 <= a / 10 ^ (Js.digits a - k) * 10 ^ (Js.digits a - k)).
    { apply Z.mul_nonneg_nonneg; [|exact Hu]. now apply Z_div_nonneg_nonneg. }
    repeat match goal with |- context [if ?c then _ else _] => destruct c end;
      try lia; apply IH.
Qed.

Lemma shortest_nonneg a : 0 <= a -> 0 <= Js.shortest a.
Proof.
  intros Ha. unfold Js.shortest. destruct (a <? 2 ^ 53); [exact Ha|].
  now apply shortestFrom_nonneg.
Qed.

(** *** Numerals read back *)

Lemma readDigits_acc d acc :
  Js.readDigits 10 (NilEmpty.string_of_uint d) (Some (Z.pos acc))
  = Some (Z.pos (Pos.of_uint_acc d acc)).
Proof.
  revert acc. induction d; intros acc; cbn [NilEmpty.string_of_uint Pos.of_uint_acc];
    [reflexivity|..];
    (cbn [Js.readDigits]; match goal with |- context [Js.digitValue ?c] =>
       let v := eval vm_compute in (Js.digitValue c) in change (Js.digitValue c) with v end;
     cbv iota beta; match goal with |- context [?k <? 10] =>
       change (k <? 10) with true end; cbv iota;
     rewrite <- IHd; f_equal; f_equal; lia).
Qed.

Lemma readDigits_zero d :
  Js.readDigits 10 (NilEmpty.string_of_uint d) (Some 0) = Some (Z.of_N (Pos.of_uint d)).
Proof.
  induction d; cbn [NilEmpty.string_of_uint Pos.of_uint]; [reflexivity|..];
    cbn [Js.readDigits]; match goal with |- context [Js.digitValue ?c] =>
       let v := eval vm_compute in (Js.digitValue c) in change (Js.digitValue c) with v end;
    cbv iota beta; match goal with |- context [?k <? 10] =>
       change (k <? 10) with true end; cbv iota;
    [exact IHd | apply (readDigits_acc d) ..].
Qed.

Lemma readDigits_numeral d :
  d <> Decimal.Nil ->
  Js.readDigits 10 (NilEmpty.string_of_uint d) None = Some (Z.of_N (Pos.of_uint d)).
Proof.
  intros Hd. destruct d; [now destruct Hd|..];
    cbn [NilEmpty.string_of_uint Pos.of_uint];
    cbn [Js.readDigits]; match goal with |- context [Js.digitValue ?c] =>
       let v := eval vm_compute in (Js.digitValue c) in change (Js.digitValue c) with v end;
    cbv iota beta; match goal with |- context [?k <? 10] =>
       change (k <? 10) with true end; cbv iota;
    [apply readDigits_zero | apply (readDigits_acc d) ..].
Qed.

Lemma parseIntString_digits d :
  d <> Decimal.Nil ->
  Js.parseIntString (NilEmpty.string_of_uint d)
  = Js.readDigits 10 (NilEmpty.string_of_uint d) None.
Proof.
  intros Hd. destruct d as [|d|d|d|d|d|d|d|d|d|d]; [now destruct Hd|..].
  1: destruct d.
  all: unfold Js.parseIntString; cbn [NilEmpty.string_of_uint];
    match goal with |- context [JsString.trimStart ?s] =>
      change (JsString.trimStart s) with s end;
    cbv iota beta;
    match goal with |- context [String.prefix "0x" ?s || String.prefix "0X" ?s] =>
      change (String.prefix "0x" s || String.prefix "0X" s) with false end;
    cbv iota beta;
    match goal with |- option_map (Z.mul 1) ?x = _ =>
      destruct x as [v|]; cbn [option_map]; [|reflexivity] end;
    f_equal; apply Z.mul_1_l.
Qed.

Lemma parseIntString_positive p :
  Js.parseIntString (Js.Z_to_string (Z.pos p)) = Some (Z.pos p).
Proof.
  unfold Js.Z_to_string. cbn [Z.to_int NilEmpty.string_of_int].
  rewrite parseIntString_digits by apply DecimalPos.Unsigned.to_uint_nonnil.
  rewrite readDigits_numeral by apply DecimalPos.Unsigned.to_uint_nonnil.
  now rewrite DecimalPos.Unsigned.of_to.
Qed.

(** The decimal numeral of an integer reads back as that integer. *)
Lemma parseIntString_numeral n : Js.parseIntString (Js.Z_to_string n) = Some n.
Proof.
  destruct n as [|p|p].
  - reflexivity.
  - apply parseIntString_positive.
  - pose proof (parseIntString_positive p) as H.
    unfold Js.Z_to_string in *. cbn [Z.to_int NilEmpty.string_of_int] in *.
    rewrite parseIntString_digits in H by apply DecimalPos.Unsigned.to_uint_nonnil.
    unfold Js.parseIntString.
    change (JsString.trimStart (String "-" ?s)) with (String "-" s).
    cbv iota beta.
    assert (P : forall d, d <> Decimal.Nil ->
                String.prefix "0x" (NilEmpty.string_of_uint d)
                || String.prefix "0X" (NilEmpty.string_of_uint d) = false).
    { intros d Hd. destruct d as [|d|d|d|d|d|d|d|d|d|d]; [now destruct Hd|..];
        try reflexivity. destruct d; reflexivity. }
    rewrite P by apply DecimalPos.Unsigned.to_uint_nonnil. cbv iota beta.
    rewrite H. reflexivity.
Qed.

Lemma Z_to_string_neg v : 0 < v -> String "-" (Js.Z_to_string v) = Js.Z_to_string (- v).
Proof. intros H. destruct v; try lia. reflexivity. Qed.

(** [parseInt] of a Number up to 2^62 in magnitude is that Number. *)
Lemma parseInt_number n : Z.abs n <= 2 ^ 62 -> Js.parseInt (VNumber n) = Some (Js.number n).
Proof.
  intros Hn. unfold Js.parseInt, Js.toString, Js.numberToString.
  rewrite isInfinite_small by (assert (2 ^ 62 <= 2 ^ 64) by (vm_compute; discriminate); lia).
  set (a := Js.nearest (Z.abs n)).
  assert (Ha0 : 0 <= a) by (apply nearest_nonneg; lia).
  assert (Ha : Js.nearest a = a) by (apply nearest_idem; lia).
  assert (Hle : a <= 2 ^ 62) by (apply nearest_le_pow2; lia).
  set (v := Js.shortest a).
  assert (Hv0 : 0 <= v) by now apply shortest_nonneg.
  assert (Hv : Js.nearest v = a) by now apply shortest_reads_back.
  pose proof (nearest_half v Hv0) as Hh. rewrite Hv in Hh.
  assert (Hs : (v <? 10 ^ 21) = true).
  { apply Z.ltb_lt. assert (2 * 2 ^ 62 < 10 ^ 21) by reflexivity. lia. }
  rewrite Hs. unfold Js.signed, Js.number. fold a.
  destruct (Z.ltb_spec n 0) as [Hneg|Hpos].
  - assert (a <> 0).
    { intros E. apply nearest_zero in E; lia. }
    assert (0 < v).
    { destruct (Z.eq_dec v 0) as [E|]; [|lia]. rewrite E in Hv. cbn in Hv. lia. }
    change ("-" ++ Js.Z_to_string v) with (String "-" (Js.Z_to_string v)).
    rewrite Z_to_string_neg, parseIntString_numeral by assumption.
    cbn [option_map]. unfold Js.number. rewrite Z.abs_opp, (Z.abs_eq v) by lia.
    rewrite Hv, Z.sgn_neg, Z.sgn_neg by lia. reflexivity.
  - rewrite parseIntString_numeral. cbn [option_map].
    unfold Js.number. rewrite (Z.abs_eq v), Hv by lia.
    destruct (Z.eq_dec n 0) as [->|Hn0].
    + assert (v = 0) by (subst v a; reflexivity). subst. reflexivity.
    + assert (a <> 0).
      { intros E. apply nearest_zero in E; lia. }
      assert (0 < v).
      { destruct (Z.eq_dec v 0) as [E|]; [|lia]. rewrite E in Hv. cbn in Hv. lia. }
      rewrite !Z.sgn_pos by lia. reflexivity.
Qed.

(** A safe integer reads back as itself. *)
Lemma parseInt_safe n : Z.abs n < 2 ^ 53 -> Js.parseInt (VNumber n) = Some n.
Proof.
  intros H. rewrite parseInt_number, number_safe; auto.
  assert (2 ^ 53 <= 2 ^ 62) by (vm_compute; discriminate). lia.
Qed.

Lemma integerOf_safe n : Z.abs n < 2 ^ 53 -> Js.integerOf n = n.
Proof. intros H. unfold Js.integerOf. now rewrite parseInt_safe. Qed.

Lemma toString_safe n : Z.abs n < 2 ^ 53 -> Js.toString (VNumber n) = Js.Z_to_string n.
Proof.
  intros H. unfold Js.toString, Js.numberToString.
  rewrite isInfinite_small by (assert (2 ^ 53 <= 2 ^ 64) by (vm_compute; discriminate); lia).
  rewrite nearest_small by exact H.
  unfold Js.shortest. destruct (Z.ltb_spec (Z.abs n) (2 ^ 53)) as [_|]; [|lia].
  assert (Hs : (Z.abs n <? 10 ^ 21) = true).
  { apply Z.ltb_lt. assert (2 ^ 53 < 10 ^ 21) by reflexivity. lia. }
  rewrite Hs. unfold Js.signed. destruct n; reflexivity.
Qed.

Lemma readDigits_some R s a : exists b, Js.readDigits R s (Some a) = Some b.
Proof.
  revert a; induction s as [|c s IH]; intros a; cbn [Js.readDigits]; [now exists a|].
  destruct (Js.digitValue c) as [d|]; [|now exists a].
  destruct (d <? R); [apply IH | now exists a].
Qed.

Lemma parseIntString_digitLed s negative :
  digitLed s = true -> Js.parseIntString (Js.signed negative s) <> None.
Proof.
  destruct s as [|c rest]; [discriminate|]. unfold digitLed.
  destruct (Js.digitValue c) as [d|] eqn:D; [|discriminate].
  intros H. apply andb_prop in H as [Hd Hx]. apply negb_true_iff in Hx.
  assert (T : JsString.trimStart (String c rest) = String c rest
              /\ c <> "-"%char /\ c <> "+"%char).
  { destruct c as [[] [] [] [] [] [] [] []]; try discriminate D;
      repeat split; try reflexivity; discriminate. }
  destruct T as (T & Tm & Tp).
  assert (P : Js.parseIntString (String c rest) <> None).
  { unfold Js.parseIntString. rewrite T.
    destruct c as [[] [] [] [] [] [] [] []]; try discriminate D;
      try (now destruct Tm); try (now destruct Tp);
      cbv iota beta; rewrite Hx; cbv iota beta; cbn [Js.readDigits]; rewrite D;
      cbv iota beta; rewrite Hd;
      destruct (readDigits_some 10 rest d) as [b ->]; discriminate. }
  destruct negative; cbn [Js.signed]; [|exact P].
  change ("-" ++ String c rest) with (String "-" (String c rest)).
  unfold Js.parseIntString.
  change (JsString.trimStart (String "-" ?x)) with (String "-" x). cbv iota beta.
  rewrite Hx. cbv iota beta. cbn [Js.readDigits]. rewrite D. cbv iota beta. rewrite Hd.
  destruct (readDigits_some 10 rest d) as [b ->]. discriminate.
Qed.

Lemma digitLed_intro c rest :
  isDigit c = true -> headNotX rest = true -> digitLed (String c rest) = true.
Proof.
  unfold isDigit, digitLed. destruct (Js.digitValue c) as [d|]; [|discriminate].
  intros ->. cbn [andb]. intros H. apply negb_true_iff.
  destruct rest as [|c2 rest].
  - cbn [String.prefix]. now destruct (ascii_dec "0"%char c).
  - cbn [headNotX] in H. apply andb_prop in H as [H1 H2].
    apply negb_true_iff in H1, H2. apply Ascii.eqb_neq in H1, H2.
    cbn [String.prefix]. destruct (ascii_dec "0"%char c); [|reflexivity].
    destruct (ascii_dec "x"%char c2) as [E|_]; [now destruct H1|].
    destruct (ascii_dec "X"%char c2) as [E|_]; [now destruct H2|]. reflexivity.
Qed.

Lemma isDigit_headNotX c rest : isDigit c = true -> headNotX (String c rest) = true.
Proof. destruct c as [[] [] [] [] [] [] [] []]; try discriminate; reflexivity. Qed.

Lemma allDigits_headNotX s : allDigits s = true -> headNotX s = true.
Proof.
  destruct s as [|c rest]; [reflexivity|]. cbn [allDigits]. intros H.
  apply andb_prop in H as [H _]. now apply isDigit_headNotX.
Qed.

Lemma allDigits_digitLed s : s <> "" -> allDigits s = true -> digitLed s = true.
Proof.
  destruct s as [|c rest]; [congruence|]. intros _ H. cbn [allDigits] in H.
  apply andb_prop in H as [H1 H2]. apply digitLed_intro; [exact H1|].
  now apply allDigits_headNotX.
Qed.

Lemma allDigits_uint d : allDigits (NilEmpty.string_of_uint d) = true.
Proof. induction d; cbn [NilEmpty.string_of_uint allDigits]; [reflexivity|..]; exact IHd. Qed.

Lemma allDigits_Z_to_string v : 0 <= v -> allDigits (Js.Z_to_string v) = true.
Proof.
  intros H. destruct v as [|p|p]; [reflexivity | | lia]. apply allDigits_uint.
Qed.

Lemma Z_to_string_nonempty v : 0 <= v -> Js.Z_to_string v <> "".
Proof.
  intros H. destruct v as [|p|p]; [discriminate | | lia].
  unfold Js.Z_to_string. cbn [Z.to_int NilEmpty.string_of_int].
  pose proof (DecimalPos.Unsigned.to_uint_nonnil p) as N.
  destruct (Pos.to_uint p); [now destruct N|..]; discriminate.
Qed.

(** The numeral of a positive integer has no leading zero. *)
Lemma Z_to_string_head p :
  exists c rest, Js.Z_to_string (Z.pos p) = String c rest /\ c <> "0"%char.
Proof.
  unfold Js.Z_to_string. cbn [Z.to_int NilEmpty.string_of_int].
  pose proof (DecimalPos.Unsigned.to_uint_nonnil p) as N.
  pose proof (DecimalPos.Unsigned.to_uint_nonzero p) as Z0.
  assert (U : Decimal.unorm (Pos.to_uint p) = Pos.to_uint p).
  { rewrite <- (DecimalPos.Unsigned.to_of (Pos.to_uint p)), DecimalPos.Unsigned.of_to.
    reflexivity. }
  destruct (Pos.to_uint p) as [|d|d|d|d|d|d|d|d|d|d]; [now destruct N|..];
    cbn [NilEmpty.string_of_uint]; try (do 2 eexists; split; [reflexivity | discriminate]).
  exfalso. rewrite DecimalFacts.unorm_D0 in U.
  destruct d as [|d|d|d|d|d|d|d|d|d|d]; [now destruct Z0|..];
    match goal with U : Decimal.unorm ?u = _ |- _ =>
      assert (L : (Decimal.nb_digits (Decimal.unorm u) <= Decimal.nb_digits u)%nat)
        by (apply DecimalFacts.nb_digits_unorm; discriminate);
      rewrite U in L; cbn [Decimal.nb_digits] in L; lia
    end.
Qed.

Lemma stripZeros_head c rest :
  c <> "0"%char -> exists rest', Js.stripZeros (String c rest) = String c rest'.
Proof.
  intros H. cbn [Js.stripZeros]. destruct (Js.stripZeros rest) as [|c' r'].
  - destruct (Ascii.eqb_spec c "0"); [contradiction|]. now eexists.
  - now eexists.
Qed.

Lemma allDigits_stripZeros s : allDigits s = true -> allDigits (Js.stripZeros s) = true.
Proof.
  induction s as [|c s IH]; [reflexivity|]. cbn [allDigits Js.stripZeros]. intros H.
  apply andb_prop in H as [H1 H2]. specialize (IH H2).
  destruct (Js.stripZeros s) as [|c' r'].
  - destruct (Ascii.eqb c "0"); [reflexivity|]. cbn [allDigits]. now rewrite H1.
  - cbn [allDigits] in *. now rewrite H1, IH.
Qed.

Lemma allDigits_app s t : allDigits s = true -> allDigits t = true -> allDigits (s ++ t) = true.
Proof.
  induction s as [|c s IH]; [auto|]. cbn [allDigits append]. intros H Ht.
  apply andb_prop in H as [H1 H2]. rewrite H1. now apply IH.
Qed.

Lemma allDigits_zeros n : allDigits (Js.zeros n) = true.
Proof. induction n; [reflexivity | exact IHn]. Qed.

(** Every numeral that Number::toString prints begins with a digit. *)
Lemma digitLed_numeral s n :
  s <> "" -> allDigits s = true -> digitLed (Js.numeral s n) = true.
Proof.
  intros Hs Ha. unfold Js.numeral. cbv zeta.
  destruct s as [|c rest]; [congruence|].
  pose proof Ha as Ha'. cbn [allDigits] in Ha'. apply andb_prop in Ha' as [Hc Hr].
  destruct ((-5 <=? n) && (n <=? 21)).
  - destruct (_ <=? n).
    + apply allDigits_digitLed; [discriminate|].
      apply allDigits_app; [exact Ha | apply allDigits_zeros].
    + destruct (Z.ltb_spec 0 n) as [Hn|Hn].
      * destruct (Z.to_nat n) as [|m] eqn:E; [lia|].
        cbn [JsString.take JsString.drop append]. apply digitLed_intro; [exact Hc|].
        destruct rest as [|c2 r2]; destruct m; try reflexivity.
        cbn [JsString.take append]. cbn [allDigits] in Hr.
        apply andb_prop in Hr as [Hr _]. now apply (isDigit_headNotX c2).
      * reflexivity.
  - destruct rest; apply digitLed_intro; try exact Hc; reflexivity.
Qed.

(** So [parseInt] reads an integer from every finite Number: [NaN] and the
    two infinities are the only Numbers it makes nothing of. *)
Lemma parseInt_finite :
  (forall n, Js.isInfinite n = false -> Js.parseInt (VNumber n) <> None) /\
  (forall s e, Js.parseInt (VFraction s e) <> None).
Proof.
  assert (M : forall x, option_map Js.number x <> None <-> x <> None).
  { intros [x|]; cbn; split; congruence. }
  split.
  - intros n Hn. unfold Js.parseInt. apply M. unfold Js.toString, Js.numberToString.
    rewrite Hn. cbv zeta. set (v := Js.shortest _).
    assert (Hv : 0 <= v) by (apply shortest_nonneg, nearest_nonneg; lia).
    apply parseIntString_digitLed.
    destruct (v <? 10 ^ 21) eqn:E.
    + apply allDigits_digitLed;
        [now apply Z_to_string_nonempty | now apply allDigits_Z_to_string].
    + apply Z.ltb_ge in E. destruct v as [|p|p]; try lia.
      destruct (Z_to_string_head p) as (c & rest & Es & Hc).
      apply digitLed_numeral.
      * rewrite Es. destruct (stripZeros_head c rest Hc) as [r' ->]. discriminate.
      * apply allDigits_stripZeros. apply allDigits_Z_to_string. lia.
  - intros s e. unfold Js.parseInt. apply M. unfold Js.toString.
    apply parseIntString_digitLed, digitLed_numeral.
    + apply Z_to_string_nonempty. lia.
    + apply allDigits_Z_to_string. lia.
Qed.

Example trim_example : JsString.trim "  gaming laptop  " = "gaming laptop".
Proof. reflexivity. Qed.

Example normalizeName_example : normalizeName "r/Gaming" = "gaming".
Proof. reflexivity. Qed.

Example split_example : JsString.split "," "a, b,,c" = ["a"; " b"; ""; "c"].
Proof. reflexivity. Qed.

Example replace_example : JsString.replace "super/x" "r/" "" = "supex".
Proof. reflexivity. Qed.

Example parseInt_examples :
  Js.parseInt (VString "42") = Some 42 /\
  Js.parseInt (VString "  -7px") = Some (-7) /\
  Js.parseInt (VString "0x1f") = Some 31 /\
  Js.parseInt (VString "invalid") = None /\
  Js.parseInt (VString "") = None /\
  Js.parseIntString (Js.toString (VNumber 999)) = Some 999 /\
  Js.parseIntString (Js.toString VNull) = None.
Proof. repeat split; reflexivity. Qed.

Example stringify_example :
  JSON.stringify (JArray [JString "https://a.example/x"; JString "b"])
  = String "[" (JSON.quote "https://a.example/x" ++ "," ++ JSON.quote "b" ++ "]").
Proof. reflexivity. Qed.

Example parse_examples :
  JSON.parse "[]" = Some (JArray []) /\
  JSON.parse " [ ] " = Some (JArray []) /\
  JSON.parse "{}" = Some (JObject []) /\
  JSON.parse "-12.5e+3" = Some (JNumber "-12.5e+3") /\
  JSON.parse "[1, [true, null], {}]"
    = Some (JArray [JNumber "1"; JArray [JBool true; JNull]; JObject []]) /\
  JSON.parse "012" = None /\
  JSON.parse "[1,]" = None /\
  JSON.parse "a,b" = None /\
  JSON.parse "" = None /\
  JSON.parse (JSON.stringify (JArray [JString "https://a.example/x"; JString "b"]))
    = Some (JArray [JString "https://a.example/x"; JString "b"]) /\
  JSON.parse (JSON.stringify (JObject [("k", JArray [JString "a\b"; JNull])]))
    = Some (JObject [("k", JArray [JString "a\b"; JNull])]).
Proof. repeat split; vm_compute; reflexivity. Qed.

Example like_examples :
  Sqlite.like (searchPattern "gam") "Gaming" = true /\
  Sqlite.like (searchPattern "a_c") "xxABCxx" = true /\
  Sqlite.like (searchPattern "gam") "news" = false /\
  Sqlite.likeNullable (searchPattern "") None = false.
Proof. repeat split; reflexivity. Qed.

Example parseLinks_examples :
  Post.parseLinks (JString "a, b,,c") = stringArray ["a"; "b"; "c"] /\
  Post.parseLinks (JString "[]") = stringArray [] /\
  Post.parseLinks (JString "") = stringArray [] /\
  Post.parseLinks (JString ",") = stringArray [] /\
  Post.parseLinks (JString "[ ]") = stringArray [] /\
  Post.parseLinks JNull = stringArray [] /\
  Post.parseLinks (JString "{}") = JObject [].
Proof. repeat split; vm_compute; reflexivity. Qed.

Example orderBy_example :
  Sqlite.orderBy PostRepository.createdDesc
    [mkPostRow 1 "a" None None 10 10; mkPostRow 2 "b" None None 30 30;
     mkPostRow 3 "c" None None 10 10]
  = [mkPostRow 2 "b" None None 30 30; mkPostRow 1 "a" None None 10 10;
     mkPostRow 3 "c" None None 10 10].
Proof. reflexivity. Qed.

(** ** Strings and normalization *)

Section StringFacts.
Import JsString.

Lemma lowerChar_isWhiteSpace c : isWhiteSpace (lowerChar c) = isWhiteSpace c.
Proof. destruct c as [[] [] [] [] [] [] [] []]; reflexivity. Qed.

Lemma lowerChar_idem c : lowerChar (lowerChar c) = lowerChar c.
Proof. destruct c as [[] [] [] [] [] [] [] []]; reflexivity. Qed.

Lemma toLowerCase_idem s : toLowerCase (toLowerCase s) = toLowerCase s.
Proof. induction s as [|c s IH]; simpl; [reflexivity|]. now rewrite lowerChar_idem, IH. Qed.

Lemma toLowerCase_trimStart s : toLowerCase (trimStart s) = trimStart (toLowerCase s).
Proof.
  induction s as [|c s IH]; simpl; [reflexivity|].
  rewrite lowerChar_isWhiteSpace. destruct (isWhiteSpace c); [exact IH | reflexivity].
Qed.

Lemma toLowerCase_trimEnd s : toLowerCase (trimEnd s) = trimEnd (toLowerCase s).
Proof.
  induction s as [|c s IH]; simpl; [reflexivity|].
  rewrite <- IH. destruct (trimEnd s) as [|d r]; simpl.
  - rewrite lowerChar_isWhiteSpace. now destruct (isWhiteSpace c).
  - reflexivity.
Qed.

Lemma toLowerCase_drop n s : toLowerCase (drop n s) = drop n (toLowerCase s).
Proof.
  revert s; induction n as [|n IH]; intros s; [reflexivity|].
  destruct s; simpl; [reflexivity | apply IH].
Qed.

Lemma trimEnd_idem s : trimEnd (trimEnd s) = trimEnd s.
Proof.
  induction s as [|c s IH]; simpl; [reflexivity|].
  destruct (trimEnd s) as [|d r] eqn:E.
  - destruct (isWhiteSpace c) eqn:W; simpl; [reflexivity | now rewrite W].
  - simpl in *. now rewrite IH.
Qed.

Lemma trimStart_head s : headNotWhiteSpace (trimStart s) = true.
Proof.
  induction s as [|c s IH]; simpl; [reflexivity|].
  destruct (isWhiteSpace c) eqn:W; [exact IH | simpl; now rewrite W].
Qed.

Lemma trimStart_fixed s : headNotWhiteSpace s = true -> trimStart s = s.
Proof.
  destruct s as [|c s]; simpl; [reflexivity|].
  now destruct (isWhiteSpace c).
Qed.

Lemma trimEnd_head s : headNotWhiteSpace s = true -> headNotWhiteSpace (trimEnd s) = true.
Proof.
  destruct s as [|c s]; simpl; [reflexivity|].
  intros W. destruct (isWhiteSpace c) eqn:Wc; [discriminate|].
  destruct (trimEnd s); simpl; now rewrite Wc.
Qed.

Lemma trim_head s : headNotWhiteSpace (trim s) = true.
Proof. apply trimEnd_head, trimStart_head. Qed.

Lemma trim_trimEnd s : trimEnd (trim s) = trim s.
Proof. apply trimEnd_idem. Qed.

Lemma trim_fixed s : headNotWhiteSpace s = true -> trimEnd s = s -> trim s = s.
Proof. intros H E. unfold trim. now rewrite (trimStart_fixed _ H). Qed.

Lemma trim_idem s : trim (trim s) = trim s.
Proof. apply trim_fixed; [apply trim_head | apply trim_trimEnd]. Qed.

(* a suffix of a string without trailing white space has none either *)
Lemma trimEnd_tail c s : trimEnd (String c s) = String c s -> trimEnd s = s.
Proof.
  simpl. destruct (trimEnd s) as [|d r] eqn:E.
  - destruct (isWhiteSpace c); [discriminate|]. intros H; now inversion H.
  - intros H; now inversion H.
Qed.

Lemma trimEnd_drop n s : trimEnd s = s -> trimEnd (drop n s) = drop n s.
Proof.
  revert s; induction n as [|n IH]; intros s H; [exact H|].
  destruct s as [|c s]; simpl; [reflexivity|].
  apply IH. eapply trimEnd_tail; eauto.
Qed.

Lemma replace_prefix s pat rep :
  String.prefix pat s = true -> replace s pat rep = rep ++ drop (String.length pat) s.
Proof. intros H. destruct s; cbn [replace]; now rewrite H. Qed.

Lemma normalizeName_unfold s :
  normalizeName s =
  if startsWith (toLowerCase (trim s)) "r/" then drop 2 (toLowerCase (trim s))
  else toLowerCase (trim s).
Proof.
  unfold normalizeName. destruct (startsWith _ _) eqn:E; [|reflexivity].
  unfold startsWith in E. now rewrite (replace_prefix _ _ _ E).
Qed.

Lemma normalizeName_trimEnd s : trimEnd (normalizeName s) = normalizeName s.
Proof.
  rewrite normalizeName_unfold.
  assert (H : trimEnd (toLowerCase (trim s)) = toLowerCase (trim s)).
  { now rewrite <- toLowerCase_trimEnd, trim_trimEnd. }
  destruct (startsWith _ _); [now apply trimEnd_drop | exact H].
Qed.

Lemma normalizeName_lower s : toLowerCase (normalizeName s) = normalizeName s.
Proof.
  rewrite normalizeName_unfold.
  destruct (startsWith _ _).
  - now rewrite toLowerCase_drop, toLowerCase_idem.
  - apply toLowerCase_idem.
Qed.

Lemma normalizeName_fixed s :
  headNotWhiteSpace s = true -> trimEnd s = s -> toLowerCase s = s ->
  startsWith s "r/" = false -> normalizeName s = s.
Proof.
  intros Hh He Hl Hp. unfold normalizeName.
  rewrite (trim_fixed _ Hh He), Hl, Hp. reflexivity.
Qed.

Lemma normalizeName_idempotent_when (s : string) :
  startsWith (normalizeName s) "r/" = false ->
  headNotWhiteSpace (normalizeName s) = true ->
  normalizeName (normalizeName s) = normalizeName s.
Proof.
  intros Hp Hh. apply normalizeName_fixed; auto using normalizeName_trimEnd, normalizeName_lower.
Qed.

Lemma length_drop n s : (String.length (drop n s) <= String.length s)%nat.
Proof. revert s; induction n as [|n IH]; intros [|c s]; simpl; try lia. specialize (IH s); lia. Qed.
Lemma length_trimStart s : (String.length (trimStart s) <= String.length s)%nat.
Proof. induction s as [|c s IH]; simpl; [lia|]. destruct (isWhiteSpace c); simpl; lia. Qed.
Lemma length_trimEnd s : (String.length (trimEnd s) <= String.length s)%nat.
Proof.
  induction s as [|c s IH]; simpl; [lia|].
  destruct (trimEnd s); [destruct (isWhiteSpace c)|]; simpl in *; lia.
Qed.
Lemma length_toLowerCase s : String.length (toLowerCase s) = String.length s.
Proof. induction s; simpl; auto. Qed.
Lemma length_trim s : (String.length (trim s) <= String.length s)%nat.
Proof.
  unfold trim. pose proof (length_trimEnd (trimStart s)).
  pose proof (length_trimStart s). lia.
Qed.

Lemma trim_head_ws c s :
  isWhiteSpace c = true -> (String.length (trim (String c s)) <= String.length s)%nat.
Proof.
  intros W. unfold trim. simpl. rewrite W.
  pose proof (length_trimEnd (trimStart s)). pose proof (length_trimStart s). lia.
Qed.

(** C5 (amended).  Applying the subreddit normalization to its own result
    gives the same value exactly when that result neither begins with
    [r/] nor with a white-space character; only one [r/] is stripped, and
    what follows it is not trimmed again. *)
Theorem normalizeName_idempotent_iff (s : string) :
  normalizeName (normalizeName s) = normalizeName s <->
  startsWith (normalizeName s) "r/" = false /\ headNotWhiteSpace (normalizeName s) = true.
Proof.
  split; [| intros [? ?]; now apply normalizeName_idempotent_when].
  set (n := normalizeName s). intros E.
  assert (L : String.length (normalizeName n) = String.length n) by now rewrite E.
  rewrite normalizeName_unfold in L.
  assert (Hh : headNotWhiteSpace n = true).
  { destruct n as [|c r]; [reflexivity|]. simpl. destruct (isWhiteSpace c) eqn:W; [|reflexivity].
    pose proof (trim_head_ws c r W). exfalso.
    destruct (startsWith _ _).
    - pose proof (length_drop 2 (toLowerCase (trim (String c r)))).
      rewrite length_toLowerCase in *. simpl in *. lia.
    - rewrite length_toLowerCase in *. simpl in *. lia. }
  split; [|exact Hh].
  assert (T : trim n = n) by (apply trim_fixed; [exact Hh | apply normalizeName_trimEnd]).
  rewrite T in L. unfold n in L at 1 2. rewrite normalizeName_lower in L. fold n in L.
  destruct (startsWith n "r/") eqn:P; [|reflexivity].
  exfalso. destruct n as [|a [|b r]]; try discriminate. simpl in L.
  pose proof (length_drop 0 r). simpl in *. lia.
Qed.

(** The trim-only normalization of keywords and titles is idempotent. *)
Lemma normalizeKeyword_idempotent s : normalizeKeyword (normalizeKeyword s) = normalizeKeyword s.
Proof. apply trim_idem. Qed.

Lemma normalizeTitle_idempotent s : normalizeTitle (normalizeTitle s) = normalizeTitle s.
Proof. apply trim_idem. Qed.

(** C5 as stated fails: a second [r/] survives the first normalization and
    is stripped by the second. *)
Lemma normalizeName_not_idempotent :
  normalizeName "r/r/gaming" = "r/gaming" /\
  normalizeName (normalizeName "r/r/gaming") <> normalizeName "r/r/gaming".
Proof. split; [reflexivity | discriminate]. Qed.

Lemma trim_allWhiteSpace s : allWhiteSpace s = true -> trim s = "".
Proof.
  unfold trim. induction s as [|c s IH]; simpl; [reflexivity|].
  intros H. apply andb_prop in H as [Hc Hs]. rewrite Hc. auto.
Qed.

Lemma append_assoc (a b c : string) : (a ++ b) ++ c = a ++ (b ++ c).
Proof. induction a as [|x a IH]; simpl; [reflexivity | now rewrite IH]. Qed.

Lemma length_append (a b : string) :
  String.length (a ++ b) = (String.length a + String.length b)%nat.
Proof. induction a as [|x a IH]; simpl; [reflexivity | now rewrite IH]. Qed.

Lemma truthy_nonempty s : s <> "" -> truthy s = true.
Proof. unfold truthy. destruct (String.eqb_spec s ""); [contradiction | reflexivity]. Qed.

End StringFacts.

(** ** Running the operations *)

Lemma logged_app w e1 e2 : logged (logged w e1) e2 = logged w (e1 ++ e2).
Proof. unfold logged; simpl. now rewrite <- app_assoc. Qed.

Lemma validate_valid {A} prefix (v : Validated A) a w :
  v = Valid a -> validate prefix v w = (Resolved a, w).
Proof. intros ->. reflexivity. Qed.

Lemma find_present {R} (p : R -> bool) (l : list R) :
  (exists x, In x l /\ p x = true) -> exists y, find p l = Some y.
Proof.
  intros (x & Hin & Hp). destruct (find p l) eqn:E; [eauto|].
  now rewrite (find_none _ _ E x Hin) in Hp.
Qed.

Lemma find_absent {R} (p : R -> bool) (l : list R) :
  (forall x, In x l -> p x = false) -> find p l = None.
Proof.
  intros H. destruct (find p l) eqn:E; [|reflexivity].
  apply find_some in E as [Hin Hp]. now rewrite (H _ Hin) in Hp.
Qed.


Ltac run_repository :=
  cbv [wrap tryCatch bind ret emit getDatabase Knex.table Knex.first Knex.count Knex.select];
  simpl; rewrite <- ?app_assoc; try reflexivity.

Lemma KeywordRepository_findById n w :
  KeywordRepository.findById KeywordService.db n w =
  (Rejected (mkError RepositoryError "Failed to find keyword by ID: this.db is not a function"),
   logged w [Call KeywordRepo "findById"]).
Proof. reflexivity. Qed.

Lemma SubredditRepository_findById n w :
  SubredditRepository.findById SubredditService.db n w =
  (Resolved (Subreddit.fromDatabase (subredditById n w)),
   logged w [Call SubredditRepo "findById"; Sql "subreddits" SELECT]).
Proof.
  unfold SubredditRepository.findById, SubredditService.db, subredditById, subredditsOf, logged.
  run_repository.
Qed.

Lemma PostRepository_findById n w :
  PostRepository.findById PostService.db n w =
  (Resolved (Post.fromDatabase (postById n w)),
   logged w [Call PostRepo "findById"; Sql "posts" SELECT]).
Proof.
  unfold PostRepository.findById, PostService.db, postById, postsOf, logged.
  run_repository.
Qed.

Lemma SubredditRepository_exists name w :
  SubredditRepository.exists_ SubredditService.db name w =
  (Resolved (match find (fun r => String.eqb (sr_name r) name) (rows (subredditsOf w)) with
             | Some _ => true
             | None => false
             end),
   logged w [Call SubredditRepo "exists"; Sql "subreddits" SELECT]).
Proof.
  unfold SubredditRepository.exists_, SubredditService.db, subredditsOf, logged.
  run_repository.
Qed.

Lemma PostRepository_existsByTitle title w :
  PostRepository.existsByTitle PostService.db title w =
  (Resolved (match find (fun r => String.eqb (p_title r) title) (rows (postsOf w)) with
             | Some _ => true
             | None => false
             end),
   logged w [Call PostRepo "existsByTitle"; Sql "posts" SELECT]).
Proof.
  unfold PostRepository.existsByTitle, PostService.db, postsOf, logged.
  run_repository.
Qed.

(** ** The keyword service *)

(** C2.  [createKeyword], [getAllKeywords], [searchKeywords] and
    [getStatistics] fail on every input, and leave the world as it was: no
    repository method is entered and no statement reaches storage.  Past
    validation the failure is the TypeError of calling [exists], [findAll],
    [searchByText] or [getStatistics], none of which [KeywordRepository]
    defines. *)
Theorem keyword_service_cannot_reach_storage (w : World) :
  (forall input, exists e,
      KeywordService.createKeyword input w = (Rejected e, w)
      /\ (kind e = ValidationError \/ missingMethod e "exists")) /\
  (forall options, exists e,
      KeywordService.getAllKeywords options w = (Rejected e, w)
      /\ (kind e = ValidationError \/ missingMethod e "findAll")) /\
  (forall searchText limit, exists e,
      KeywordService.searchKeywords searchText limit w = (Rejected e, w)
      /\ (kind e = InvalidInputError \/ kind e = TypeError)) /\
  (exists e, KeywordService.getStatistics w = (Rejected e, w)
      /\ missingMethod e "getStatistics").
Proof.
  repeat split.
  - intros input. unfold KeywordService.createKeyword.
    cbv [rethrow tryCatch bind validate ret throw notAFunction].
    destruct (KeywordValidation.create input); eexists;
      (split; [reflexivity|]); [right | left]; reflexivity.
  - intros options. unfold KeywordService.getAllKeywords.
    cbv [rethrow tryCatch bind validate ret throw notAFunction].
    destruct (KeywordValidation.query options); eexists;
      (split; [reflexivity|]); [right | left]; reflexivity.
  - intros searchText limit. unfold KeywordService.searchKeywords.
    cbv [rethrow tryCatch bind ret throw notAFunction trimOf].
    destruct searchText as [| | [] | n | | s | f e]; simpl;
      try (eexists; split; [reflexivity | auto]).
    + destruct (negb (n =? 0)); eexists; (split; [reflexivity | auto]).
    + destruct (JsString.truthy s); [destruct (Nat.eqb _ _) |];
        eexists; (split; [reflexivity | auto]).
    + destruct (negb (f =? 0)); eexists; (split; [reflexivity | auto]).
  - eexists; split; reflexivity.
Qed.

(** The other three operations enter the repository, which has no
    connection: they fail before a statement is sent. *)
Lemma keyword_service_has_no_connection (id : JsValue) (w : World) :
  (exists e w', KeywordService.getKeywordById id w = (Rejected e, w')
                /\ database w' = database w) /\
  (forall patch, exists e w', KeywordService.updateKeyword id patch w = (Rejected e, w')
                /\ database w' = database w) /\
  (exists e w', KeywordService.deleteKeyword id w = (Rejected e, w')
                /\ database w' = database w).
Proof.
  repeat split.
  - unfold KeywordService.getKeywordById.
    destruct (Js.truthy id), (Js.parseInt id); do 2 eexists; split; reflexivity.
  - intros patch. unfold KeywordService.updateKeyword.
    cbv [rethrow tryCatch bind validate ret throw].
    destruct (KeywordValidation.update (Js.parseInt id) patch);
      do 2 eexists; split; reflexivity.
  - unfold KeywordService.deleteKeyword.
    destruct (Js.truthy id), (Js.parseInt id); do 2 eexists; split; reflexivity.
Qed.

(** C3 (the code at the failing input).  The first example scenario of the
    specification, creating the keyword ["  gaming laptop  "], returns no
    entity: the call fails with a TypeError in every world. *)
Theorem createKeyword_never_returns (w : World) :
  KeywordService.createKeyword
    (KeywordValidation.mkCreateInput (VString "  gaming laptop  ")) w
  = (Rejected (mkError TypeError "this.keywordRepository.exists is not a function"), w).
Proof. reflexivity. Qed.

(** ** Ids *)


Lemma getSubredditById_accepted id n w :
  Js.truthy id = true -> Js.parseInt id = Some n ->
  SubredditService.getSubredditById id w
  = (match subredditById n w with
     | Some row => Resolved (Subreddit.new (Subreddit.ofRow row))
     | None => Rejected (mkError NotFoundError
                           ("Subreddit with ID " ++ Js.toString id ++ " not found"))
     end,
     logged w [Call SubredditRepo "findById"; Sql "subreddits" SELECT]).
Proof.
  intros Ht Hp. unfold SubredditService.getSubredditById. rewrite Ht, Hp.
  unfold rethrow, tryCatch, bind at 1.
  rewrite SubredditRepository_findById. destruct (subredditById n w); reflexivity.
Qed.

Lemma getPostById_accepted id n w :
  Js.truthy id = true -> Js.parseInt id = Some n ->
  PostService.getPostById id w
  = (match postById n w with
     | Some row => Resolved (Post.new (Post.ofRow row))
     | None => Rejected (mkError NotFoundError
                           ("Post with ID " ++ Js.toString id ++ " not found"))
     end,
     logged w [Call PostRepo "findById"; Sql "posts" SELECT]).
Proof.
  intros Ht Hp. unfold PostService.getPostById. rewrite Ht, Hp.
  unfold rethrow, tryCatch, bind at 1.
  rewrite PostRepository_findById. destruct (postById n w); reflexivity.
Qed.

(** Every safe integer but zero passes the guard and is looked up as
    itself; a larger Number up to 2^62 is looked up as the double it is; and
    so does every string that begins with an integer. *)
Lemma nonzero_number_accepted n :
  n <> 0 -> Z.abs n <= 2 ^ 62 ->
  Js.truthy (VNumber n) = true
  /\ Js.parseInt (VNumber n) = Some (Js.number n)
  /\ (Z.abs n < 2 ^ 53 -> Js.parseInt (VNumber n) = Some n).
Proof.
  intros H Hn. split; [|split].
  - simpl. now destruct (Z.eqb_spec n 0).
  - now apply parseInt_number.
  - apply parseInt_safe.
Qed.

(** From 10^21 on a Number prints in the exponent form, of which [parseInt]
    reads the first digit; [Infinity] prints as a word and is rejected; of
    a fraction [parseInt] reads what stands before the point or the [e]. *)
Example exponent_form_read_as_first_digit :
  Js.toString (VNumber (10 ^ 21)) = "1e+21" /\
  Js.parseInt (VNumber (10 ^ 21)) = Some 1 /\
  Js.toString (VNumber (2 ^ 70)) = "1.1805916207174113e+21" /\
  Js.parseInt (VNumber (- 25 * 10 ^ 21)) = Some (-2) /\
  Js.toString (VNumber (2 ^ 60)) = "1152921504606847000" /\
  Js.parseInt (VNumber (2 ^ 53 + 1)) = Some (2 ^ 53).
Proof. repeat split; vm_compute; reflexivity. Qed.

Example infinity_rejected :
  Js.toString (VNumber (2 ^ 1024)) = "Infinity" /\
  Js.truthy (VNumber (2 ^ 1024)) = true /\
  Js.parseInt (VNumber (2 ^ 1024)) = None /\
  Js.parseInt (VNumber (- 2 ^ 1024)) = None.
Proof. repeat split; vm_compute; reflexivity. Qed.

Example fraction_read_before_point :
  Js.toString (VFraction 5 1) = "0.5" /\ Js.parseInt (VFraction 5 1) = Some 0 /\
  Js.toString (VFraction 15 8) = "1.5e-7" /\ Js.parseInt (VFraction 15 8) = Some 1 /\
  Js.toString (VFraction (-123456) 3) = "-123.456"
  /\ Js.parseInt (VFraction (-123456) 3) = Some (-123).
Proof. repeat split; vm_compute; reflexivity. Qed.

(** Every finite Number but zero passes the guard, whether it is an integer
    or not. *)
Lemma finite_number_accepted :
  (forall n, n <> 0 -> Js.isInfinite n = false ->
     Js.truthy (VNumber n) = true /\ Js.parseInt (VNumber n) <> None) /\
  (forall s e, s <> 0 ->
     Js.truthy (VFraction s e) = true /\ Js.parseInt (VFraction s e) <> None).
Proof.
  split.
  - intros n H F. split; [|now apply parseInt_finite].
    simpl. now destruct (Z.eqb_spec n 0).
  - intros s e H. split; [|apply parseInt_finite].
    simpl. now destruct (Z.eqb_spec s 0).
Qed.

(** So the id [1e21] names the row with the id 1: it is looked up, changed
    and deleted as [parseInt("1e+21")]; a not-found message shows the id as
    it prints; and [Infinity] is no id. *)
Example exponent_form_id_names_first_row :
  SubredditService.getSubredditById (VNumber (10 ^ 21)) newsWorld
    = (Resolved (Subreddit.mk (Some 1) (Some "news") (Some 0) (Some 0)),
       logged newsWorld [Call SubredditRepo "findById"; Sql "subreddits" SELECT]) /\
  (exists w',
     SubredditService.deleteSubreddit (VNumber (10 ^ 21)) newsWorld = (Resolved true, w')
     /\ subredditById 1 w' = None) /\
  fst (SubredditService.getSubredditById (VNumber (7 * 10 ^ 21)) newsWorld)
    = Rejected (mkError NotFoundError "Subreddit with ID 7e+21 not found") /\
  SubredditService.getSubredditById (VNumber (2 ^ 1024)) newsWorld
    = (Rejected (mkError InvalidIdError "Invalid subreddit ID"), newsWorld) /\
  fst (SubredditService.getSubredditById (VFraction 15 1) newsWorld)
    = Resolved (Subreddit.mk (Some 1) (Some "news") (Some 0) (Some 0)).
Proof.
  split; [vm_compute; reflexivity|]. split; [|repeat split; vm_compute; reflexivity].
  eexists. split; vm_compute; reflexivity.
Qed.

Example leading_integer_accepted :
  Js.truthy (VString "12abc") = true /\ Js.parseInt (VString "12abc") = Some 12.
Proof. split; reflexivity. Qed.




Lemma Joi_integer_id key n z : Joi.integer key (Some n) = Valid z -> z = n.
Proof.
  unfold Joi.integer. destruct (Js.isInfinite n); [discriminate|].
  destruct (_ || _); [discriminate|]. now intros [= ->].
Qed.

Lemma SubredditValidation_update_id n patch value :
  SubredditValidation.update (Some n) patch = Valid value ->
  SubredditValidation.uv_id value = n.
Proof.
  unfold SubredditValidation.update.
  destruct (Joi.integer "id" (Some n)) as [z|] eqn:E; [|discriminate].
  apply Joi_integer_id in E. subst z.
  destruct (Joi.optional _ _ _ _ _); [|discriminate]. now intros [= <-].
Qed.

Lemma PostValidation_update_id isUri n patch value :
  PostValidation.update isUri (Some n) patch = Valid value ->
  PostValidation.uv_id value = n.
Proof.
  unfold PostValidation.update.
  destruct (Joi.integer "id" (Some n)) as [z|] eqn:E; [|discriminate].
  apply Joi_integer_id in E. subst z.
  destruct (Joi.optional _ _ _ _ _); [|discriminate].
  destruct (Joi.nullableText _ _ _); [|discriminate].
  destruct (PostValidation.u_links patch);
    [destruct (PostValidation.linkArray _ _); [|discriminate]|]; now intros [= <-].
Qed.




(** ** Creating *)

(** C1 (amended).  A valid input whose normalized key is already stored
    makes [createSubreddit] fail with the DuplicateError that names the
    normalized name, and [createPost] fail with the DuplicateError of the
    fixed message [Duplicate post exists].  In both cases the world after
    the failure differs only by the record of the existence check: the
    repository's [create] was not entered and nothing was inserted. *)
Theorem create_duplicate_rejected (w : World) :
  (forall input value,
     SubredditValidation.create input = Valid value ->
     subredditNamed (normalizeName (SubredditValidation.v_name value)) w ->
     SubredditService.createSubreddit input w =
       (Rejected (mkError DuplicateError
          ("Subreddit " ++ normalizeName (SubredditValidation.v_name value)
             ++ " already exists")),
        logged w [Call SubredditRepo "exists"; Sql "subreddits" SELECT]))
  /\
  (forall isUri input value,
     PostValidation.create isUri input = Valid value ->
     postTitled (normalizeTitle (PostValidation.v_title value)) w ->
     PostService.createPost isUri input w =
       (Rejected (mkError DuplicateError "Duplicate post exists"),
        logged w [Call PostRepo "existsByTitle"; Sql "posts" SELECT])).
Proof.
  split.
  - intros input value V (row & Hin & Hn).
    unfold SubredditService.createSubreddit.
    unfold rethrow, tryCatch, bind at 1. rewrite (validate_valid _ _ _ _ V).
    fold (normalizeName (SubredditValidation.v_name value)).
    unfold bind at 1. rewrite SubredditRepository_exists.
    destruct (find_present
                (fun r => String.eqb (sr_name r)
                            (normalizeName (SubredditValidation.v_name value)))
                (rows (subredditsOf w))) as [y ->].
    { exists row. split; [exact Hin|]. rewrite Hn. apply String.eqb_refl. }
    reflexivity.
  - intros isUri input value V (row & Hin & Hn).
    unfold PostService.createPost.
    unfold rethrow, tryCatch, bind at 1. rewrite (validate_valid _ _ _ _ V).
    unfold bind at 1. rewrite PostRepository_existsByTitle.
    destruct (find_present
                (fun r => String.eqb (p_title r)
                            (JsString.trim (PostValidation.v_title value)))
                (rows (postsOf w))) as [y ->].
    { exists row. split; [exact Hin|]. rewrite Hn. apply String.eqb_refl. }
    reflexivity.
Qed.

Lemma create_duplicate_rejected_witness :
  SubredditService.createSubreddit
      (SubredditValidation.mkCreateInput (VString " r/News ")) newsWorld
    = (Rejected (mkError DuplicateError "Subreddit news already exists"),
       logged newsWorld [Call SubredditRepo "exists"; Sql "subreddits" SELECT]) /\
  PostService.createPost anyUri
      (PostValidation.mkCreateInput (VString " Deal ") VUndefined None) dealWorld
    = (Rejected (mkError DuplicateError "Duplicate post exists"),
       logged dealWorld [Call PostRepo "existsByTitle"; Sql "posts" SELECT]).
Proof.
  split.
  - destruct (create_duplicate_rejected newsWorld) as [H _].
    apply (H _ (SubredditValidation.mkCreateValue " r/News ")); [reflexivity|].
    exists (mkSubredditRow 1 "news" 0 0). split; [left|]; reflexivity.
  - destruct (create_duplicate_rejected dealWorld) as [_ H].
    apply (H anyUri _ (PostValidation.mkCreateValue " Deal " None [])); [reflexivity|].
    exists (mkPostRow 1 "Deal" None (Some "[]") 0 0). split; [left|]; reflexivity.
Defined.

(** C1 as stated fails for Post: the title [Deal] is stored, the input is
    valid, and the DuplicateError of [createPost] does not name the title. *)
Lemma createPost_duplicate_not_named :
  PostValidation.create anyUri (PostValidation.mkCreateInput (VString " Deal ") VUndefined None)
    = Valid (PostValidation.mkCreateValue " Deal " None []) /\
  postTitled (normalizeTitle " Deal ") dealWorld /\
  ~ duplicateNaming
      (PostService.createPost anyUri
         (PostValidation.mkCreateInput (VString " Deal ") VUndefined None))
      PostRepo (normalizeTitle " Deal ") dealWorld.
Proof.
  split; [reflexivity|]. split.
  - exists (mkPostRow 1 "Deal" None (Some "[]") 0 0). split; [left|]; reflexivity.
  - intros (e & w' & E & _ & I & _). cbv in E. injection E as <- _.
    cbv in I. discriminate I.
Qed.

Section Fresh.
Context {R : Type} (ref : Knex.TableRef R).

Lemma maxId_bound (l : list R) x : In x l -> Knex.rowId ref x <= Knex.maxId ref l.
Proof.
  induction l as [|y l IH]; simpl; [tauto|].
  intros [->|H]; [lia|]. specialize (IH H). lia.
Qed.

Lemma maxId_nonneg (l : list R) : 0 <= Knex.maxId ref l.
Proof. induction l as [|y l IH]; simpl; lia. Qed.

Lemma freshId_positive t : 0 < freshId ref t.
Proof. unfold freshId. pose proof (maxId_nonneg (rows t)). lia. Qed.

(** A lookup of the fresh id finds the row that was appended with it. *)
Lemma find_fresh (t : Table R) (x : R) :
  Knex.rowId ref x = freshId ref t ->
  find (fun r => Knex.rowId ref r =? freshId ref t) (rows t ++ [x]) = Some x.
Proof.
  intros Hx. unfold freshId in *.
  set (k := Z.max (seq t) (Knex.maxId ref (rows t)) + 1) in *.
  assert (H : forall l, (forall y, In y l -> Knex.rowId ref y < k) ->
            find (fun r => Knex.rowId ref r =? k) (l ++ [x]) = Some x).
  { induction l as [|y l IH]; simpl; intros Hl.
    - now rewrite Hx, Z.eqb_refl.
    - assert (Knex.rowId ref y < k) by (apply Hl; now left).
      destruct (Z.eqb_spec (Knex.rowId ref y) k); [lia|].
      apply IH. intros; apply Hl; now right. }
  apply H. intros y Hy. pose proof (maxId_bound _ _ Hy). subst k. lia.
Qed.
End Fresh.

Lemma orNullZ_positive n : 0 < n -> orNullZ (Some n) = Some n.
Proof. destruct n; simpl; auto; lia. Qed.

(** What C3 asks of [createSubreddit] holds: a valid input whose
    normalized name is not empty and not stored yet is inserted under that
    name, and the entity read back carries it. *)
Lemma createSubreddit_returns_normalized input value w :
  SubredditValidation.create input = Valid value ->
  let name := normalizeName (SubredditValidation.v_name value) in
  let id := freshId Knex.subredditsTable (subredditsOf w) in
  name <> "" ->
  ~ subredditNamed name w ->
  SubredditService.createSubreddit input w =
    (Resolved (Subreddit.mk (Some id) (Some name) (Some (now w)) (Some (now w))),
     mkWorld
       (mkDatabase (keywords (database w))
          (mkTable (rows (subredditsOf w) ++ [mkSubredditRow id name (now w) (now w)]) id)
          (posts (database w)))
       (now w)
       (trace w ++ [Call SubredditRepo "exists"; Sql "subreddits" SELECT;
                    Call SubredditRepo "create"; Sql "subreddits" INSERT;
                    Call SubredditRepo "findById"; Sql "subreddits" SELECT])).
Proof.
  intros V name id Hne Habs.
  unfold SubredditService.createSubreddit.
  unfold rethrow, tryCatch, bind at 1. rewrite (validate_valid _ _ _ _ V).
  fold (normalizeName (SubredditValidation.v_name value)). fold name.
  unfold bind at 1. rewrite SubredditRepository_exists.
  assert (F : forall x, In x (rows (subredditsOf w)) -> String.eqb (sr_name x) name = false).
  { intros x Hx. destruct (String.eqb_spec (sr_name x) name); [|reflexivity].
    exfalso. apply Habs. now exists x. }
  rewrite (find_absent _ _ F).
  assert (E : existsb (fun r => String.eqb (sr_name r) name) (rows (subredditsOf w)) = false).
  { apply not_true_is_false. intros C. apply existsb_exists in C as (x & Hx & Hn).
    now rewrite (F x Hx) in Hn. }
  pose proof (find_fresh Knex.subredditsTable (subredditsOf w)
                (mkSubredditRow id name (now w) (now w)) eq_refl) as Ff.
  pose proof (orNullZ_positive id (freshId_positive _ _)) as Hid.
  pose proof (truthy_nonempty _ Hne) as Ht.
  clearbody name. subst id. clear V Habs F.
  destruct w as [[kt [srows sseq] pt] nw tr].
  unfold subredditsOf, freshId in *. simpl in *.
  unfold SubredditRepository.create, SubredditRepository.findById, SubredditService.db.
  cbv [wrap tryCatch bind ret throw emit getDatabase putDatabase getNow Knex.table Knex.insert
       Knex.first Subreddit.new Subreddit.toDatabase Subreddit.d_name Subreddit.name
       Subreddit.d_id Subreddit.d_createdAt Subreddit.d_updatedAt orNullString logged
       Schema.subredditViolation Subreddit.fromDatabase Subreddit.ofRow].
  simpl. rewrite Ht, E. simpl. rewrite Ff. simpl. rewrite Hid, Ht.
  rewrite <- !app_assoc. reflexivity.
Qed.

(** What C3 asks of [createPost] holds: a valid input whose trimmed title
    is not stored yet is inserted under that title, and the entity read
    back carries it. *)
Lemma createPost_returns_trimmed isUri input value w :
  PostValidation.create isUri input = Valid value ->
  let title := normalizeTitle (PostValidation.v_title value) in
  let id := freshId Knex.postsTable (postsOf w) in
  let row := mkPostRow id title
               (orNullString (PostService.trimDescription (PostValidation.v_description value)))
               (Some (JSON.stringify (stringArray (PostValidation.v_links value))))
               (now w) (now w) in
  ~ postTitled title w ->
  PostService.createPost isUri input w =
    (Resolved (Post.new (Post.ofRow row)),
     mkWorld
       (mkDatabase (keywords (database w)) (subreddits (database w))
          (mkTable (rows (postsOf w) ++ [row]) id))
       (now w)
       (trace w ++ [Call PostRepo "existsByTitle"; Sql "posts" SELECT;
                    Call PostRepo "create"; Sql "posts" INSERT;
                    Call PostRepo "findById"; Sql "posts" SELECT]))
  /\ Post.title (Post.new (Post.ofRow row)) = title.
Proof.
  intros V title id row Habs. split; [|reflexivity].
  unfold PostService.createPost.
  unfold rethrow, tryCatch, bind at 1. rewrite (validate_valid _ _ _ _ V).
  fold (normalizeTitle (PostValidation.v_title value)). fold title.
  unfold bind at 1. rewrite PostRepository_existsByTitle.
  assert (F : forall x, In x (rows (postsOf w)) -> String.eqb (p_title x) title = false).
  { intros x Hx. destruct (String.eqb_spec (p_title x) title); [|reflexivity].
    exfalso. apply Habs. now exists x. }
  rewrite (find_absent _ _ F).
  pose proof (find_fresh Knex.postsTable (postsOf w) row eq_refl) as Ff.
  subst row. clearbody title. subst id. clear V Habs F.
  destruct w as [[kt st [prows pseq]] nw tr].
  unfold postsOf, freshId, stringArray in *.
  unfold PostRepository.create, PostRepository.findById, PostService.db.
  cbv [wrap tryCatch bind ret throw emit getDatabase putDatabase getNow Knex.table Knex.insert
       Knex.first logged Schema.postViolation Post.fromDatabase].
  cbn -[JSON.stringify Z.max Knex.maxId find Z.add orNullString] in *.
  rewrite Ff.
  rewrite <- !app_assoc. reflexivity.
Qed.

(** ** Updating *)

(** When the patch carries a name that differs from the stored one and is
    not taken, [updateSubreddit] hands the repository the trimmed name: it
    is not lowercased and a leading [r/] stays. *)
Lemma updateSubreddit_passes_trimmed_name id n patch value v row w :
  Js.parseInt id = Some n ->
  SubredditValidation.update (Some n) patch = Valid value ->
  SubredditValidation.uv_name value = Some v ->
  subredditById n w = Some row ->
  sr_name row <> v ->
  ~ subredditNamed (JsString.trim v) w ->
  SubredditService.updateSubreddit id patch w =
  rethrow (SubredditRepository.update SubredditService.db n
             (SubredditRepository.mkPatch (Some n) (Some (JsString.trim v))))
    (logged w [Call SubredditRepo "findById"; Sql "subreddits" SELECT;
               Call SubredditRepo "exists"; Sql "subreddits" SELECT]).
Proof.
  intros Hp V Hv Hrow Hne Habs.
  unfold SubredditService.updateSubreddit. rewrite Hp.
  unfold rethrow at 1, tryCatch at 1, bind at 1. rewrite (validate_valid _ _ _ _ V).
  rewrite (SubredditValidation_update_id _ _ _ V), Hv.
  unfold bind at 1. rewrite SubredditRepository_findById, Hrow.
  cbn [Subreddit.fromDatabase].
  assert (D : match Subreddit.name (Subreddit.new (Subreddit.ofRow row)) with
              | Some stored => String.eqb v stored | None => false end = false).
  { cbn. destruct (JsString.truthy (sr_name row)); [|reflexivity].
    destruct (String.eqb_spec v (sr_name row)); [congruence | reflexivity]. }
  rewrite D. cbn [negb].
  unfold bind at 1. unfold bind at 1. rewrite SubredditRepository_exists.
  assert (F : find (fun r => String.eqb (sr_name r) (JsString.trim v))
                (rows (subredditsOf
                   (logged w [Call SubredditRepo "findById"; Sql "subreddits" SELECT])))
              = None).
  { apply find_absent. intros x Hx.
    destruct (String.eqb_spec (sr_name x) (JsString.trim v)); [|reflexivity].
    exfalso. apply Habs. now exists x. }
  rewrite F. cbn [ret]. rewrite logged_app. reflexivity.
Qed.


(** C4 (the code at the failing input).  Renaming subreddit 1 to
    [r/Gaming] stores and returns [r/Gaming]; the full normalization of
    that name, which [createSubreddit] would have stored, is [gaming]. *)
Theorem updateSubreddit_stores_unnormalized_name :
  exists updated w',
    SubredditService.updateSubreddit (VNumber 1)
      (SubredditValidation.mkUpdateInput (VString "r/Gaming")) newsWorld
      = (Resolved (Some updated), w')
    /\ Subreddit.name updated = Some "r/Gaming"
    /\ map sr_name (rows (subredditsOf w')) = ["r/Gaming"]
    /\ normalizeName "r/Gaming" = "gaming".
Proof. do 2 eexists. repeat split. Qed.

(** ** Searching *)

(** C9.  A search text that is missing, empty or white space only makes
    [searchKeywords], [searchSubreddits] and [searchPosts] fail and leaves
    the world as it was: no repository method is entered and no statement
    reaches storage.  The failure is [Search text is required], except that
    [searchSubreddits] fails with a TypeError on a missing text, which it
    trims before testing it. *)
Theorem blank_search_rejected (searchText : JsValue) (limit : option Z) (w : World) :
  blankSearchText searchText = true ->
  KeywordService.searchKeywords searchText limit w = (Rejected requiredText, w) /\
  (exists e, SubredditService.searchSubreddits searchText limit w = (Rejected e, w)
             /\ (e = requiredText \/ kind e = TypeError)) /\
  PostService.searchPosts searchText limit w = (Rejected requiredText, w).
Proof.
  destruct searchText as [| | b | n | | s | f e]; simpl; try discriminate; intros H.
  - repeat split. eexists; split; [reflexivity | now right].
  - repeat split. eexists; split; [reflexivity | now right].
  - apply trim_allWhiteSpace in H.
    unfold KeywordService.searchKeywords, SubredditService.searchSubreddits,
      PostService.searchPosts.
    cbv [rethrow tryCatch bind ret throw trimOf Js.truthy]. rewrite H.
    destruct (JsString.truthy s); simpl; repeat split; eexists; split; try reflexivity; now left.
Qed.

Lemma blank_search_rejected_witness :
  PostService.searchPosts (VString "   ") None dealWorld = (Rejected requiredText, dealWorld).
Proof.
  destruct (blank_search_rejected (VString "   ") None dealWorld eq_refl) as (_ & _ & H).
  exact H.
Defined.

(** A text that is not blank does reach the repository. *)
Example searchSubreddits_delegates :
  SubredditService.searchSubreddits (VString " r/NE ") None newsWorld
  = (Resolved [Subreddit.mk (Some 1) (Some "news") (Some 0) (Some 0)],
     logged newsWorld [Call SubredditRepo "searchByName"; Sql "subreddits" SELECT]).
Proof. reflexivity. Qed.

(** ** Pagination *)

Section OrderByFacts.
Context {R : Type} (before : R -> R -> bool).

Lemma insertBy_length x l : List.length (Sqlite.insertBy before x l) = S (List.length l).
Proof. induction l as [|y l IH]; simpl; [reflexivity|]. destruct (before x y); simpl; auto. Qed.

Lemma orderBy_length l : List.length (Sqlite.orderBy before l) = List.length l.
Proof. induction l as [|y l IH]; simpl; [reflexivity|]. now rewrite insertBy_length, IH. Qed.

Lemma insertBy_In x y l : In y (Sqlite.insertBy before x l) <-> y = x \/ In y l.
Proof.
  induction l as [|z l IH]; simpl; [intuition|].
  destruct (before x z); simpl; [intuition | rewrite IH; intuition].
Qed.

Lemma orderBy_In y l : In y (Sqlite.orderBy before l) <-> In y l.
Proof.
  induction l as [|z l IH]; simpl; [tauto|]. rewrite insertBy_In, IH. intuition.
Qed.

Lemma orderByIndexDesc_length l :
  List.length (Sqlite.orderByIndexDesc before l) = List.length l.
Proof. unfold Sqlite.orderByIndexDesc. now rewrite orderBy_length, length_rev. Qed.

End OrderByFacts.

Lemma In_firstn {R} n (l : list R) x : In x (firstn n l) -> In x l.
Proof. revert l; induction n as [|n IH]; intros [|y l]; simpl; try tauto. intros [->|H]; auto. Qed.

Lemma In_skipn {R} n (l : list R) x : In x (skipn n l) -> In x l.
Proof. revert l; induction n as [|n IH]; intros [|y l]; simpl; try tauto. auto. Qed.

Lemma limit_In {R} n (l : list R) x : In x (Sqlite.limit n l) -> In x l.
Proof. unfold Sqlite.limit. destruct (n <? 0); [auto | apply In_firstn]. Qed.

Lemma offset_In {R} k (l : list R) x : In x (Sqlite.offset k l) -> In x l.
Proof. apply In_skipn. Qed.

Lemma limit_length {R} n (l : list R) : 0 <= n -> Z.of_nat (List.length (Sqlite.limit n l)) <= n.
Proof.
  intros Hn. unfold Sqlite.limit. destruct (Z.ltb_spec n 0); [lia|].
  rewrite length_firstn. lia.
Qed.

Lemma offset_beyond {R} k (l : list R) : Z.of_nat (List.length l) <= k -> Sqlite.offset k l = [].
Proof. intros H. apply skipn_all2. lia. Qed.

Lemma limit_nil {R} n : Sqlite.limit n (@nil R) = [].
Proof. unfold Sqlite.limit. destruct (n <? 0); [reflexivity | apply firstn_nil]. Qed.

Lemma ceilDiv_spec total limit : 0 < limit ->
  (ceilDiv total limit - 1) * limit < total <= ceilDiv total limit * limit.
Proof.
  intros H. unfold ceilDiv.
  pose proof (Z.div_mod (- total) limit ltac:(lia)).
  pose proof (Z.mod_pos_bound (- total) limit H). nia.
Qed.

(** *** The clauses of a page in the range of the query schemas *)

Lemma offsetOf_exact page limit :
  1 <= page <= 2 ^ 53 -> 0 <= limit -> (page - 1) * limit < 2 ^ 53 ->
  offsetOf page limit = (page - 1) * limit.
Proof.
  intros Hp Hl Hx. unfold offsetOf, Js.minus, Js.times.
  rewrite (number_safe (page - 1)) by lia.
  apply number_safe. rewrite Z.abs_eq; [exact Hx | nia].
Qed.

Lemma offsetOf_safe page limit :
  inSchemaRange page limit ->
  0 <= offsetOf page limit <= 2 ^ 60
  /\ Js.nearest (offsetOf page limit) = offsetOf page limit.
Proof.
  intros [Hp Hl]. unfold Joi.MAX_SAFE_INTEGER in Hp.
  unfold offsetOf, Js.minus, Js.times.
  rewrite (number_safe (page - 1)) by lia.
  assert (Hx : 0 <= (page - 1) * limit <= 2 ^ 60).
  { assert (2 ^ 53 * 100 <= 2 ^ 60) by (vm_compute; discriminate). nia. }
  rewrite number_nonneg by lia. split; [split|].
  - apply nearest_nonneg; lia.
  - apply nearest_le_pow2; lia.
  - apply nearest_idem; lia.
Qed.

(** Beyond the rows of a table of fewer than 2^53 rows, the offset that is
    computed lies beyond them too. *)
Lemma offsetOf_beyond page limit total :
  inSchemaRange page limit -> total <= 2 ^ 53 -> total <= (page - 1) * limit ->
  total <= offsetOf page limit.
Proof.
  intros [Hp Hl] Ht Hx. unfold Joi.MAX_SAFE_INTEGER in Hp.
  unfold offsetOf, Js.minus, Js.times.
  rewrite (number_safe (page - 1)) by lia.
  rewrite number_nonneg by nia.
  destruct (Z.lt_ge_cases ((page - 1) * limit) (2 ^ 53)) as [H|H].
  - rewrite nearest_small; lia.
  - pose proof (nearest_ge _ H). lia.
Qed.

Lemma offsetClause_run offset w :
  0 <= offset <= 2 ^ 62 -> Js.nearest offset = offset ->
  Knex.offsetClause offset w = (Resolved (Some offset), w).
Proof.
  intros Ho Hd. unfold Knex.offsetClause.
  rewrite parseInt_number by (rewrite Z.abs_eq; lia).
  rewrite number_nonneg, Hd by lia.
  destruct (Z.ltb_spec offset 0); [lia | reflexivity].
Qed.

Lemma limitClause_safe limit : Z.abs limit < 2 ^ 53 -> Knex.limitClause limit = Some limit.
Proof. apply parseInt_safe. Qed.

Lemma isInteger_range v : - 2 ^ 63 < v < 2 ^ 63 -> Sqlite.isInteger v = true.
Proof.
  intros H. unfold Sqlite.isInteger. apply andb_true_intro; split; apply Z.ltb_lt; lia.
Qed.

Lemma window_run {R} limit offset (ordered : list R) w :
  Sqlite.isInteger limit = true -> Sqlite.isInteger offset = true ->
  Knex.window (Some limit) (Some offset) ordered w
  = (Resolved (Sqlite.limit limit (Sqlite.offset offset ordered)), w).
Proof. intros Hl Ho. unfold Knex.window. now rewrite Hl, Ho. Qed.

Lemma window_limit_run {R} limit (ordered : list R) w :
  Knex.window (Some limit) None ordered w
  = if Sqlite.isInteger limit then (Resolved (Sqlite.limit limit ordered), w)
    else (Rejected (mkError StorageError "SQLITE_MISMATCH: datatype mismatch"), w).
Proof. unfold Knex.window. rewrite andb_true_r. now destruct (Sqlite.isInteger limit). Qed.

Ltac schema_range H :=
  let Hp := fresh "Hpage" in let Hl := fresh "Hlimit" in
  pose proof H as [Hp Hl]; unfold Joi.MAX_SAFE_INTEGER in Hp;
  let O := fresh "Hoffset" in pose proof (offsetOf_safe _ _ H) as [O ?];
  assert (2 ^ 53 - 1 < 2 ^ 53) by reflexivity;
  assert (2 ^ 60 < 2 ^ 62) by reflexivity;
  assert (2 ^ 60 < 2 ^ 63) by reflexivity;
  assert (100 < 2 ^ 53) by reflexivity;
  assert (100 < 2 ^ 63) by reflexivity;
  assert (- 2 ^ 63 < 0) by reflexivity.

Lemma defaults_inSchemaRange : inSchemaRange 1 20.
Proof. repeat split; vm_compute; discriminate. Qed.

Lemma PostRepository_findAll options w :
  inSchemaRange (PostValidation.q_page options) (PostValidation.q_limit options) ->
  PostRepository.findAll PostService.db options w =
  (Resolved (mkPage (map (fun row => Post.new (Post.ofRow row)) (postPage options w))
               (Z.of_nat (List.length (matchingPosts options w)))
               (PostValidation.q_page options) (PostValidation.q_limit options)
               (ceilDiv (Z.of_nat (List.length (matchingPosts options w)))
                        (PostValidation.q_limit options))),
   logged w [Call PostRepo "findAll"; Sql "posts" SELECT; Sql "posts" SELECT]).
Proof.
  intros Hr. schema_range Hr.
  unfold PostRepository.findAll, PostService.db, postPage, matchingPosts, postsOf.
  cbv [wrap tryCatch bind ret emit getDatabase Knex.table Knex.count Knex.select].
  change (Js.times (Js.minus ?p 1) ?l) with (offsetOf p l).
  rewrite offsetClause_run by (try assumption; lia).
  rewrite limitClause_safe by (rewrite Z.abs_eq; lia).
  rewrite window_run by (apply isInteger_range; lia).
  rewrite !integerOf_safe by (rewrite Z.abs_eq; lia).
  unfold logged. cbn [database trace now]. now rewrite <- !app_assoc.
Qed.

Lemma SubredditRepository_findAll options w :
  inSchemaRange (SubredditValidation.q_page options) (SubredditValidation.q_limit options) ->
  SubredditRepository.findAll SubredditService.db options w =
  (Resolved (mkPage (map (fun row => Subreddit.new (Subreddit.ofRow row)) (subredditPage options w))
               (Z.of_nat (List.length (matchingSubreddits options w)))
               (SubredditValidation.q_page options) (SubredditValidation.q_limit options)
               (ceilDiv (Z.of_nat (List.length (matchingSubreddits options w)))
                        (SubredditValidation.q_limit options))),
   logged w [Call SubredditRepo "findAll"; Sql "subreddits" SELECT; Sql "subreddits" SELECT]).
Proof.
  intros Hr. schema_range Hr.
  unfold SubredditRepository.findAll, SubredditService.db, subredditPage,
    matchingSubreddits, subredditsOf.
  cbv [wrap tryCatch bind ret emit getDatabase Knex.table Knex.count Knex.select].
  change (Js.times (Js.minus ?p 1) ?l) with (offsetOf p l).
  rewrite offsetClause_run by (try assumption; lia).
  rewrite limitClause_safe by (rewrite Z.abs_eq; lia).
  rewrite window_run by (apply isInteger_range; lia).
  rewrite !integerOf_safe by (rewrite Z.abs_eq; lia).
  unfold logged. cbn [database trace now]. now rewrite <- !app_assoc.
Qed.

Lemma Joi_bounded_safe key lo hi dflt n z :
  - Joi.MAX_SAFE_INTEGER <= dflt <= Joi.MAX_SAFE_INTEGER ->
  Joi.bounded key lo hi dflt n = Valid z ->
  - Joi.MAX_SAFE_INTEGER <= z <= Joi.MAX_SAFE_INTEGER.
Proof.
  intros Hd. unfold Joi.bounded. destruct n as [m|]; [|now intros [= <-]].
  destruct (Js.isInfinite m); [discriminate|].
  destruct (Z.ltb_spec m (- Joi.MAX_SAFE_INTEGER)); [discriminate|].
  destruct (Z.ltb_spec Joi.MAX_SAFE_INTEGER m); [discriminate|]. cbn [orb].
  destruct (m <? lo); [discriminate|].
  destruct hi as [h|]; [destruct (h <? m); [discriminate|]|]; intros [= <-]; lia.
Qed.

Lemma Joi_bounded_range key lo hi dflt n z :
  lo <= dflt -> (forall h, hi = Some h -> dflt <= h) ->
  Joi.bounded key lo hi dflt n = Valid z ->
  lo <= z /\ (forall h, hi = Some h -> z <= h).
Proof.
  intros Hd Hh. unfold Joi.bounded. destruct n as [m|].
  - destruct (Js.isInfinite m); [discriminate|].
    destruct (_ || _); [discriminate|].
    destruct (Z.ltb_spec m lo); [discriminate|].
    destruct hi as [h|].
    + destruct (Z.ltb_spec h m); [discriminate|]. intros [= <-]. split; [lia|].
      intros h' [= <-]. lia.
    + intros [= <-]. split; [lia | discriminate].
  - intros [= <-]. split; [lia | exact Hh].
Qed.

Lemma PostValidation_query_hasLinks raw value :
  PostValidation.query raw = Valid value ->
  1 <= PostValidation.q_page value /\ 1 <= PostValidation.q_limit value <= 100 /\
  PostValidation.q_hasLinks value = PostValidation.hasLinks raw.
Proof.
  unfold PostValidation.query.
  destruct (Joi.bounded "page" _ _ _ _) as [p|] eqn:P; [|discriminate].
  destruct (Joi.bounded "limit" _ _ _ _) as [l|] eqn:L; [|discriminate].
  destruct (Joi.search _ _ _) as [s|]; [|discriminate].
  intros [= <-]. cbn.
  assert (P' : 1 <= p /\ (forall h, None = Some h -> p <= h)).
  { eapply Joi_bounded_range; [| | exact P]; [lia | discriminate]. }
  assert (L' : 1 <= l /\ (forall h, Some 100 = Some h -> l <= h)).
  { eapply Joi_bounded_range; [| | exact L]; [lia | intros h [= <-]; lia]. }
  destruct P' as [P' _], L' as [L1 L2]. specialize (L2 100 eq_refl).
  repeat split; try lia.
Qed.

Lemma SubredditValidation_query_bounds raw value :
  SubredditValidation.query raw = Valid value ->
  1 <= SubredditValidation.q_page value /\ 1 <= SubredditValidation.q_limit value <= 100.
Proof.
  unfold SubredditValidation.query.
  destruct (Joi.bounded "page" _ _ _ _) as [p|] eqn:P; [|discriminate].
  destruct (Joi.bounded "limit" _ _ _ _) as [l|] eqn:L; [|discriminate].
  destruct (Joi.search _ _ _) as [s|]; [|discriminate].
  destruct (Joi.oneOf "sortBy" _ _ _) as [sb|]; [|discriminate].
  destruct (Joi.oneOf "sortOrder" _ _ _) as [so|]; [|discriminate].
  intros [= <-]. cbn.
  assert (P' : 1 <= p /\ (forall h, None = Some h -> p <= h)).
  { eapply Joi_bounded_range; [| | exact P]; [lia | discriminate]. }
  assert (L' : 1 <= l /\ (forall h, Some 100 = Some h -> l <= h)).
  { eapply Joi_bounded_range; [| | exact L]; [lia | intros h [= <-]; lia]. }
  destruct P' as [P' _], L' as [L1 L2]. specialize (L2 100 eq_refl).
  repeat split; try lia.
Qed.

Lemma rethrow_run {A} (m : Async A) w : rethrow m w = m w.
Proof.
  unfold rethrow, tryCatch, throw. destruct (m w) as [[a|[k msg]] w']; reflexivity.
Qed.

Lemma PostValidation_query_range raw value :
  PostValidation.query raw = Valid value ->
  inSchemaRange (PostValidation.q_page value) (PostValidation.q_limit value).
Proof.
  intros V. destruct (PostValidation_query_hasLinks _ _ V) as (Hp & Hl & _).
  revert V. unfold PostValidation.query.
  destruct (Joi.bounded "page" _ _ _ _) as [p|] eqn:P; [|discriminate].
  destruct (Joi.bounded "limit" _ _ _ _) as [l|] eqn:L; [|discriminate].
  destruct (Joi.search _ _ _) as [s|]; [|discriminate].
  intros [= <-]. cbn in *. apply Joi_bounded_safe in P; [|vm_compute; intuition discriminate].
  unfold inSchemaRange. lia.
Qed.

Lemma SubredditValidation_query_range raw value :
  SubredditValidation.query raw = Valid value ->
  inSchemaRange (SubredditValidation.q_page value) (SubredditValidation.q_limit value).
Proof.
  intros V. destruct (SubredditValidation_query_bounds _ _ V) as (Hp & Hl).
  revert V. unfold SubredditValidation.query.
  destruct (Joi.bounded "page" _ _ _ _) as [p|] eqn:P; [|discriminate].
  destruct (Joi.bounded "limit" _ _ _ _) as [l|] eqn:L; [|discriminate].
  destruct (Joi.search _ _ _) as [s|]; [|discriminate].
  destruct (Joi.oneOf "sortBy" _ _ _) as [sb|]; [|discriminate].
  destruct (Joi.oneOf "sortOrder" _ _ _) as [so|]; [|discriminate].
  intros [= <-]. cbn in *. apply Joi_bounded_safe in P; [|vm_compute; intuition discriminate].
  unfold inSchemaRange. lia.
Qed.

Lemma getAllPosts_valid raw value w :
  PostValidation.query raw = Valid value ->
  PostService.getAllPosts raw w = PostRepository.findAll PostService.db value w.
Proof.
  intros V. unfold PostService.getAllPosts. rewrite rethrow_run.
  unfold bind at 1. rewrite (validate_valid _ _ _ _ V).
  unfold bind, ret. now destruct (PostRepository.findAll _ _ _) as [[r|e] w'].
Qed.

Lemma getAllSubreddits_valid raw value w :
  SubredditValidation.query raw = Valid value ->
  SubredditService.getAllSubreddits raw w = SubredditRepository.findAll SubredditService.db value w.
Proof.
  intros V. unfold SubredditService.getAllSubreddits. rewrite rethrow_run.
  unfold bind at 1. rewrite (validate_valid _ _ _ _ V).
  unfold bind, ret. now destruct (SubredditRepository.findAll _ _ _) as [[r|e] w'].
Qed.

(** C8 (amended).  For a page and a limit in the range of the query
    schemas (a safe integer from 1 on, and 1 to 100), [findAll] of the post
    and of the subreddit repository returns a page that echoes them; whose
    [total] is the number of rows that match the filters, whatever the page
    and the limit; whose [pages] is the ceiling of [total / limit]; that
    holds at most [limit] items; and that is empty when its offset lies at
    or beyond [total].  These are the queries that [getAllPosts] and
    [getAllSubreddits] pass on: they hand the validated options to
    [findAll] and return what it returns. *)
Theorem findAll_pagination (w : World) :
  (forall options,
     inSchemaRange (PostValidation.q_page options) (PostValidation.q_limit options) ->
     exists r,
       PostRepository.findAll PostService.db options w
         = (Resolved r, logged w [Call PostRepo "findAll"; Sql "posts" SELECT;
                                  Sql "posts" SELECT])
       /\ paginated r (Z.of_nat (List.length (matchingPosts options w)))
            (PostValidation.q_page options) (PostValidation.q_limit options)
       /\ page r = PostValidation.q_page options
       /\ limit r = PostValidation.q_limit options)
  /\
  (forall options,
     inSchemaRange (SubredditValidation.q_page options)
                   (SubredditValidation.q_limit options) ->
     exists r,
       SubredditRepository.findAll SubredditService.db options w
         = (Resolved r, logged w [Call SubredditRepo "findAll"; Sql "subreddits" SELECT;
                                  Sql "subreddits" SELECT])
       /\ paginated r (Z.of_nat (List.length (matchingSubreddits options w)))
            (SubredditValidation.q_page options) (SubredditValidation.q_limit options)
       /\ page r = SubredditValidation.q_page options
       /\ limit r = SubredditValidation.q_limit options)
  /\
  (forall raw value,
     PostValidation.query raw = Valid value ->
     inSchemaRange (PostValidation.q_page value) (PostValidation.q_limit value)
     /\ PostService.getAllPosts raw w = PostRepository.findAll PostService.db value w)
  /\
  (forall raw value,
     SubredditValidation.query raw = Valid value ->
     inSchemaRange (SubredditValidation.q_page value) (SubredditValidation.q_limit value)
     /\ SubredditService.getAllSubreddits raw w
        = SubredditRepository.findAll SubredditService.db value w).
Proof.
  split; [|split; [|split]].
  - intros options Hr. pose proof Hr as [Hpage Hlimit].
    eexists. split; [now apply PostRepository_findAll|].
    split; [|split; reflexivity].
    unfold paginated. cbn [total pages items]. repeat split.
    + apply ceilDiv_spec; lia.
    + apply ceilDiv_spec; lia.
    + rewrite length_map. apply limit_length. lia.
    + intros Hb. unfold postPage. rewrite offset_beyond; [now rewrite limit_nil|].
      unfold Sqlite.orderByIndexDesc. now rewrite orderBy_length, length_rev.
    + intros Ht Hb. unfold postPage. rewrite offset_beyond; [now rewrite limit_nil|].
      unfold Sqlite.orderByIndexDesc. rewrite orderBy_length, length_rev.
      now apply offsetOf_beyond.
  - intros options Hr. pose proof Hr as [Hpage Hlimit].
    eexists. split; [now apply SubredditRepository_findAll|].
    split; [|split; reflexivity].
    unfold paginated. cbn [total pages items]. repeat split.
    + apply ceilDiv_spec; lia.
    + apply ceilDiv_spec; lia.
    + rewrite length_map. apply limit_length. lia.
    + intros Hb. unfold subredditPage. rewrite offset_beyond; [now rewrite limit_nil|].
      now rewrite orderBy_length.
    + intros Ht Hb. unfold subredditPage. rewrite offset_beyond; [now rewrite limit_nil|].
      rewrite orderBy_length. now apply offsetOf_beyond.
  - intros raw value V. split.
    + now apply (PostValidation_query_range raw).
    + now apply getAllPosts_valid.
  - intros raw value V. split.
    + now apply (SubredditValidation_query_range raw).
    + now apply getAllSubreddits_valid.
Qed.

Lemma findAll_pagination_witness :
  (exists r,
     PostRepository.findAll PostService.db (PostValidation.mkQueryValue 3 10 None None) dealWorld
       = (Resolved r, logged dealWorld [Call PostRepo "findAll"; Sql "posts" SELECT;
                                        Sql "posts" SELECT])
     /\ paginated r 1 3 10) /\
  (exists r,
     SubredditRepository.findAll SubredditService.db
         (SubredditValidation.mkQueryValue 1 20 (Some "EW") "name" "asc") newsWorld
       = (Resolved r, logged newsWorld [Call SubredditRepo "findAll"; Sql "subreddits" SELECT;
                                        Sql "subreddits" SELECT])
     /\ paginated r 1 1 20).
Proof.
  split.
  - destruct (findAll_pagination dealWorld) as [H _].
    destruct (H (PostValidation.mkQueryValue 3 10 None None)) as (r & E & P & _).
    + repeat split; vm_compute; discriminate.
    + exists r. split; [exact E | exact P].
  - destruct (findAll_pagination newsWorld) as (_ & H & _).
    destruct (H (SubredditValidation.mkQueryValue 1 20 (Some "EW") "name" "asc"))
      as (r & E & P & _).
    + repeat split; vm_compute; discriminate.
    + exists r. split; [exact E | exact P].
Defined.

(** C8 as stated fails for [findAll] outside that range.  knex reads the
    limit and the offset with [parseInt]: page 10^21 with limit 1 has the
    offset [1e+21], which is read as [OFFSET 1], so the page comes back with
    a row although its offset lies beyond the two rows there are, and the
    page is echoed as [1].  And SQLite takes no offset from 2^63 on: page
    2^62 with limit 20 makes the query fail. *)
Lemma findAll_beyond_schema_range :
  (exists r w',
     PostRepository.findAll PostService.db
       (PostValidation.mkQueryValue (10 ^ 21) 1 None None) linkedWorld = (Resolved r, w')
     /\ total r = 2
     /\ total r <= (10 ^ 21 - 1) * 1
     /\ items r <> []
     /\ page r = 1) /\
  (exists e w',
     PostRepository.findAll PostService.db
       (PostValidation.mkQueryValue (2 ^ 62) 20 None None) linkedWorld = (Rejected e, w')).
Proof.
  split.
  - do 2 eexists. split; [vm_compute; reflexivity|].
    repeat split; try discriminate; vm_compute; discriminate.
  - do 2 eexists. vm_compute. reflexivity.
Qed.


(** ** Links *)

Lemma parseChars_escapeChar c tail :
  JSON.parseChars (JSON.escapeChar c ++ tail) = JSON.cons_fst c (JSON.parseChars tail).
Proof. destruct c as [[] [] [] [] [] [] [] []]; reflexivity. Qed.

Lemma parseChars_escape s rest :
  JSON.parseChars (JSON.escape s ++ String JSON.dquote rest) = Some (s, rest).
Proof.
  induction s as [|c s IH].
  - reflexivity.
  - cbn [JSON.escape]. rewrite append_assoc, parseChars_escapeChar, IH. reflexivity.
Qed.

Lemma quote_append s rest :
  JSON.quote s ++ rest = String JSON.dquote (JSON.escape s ++ String JSON.dquote rest).
Proof. unfold JSON.quote. cbn [append]. now rewrite append_assoc. Qed.

Lemma parseValue_quote fuel s rest :
  JSON.parseValue (S fuel) (JSON.quote s ++ rest) = Some (JString s, rest).
Proof.
  rewrite quote_append. cbn [JSON.parseValue].
  change (JSON.skipWs (String JSON.dquote ?x)) with (String JSON.dquote x).
  cbn. now rewrite parseChars_escape.
Qed.

Lemma parseElements_step fuel s :
  JSON.parseElements (S fuel) s =
  match JSON.parseValue fuel s with
  | None => None
  | Some (v, rest) =>
      match JSON.skipWs rest with
      | String "," r =>
          match JSON.parseElements fuel r with
          | Some (vs, r') => Some (v :: vs, r')
          | None => None
          end
      | String "]" r => Some ([v], r)
      | _ => None
      end
  end.
Proof. reflexivity. Qed.

Lemma parseElements_strings x l fuel rest :
  (List.length l + 2 <= fuel)%nat ->
  JSON.parseElements fuel (JSON.join "," (map JSON.quote (x :: l)) ++ String "]" rest)
  = Some (map JString (x :: l), rest).
Proof.
  revert x fuel. induction l as [|y l IH]; intros x fuel Hf.
  - destruct fuel as [|[|fuel]]; [simpl in Hf; lia .. |].
    cbn [map JSON.join]. rewrite parseElements_step, parseValue_quote. reflexivity.
  - destruct fuel as [|[|fuel]]; [simpl in Hf; lia .. |].
    change (JSON.join "," (map JSON.quote (x :: y :: l)))
      with (JSON.quote x ++ "," ++ JSON.join "," (map JSON.quote (y :: l))).
    rewrite !append_assoc, parseElements_step, parseValue_quote.
    change (JSON.skipWs ("," ++ ?t)) with (String "," t). cbv iota.
    rewrite IH by (simpl in *; lia). reflexivity.
Qed.

Lemma length_join_quote l : (List.length l <= String.length (JSON.join "," (map JSON.quote l)))%nat.
Proof.
  induction l as [|x [|y l] IH]; [simpl; lia | simpl; lia |].
  change (JSON.join "," (map JSON.quote (x :: y :: l)))
    with (JSON.quote x ++ "," ++ JSON.join "," (map JSON.quote (y :: l))).
  rewrite !length_append. simpl in *. lia.
Qed.

Lemma stringify_stringArray l :
  JSON.stringify (stringArray l) = "[" ++ JSON.join "," (map JSON.quote l) ++ "]".
Proof. unfold stringArray. cbn [JSON.stringify]. now rewrite map_map. Qed.

Lemma parseValue_array_step fuel s :
  JSON.parseValue (S fuel) (String "[" (String JSON.dquote s)) =
  match JSON.parseElements fuel (String JSON.dquote s) with
  | Some (items, rest) => Some (JArray items, rest)
  | None => None
  end.
Proof. reflexivity. Qed.

Lemma join_quote_head x l r :
  exists t, JSON.join "," (map JSON.quote (x :: l)) ++ r = String JSON.dquote t.
Proof. destruct l; cbn [map JSON.join]; unfold JSON.quote at 1; cbn [append]; eauto. Qed.

(** [JSON.parse] reads back what [JSON.stringify] writes for a sequence of
    strings. *)
Lemma parse_stringify_stringArray l :
  JSON.parse (JSON.stringify (stringArray l)) = Some (stringArray l).
Proof.
  rewrite stringify_stringArray. unfold JSON.parse.
  set (text := "[" ++ JSON.join "," (map JSON.quote l) ++ "]").
  assert (Hlen : (List.length l + 2 <= 2 * String.length text + 1)%nat).
  { subst text. cbn [append String.length]. rewrite length_append.
    pose proof (length_join_quote l). simpl. lia. }
  replace (2 * String.length text + 2)%nat with (S (2 * String.length text + 1)) by lia.
  generalize dependent (2 * String.length text + 1)%nat. intros fuel Hlen. subst text.
  destruct l as [|x l].
  - reflexivity.
  - cbn [append].
    destruct (join_quote_head x l "]") as [t Ht]. rewrite Ht, parseValue_array_step, <- Ht.
    rewrite parseElements_strings by (simpl in Hlen; lia). reflexivity.
Qed.

Lemma stringify_stringArray_empty l : JSON.stringify (stringArray l) = "[]" <-> l = [].
Proof.
  split; [|intros ->; reflexivity].
  rewrite stringify_stringArray. destruct l as [|x l]; [reflexivity|].
  destruct (join_quote_head x l "]") as [t Ht]. cbn [append]. rewrite Ht. discriminate.
Qed.
Lemma postPage_matching options w row :
  In row (postPage options w) -> In row (matchingPosts options w).
Proof.
  unfold postPage, Sqlite.orderByIndexDesc. intros H.
  apply limit_In, offset_In in H. apply orderBy_In in H. now apply in_rev.
Qed.

Lemma truthy_stringify l : JsString.truthy (JSON.stringify (stringArray l)) = true.
Proof. rewrite stringify_stringArray. reflexivity. Qed.

Lemma fromRow_links row l :
  p_links row = Some (JSON.stringify (stringArray l)) ->
  Post.links (Post.new (Post.ofRow row)) = stringArray l.
Proof.
  intros H. unfold Post.new, Post.ofRow. cbn [Post.links Post.d_links]. rewrite H.
  unfold Post.parseLinks. rewrite truthy_stringify. cbn [negb].
  now rewrite parse_stringify_stringArray.
Qed.

(** C10 (amended).  When every [links] column is NULL or the text
    [JSON.stringify] gives for a sequence of strings, which is what the
    repository writes, [getAllPosts] with [hasLinks: true] returns only
    posts whose [links] sequence is not empty; each of them comes from a row
    whose column is neither NULL nor the text of the empty array. *)
Theorem getAllPosts_hasLinks (raw : PostValidation.QueryInput) (value : PostValidation.QueryValue)
        (w : World) :
  PostValidation.query raw = Valid value ->
  PostValidation.hasLinks raw = Some true ->
  linksSerialized w ->
  exists r,
    PostService.getAllPosts raw w
      = (Resolved r, logged w [Call PostRepo "findAll"; Sql "posts" SELECT; Sql "posts" SELECT])
    /\ total r
        = Z.of_nat (List.length
            (filter (fun row => PostRepository.matches (PostValidation.q_search value) None row
                                && PostRepository.withLinks row)
                    (rows (postsOf w))))
    /\ forall post, In post (items r) ->
         Post.linksNonEmpty post = true /\
         exists row, In row (rows (postsOf w)) /\ PostRepository.withLinks row = true
                     /\ post = Post.new (Post.ofRow row).
Proof.
  intros V Hl Hs. rewrite (getAllPosts_valid _ _ _ V).
  rewrite PostRepository_findAll by exact (PostValidation_query_range _ _ V).
  destruct (PostValidation_query_hasLinks _ _ V) as (_ & _ & Hh). rewrite Hl in Hh.
  eexists. split; [reflexivity|]. cbn [items total]. split.
  - unfold matchingPosts. rewrite Hh. do 2 f_equal. apply filter_ext.
    intros row. unfold PostRepository.matches. now rewrite andb_true_r.
  - intros post Hin.
    apply in_map_iff in Hin as (row & <- & Hrow).
    apply postPage_matching in Hrow. unfold matchingPosts in Hrow.
    apply filter_In in Hrow as [Hrow Hm].
    unfold PostRepository.matches in Hm. rewrite Hh in Hm. apply andb_prop in Hm as [_ Hw].
    split; [| now exists row].
    destruct (Hs row Hrow) as [Hn | [l Hsl]].
    + unfold PostRepository.withLinks in Hw. now rewrite Hn in Hw.
    + unfold Post.linksNonEmpty. rewrite (fromRow_links _ _ Hsl).
      destruct l as [|x l]; [|reflexivity].
      unfold PostRepository.withLinks in Hw. rewrite Hsl in Hw. discriminate.
Qed.

Lemma getAllPosts_hasLinks_witness :
  exists r,
    PostService.getAllPosts (PostValidation.mkQueryInput None None None (Some true)) linkedWorld
      = (Resolved r, logged linkedWorld [Call PostRepo "findAll"; Sql "posts" SELECT;
                                         Sql "posts" SELECT])
    /\ total r = 1
    /\ items r = [Post.mk (Some 1) "Deal" None (stringArray ["https://a.example/x"])
                          (Some 0) (Some 0)].
Proof.
  destruct (getAllPosts_hasLinks (PostValidation.mkQueryInput None None None (Some true))
              (PostValidation.mkQueryValue 1 20 None (Some true)) linkedWorld eq_refl eq_refl)
    as (r & E & T & _).
  - intros row [<- | [<- | []]]; right.
    + exists ["https://a.example/x"]. reflexivity.
    + exists []. reflexivity.
  - exists r. split; [exact E|]. split; [exact T|].
    vm_compute in E. injection E as <-. reflexivity.
Defined.

(** C10 as stated fails: a row whose [links] column is the empty string
    passes the filter, and its links parse to the empty sequence. *)
Lemma blank_links_pass_filter : ~ onlyPostsWithLinks blankLinksWorld.
Proof.
  intros H.
  specialize (H _ _ eq_refl (Post.mk (Some 1) "Deal" None (JArray []) (Some 0) (Some 0))).
  discriminate H. now left.
Qed.

(** ** The form of the [links] column is an invariant of the post service *)

Section Triples.
Context {A B : Type}.

Lemma triple_ret (P : World -> Prop) (a : A) (Q : A -> World -> Prop) E :
  (forall w, P w -> Q a w) -> triple P (ret a) Q E.
Proof. intros H w Hw. now apply H. Qed.

Lemma triple_throw (P : World -> Prop) k msg (Q : A -> World -> Prop) (E : World -> Prop) :
  (forall w, P w -> E w) -> triple P (throw k msg) Q E.
Proof. intros H w Hw. now apply H. Qed.

Lemma triple_bind (P : World -> Prop) (m : Async A) (k : A -> Async B) R Q E :
  triple P m R E -> (forall a, triple (R a) (k a) Q E) -> triple P (bind m k) Q E.
Proof.
  intros Hm Hk w Hw. unfold bind. specialize (Hm w Hw).
  destruct (m w) as [[a|e] w']; [now apply Hk | exact Hm].
Qed.

Lemma triple_tryCatch (P : World -> Prop) (body : Async A) handler Q E' E :
  triple P body Q E' -> (forall e, triple E' (handler e) Q E) ->
  triple P (tryCatch body handler) Q E.
Proof.
  intros Hb Hh w Hw. unfold tryCatch. specialize (Hb w Hw).
  destruct (body w) as [[a|e] w']; [exact Hb | now apply Hh].
Qed.

Lemma triple_rethrow (P : World -> Prop) (body : Async A) Q E :
  triple P body Q E -> triple P (rethrow body) Q E.
Proof. intros H. eapply triple_tryCatch; [exact H|]. intros e. now apply triple_throw. Qed.

Lemma triple_wrap (P : World -> Prop) prefix (body : Async A) Q E :
  triple P body Q E -> triple P (wrap prefix body) Q E.
Proof. intros H. eapply triple_tryCatch; [exact H|]. intros e. now apply triple_throw. Qed.

Lemma triple_weaken (P P' : World -> Prop) (m : Async A) (Q Q' : A -> World -> Prop) E :
  triple P' m Q' E -> (forall w, P w -> P' w) -> (forall a w, Q' a w -> Q a w) ->
  triple P m Q E.
Proof.
  intros H HP HQ w Hw. specialize (H w (HP w Hw)).
  destruct (m w) as [[a|e] w']; auto.
Qed.
End Triples.

(** A fact that the precondition carries and that does not depend on the
    world. *)
Lemma triple_assume {A} (P : World -> Prop) (fact : Prop) (m : Async A) Q E :
  (fact -> triple P m Q E) -> triple (fun w => P w /\ fact) m Q E.
Proof. intros H w [Hw Hf]. now apply H. Qed.

Lemma triple_validate {A} (P : World -> Prop) prefix (v : Validated A) :
  triple P (validate prefix v) (fun a w => P w /\ v = Valid a) P.
Proof. intros w Hw. destruct v; simpl; auto. Qed.

Lemma triple_table db :
  keeps linksSerialized (Knex.table db).
Proof. intros w Hw. destruct db as [[]|]; exact Hw. Qed.

Lemma triple_first p :
  triple linksSerialized (Knex.first Knex.postsTable p)
    (fun r w => linksSerialized w /\ forall row, r = Some row -> rowSerialized row)
    linksSerialized.
Proof.
  intros w Hw. cbn. split; [exact Hw|].
  intros row Hr. apply find_some in Hr as [Hin _]. exact (Hw row Hin).
Qed.

Lemma triple_insert violation mk :
  (forall id t, rowSerialized (mk id t)) ->
  keeps linksSerialized (Knex.insert Knex.postsTable violation mk).
Proof.
  intros Hmk w Hw. unfold Knex.insert, bind, emit, getDatabase, getNow. cbn.
  destruct (violation _); cbn; [exact Hw|].
  intros row Hin. cbn in Hin.
  apply in_app_or in Hin as [Hin | [<- | []]]; [exact (Hw row Hin) | apply Hmk].
Qed.

Lemma triple_update p violation set :
  (forall t r, rowSerialized (set t r)) ->
  keeps linksSerialized (Knex.update Knex.postsTable p violation set).
Proof.
  intros Hset w Hw. unfold Knex.update, bind, emit, getDatabase, getNow. cbn.
  destruct (filter p _); cbn; [exact Hw|].
  destruct (violation _); cbn; [exact Hw|].
  intros row Hin. cbn in Hin. apply in_map_iff in Hin as (r & <- & Hr).
  destruct (p r); [apply Hset | exact (Hw r Hr)].
Qed.

Lemma triple_del p :
  keeps linksSerialized (Knex.del Knex.postsTable p).
Proof.
  intros w Hw. cbn. intros row Hin. cbn in Hin.
  apply filter_In in Hin as [Hin _]. exact (Hw row Hin).
Qed.

Lemma fromRow_serialized row :
  rowSerialized row -> postLinksSerialized (Post.new (Post.ofRow row)).
Proof.
  intros [Hn | [l Hl]].
  - exists []. unfold Post.new, Post.ofRow. cbn. now rewrite Hn.
  - exists l. now apply fromRow_links.
Qed.

Lemma triple_emit_inv ev : keeps linksSerialized (emit ev).
Proof. intros w Hw. exact Hw. Qed.

Lemma triple_findById db n :
  triple linksSerialized (PostRepository.findById db n)
    (fun r w => linksSerialized w /\ forall p, r = Some p -> postLinksSerialized p) linksSerialized.
Proof.
  unfold PostRepository.findById.
  eapply triple_bind; [apply triple_emit_inv | intros ?].
  apply triple_wrap.
  eapply triple_bind; [apply triple_table | intros ?].
  eapply triple_bind; [apply triple_first | intros row].
  apply triple_ret. intros w [Hw Hrow]. split; [exact Hw|].
  intros p Hp. destruct row as [r|]; [|discriminate]. injection Hp as <-.
  apply fromRow_serialized. now apply Hrow.
Qed.

Lemma triple_findById_inv db n :
  keeps linksSerialized (PostRepository.findById db n).
Proof. eapply triple_weaken; [apply triple_findById | auto | cbn; tauto]. Qed.

Lemma new_links_array (data : Post.Data) l :
  Post.d_links data = stringArray l -> Post.links (Post.new data) = stringArray l.
Proof. intros H. unfold Post.new. cbn. rewrite H. reflexivity. Qed.

Lemma triple_create db data :
  (exists l, Post.d_links data = stringArray l) ->
  keeps linksSerialized (PostRepository.create db data).
Proof.
  intros [l Hl]. unfold PostRepository.create.
  eapply triple_bind; [apply triple_emit_inv | intros ?].
  apply triple_wrap.
  eapply triple_bind; [apply triple_table | intros ?].
  eapply triple_bind; [apply triple_insert | intros id; apply triple_findById_inv].
  intros id t. right. exists l. cbn [p_links Post.toDatabase Post.c_links].
  now rewrite (new_links_array _ _ Hl).
Qed.

Lemma merge_links existing patch :
  postLinksSerialized existing ->
  exists l, Post.d_links (PostRepository.merge (Post.spread existing) patch) = stringArray l.
Proof.
  intros [l Hl]. unfold PostRepository.merge. cbn.
  destruct (PostRepository.patch_links patch) as [l'|]; [now exists l' | now exists l].
Qed.

Lemma triple_update_repo db n patch :
  keeps linksSerialized (PostRepository.update db n patch).
Proof.
  unfold PostRepository.update.
  eapply triple_bind; [apply triple_emit_inv | intros ?].
  apply triple_wrap.
  eapply triple_bind; [apply triple_findById | intros existing].
  destruct existing as [existing|]; apply triple_assume; intros Hex.
  - destruct (merge_links existing patch (Hex _ eq_refl)) as [l Hl]. cbv zeta.
    eapply triple_bind; [apply triple_table | intros ?].
    eapply triple_bind; [apply triple_update | intros c].
    + intros t r. right. exists l. cbn [p_links Post.toDatabase Post.c_links].
      now rewrite (new_links_array _ _ Hl).
    + destruct (c =? 0); [now apply triple_ret | apply triple_findById_inv].
  - now apply triple_ret.
Qed.

Lemma triple_delete_repo db n :
  keeps linksSerialized (PostRepository.delete db n).
Proof.
  unfold PostRepository.delete.
  eapply triple_bind; [apply triple_emit_inv | intros ?].
  apply triple_wrap.
  eapply triple_bind; [apply triple_table | intros ?].
  eapply triple_bind; [apply triple_del | intros c]. now apply triple_ret.
Qed.

Lemma triple_first_inv p :
  keeps linksSerialized (Knex.first Knex.postsTable p).
Proof. eapply triple_weaken; [apply triple_first | auto | cbn; tauto]. Qed.

Lemma triple_validate_inv {A} prefix (v : Validated A) :
  keeps linksSerialized (validate prefix v).
Proof. eapply triple_weaken; [apply triple_validate | auto | cbn; tauto]. Qed.

Lemma triple_existsByTitle db title :
  keeps linksSerialized (PostRepository.existsByTitle db title).
Proof.
  unfold PostRepository.existsByTitle.
  eapply triple_bind; [apply triple_emit_inv | intros ?].
  apply triple_wrap.
  eapply triple_bind; [apply triple_table | intros ?].
  eapply triple_bind; [apply triple_first_inv | intros r].
  now apply triple_ret.
Qed.

(** The post service keeps the [links] columns serialized: whatever
    [createPost], [updatePost] and [deletePost] do, and whether they return
    or throw, a world in which every column is NULL or a serialized
    sequence stays one. *)
Lemma post_service_keeps_links_serialized :
  (forall isUri input,
     keeps linksSerialized (PostService.createPost isUri input)) /\
  (forall isUri id patch,
     keeps linksSerialized (PostService.updatePost isUri id patch)) /\
  (forall id, keeps linksSerialized (PostService.deletePost id)).
Proof.
  repeat split.
  - intros isUri input. unfold PostService.createPost. apply triple_rethrow.
    eapply triple_bind; [apply triple_validate_inv | intros value].
    eapply triple_bind; [apply triple_existsByTitle | intros dup].
    destruct dup; [now apply triple_throw|].
    eapply triple_bind; [apply triple_create; now eexists | intros created].
    destruct created; [now apply triple_ret | now apply triple_throw].
  - intros isUri id patch. unfold PostService.updatePost. apply triple_rethrow.
    eapply triple_bind; [apply triple_validate_inv | intros value].
    eapply triple_bind; [apply triple_findById_inv | intros existing].
    destruct existing as [existing|]; [|now apply triple_throw].
    eapply triple_bind; [| intros title; apply triple_update_repo].
    destruct (PostValidation.uv_title value) as [v|]; [|now apply triple_ret].
    destruct (negb _); [|now apply triple_ret].
    eapply triple_bind; [apply triple_existsByTitle | intros dup].
    destruct dup; [now apply triple_throw | now apply triple_ret].
  - intros id. unfold PostService.deletePost. apply triple_rethrow.
    destruct (Js.truthy id), (Js.parseInt id); try now apply triple_throw.
    eapply triple_bind; [apply triple_findById_inv | intros existing].
    destruct existing; [|now apply triple_throw].
    eapply triple_bind; [apply triple_delete_repo | intros deleted].
    destruct deleted; [now apply triple_ret | now apply triple_throw].
Qed.

Example emptyWorld_links_serialized : linksSerialized emptyWorld.
Proof. intros row []. Qed.

(* ================================================================== *)
(** * Part III: further properties                                     *)
(* ================================================================== *)

(** ** The preview of a post *)

Lemma length_take n s : String.length (JsString.take n s) = Nat.min n (String.length s).
Proof.
  revert s; induction n as [|n IH]; intros [|c s]; simpl; try reflexivity.
  now rewrite IH.
Qed.

Lemma substring_from_start s m :
  JsString.substring s 0 m = JsString.take (Z.to_nat m) s.
Proof.
  unfold JsString.substring. cbv zeta.
  set (len := Z.of_nat (String.length s)).
  assert (0 <= len) by (subst len; lia).
  replace (Z.min (Z.max 0 0) len) with 0 by lia.
  replace (Z.min 0 (Z.min (Z.max m 0) len)) with 0 by lia.
  replace (Z.max 0 (Z.min (Z.max m 0) len)) with (Z.min (Z.max m 0) len) by lia.
  rewrite Z.sub_0_r. cbn [Z.to_nat JsString.drop].
  destruct (Z.le_gt_cases m len) as [Hm|Hm].
  - f_equal. lia.
  - assert (E : forall n k t, (String.length t <= n)%nat -> (String.length t <= k)%nat ->
                  JsString.take n t = JsString.take k t).
    { induction n as [|n IH]; intros [|k] [|c t]; simpl; intros; try reflexivity; try lia.
      f_equal. apply IH; lia. }
    apply E; subst len; lia.
Qed.

Lemma length_append_dots s : String.length (s ++ "...") = (String.length s + 3)%nat.
Proof. now rewrite length_append. Qed.

Lemma endsWith_append s p : endsWith (s ++ p) p = true.
Proof.
  unfold endsWith. rewrite length_append.
  replace (String.length s + String.length p - String.length p)%nat with (String.length s) by lia.
  induction s as [|c s IH]; simpl; [apply String.eqb_refl | exact IH].
Qed.

Lemma take_drop n s : JsString.take n s ++ JsString.drop n s = s.
Proof.
  revert s; induction n as [|n IH]; intros [|c s]; simpl; try reflexivity.
  now rewrite IH.
Qed.

(** X1.  The preview is never longer than [maxLength + 3] characters (153 with
    the default).  It is empty for an empty text and the whole text when that
    has at most [maxLength] characters.  A longer text is cut: the preview is
    then the first [maxLength] characters of the text (none when [maxLength]
    is negative), trimmed, followed by three dots, which can make it up to
    three characters longer than the text. *)
Theorem getPreviewText_bounded (x : Post.t) (maxLength : option Z) :
  let m := match maxLength with Some m => m | None => 150 end in
  let text := previewSource x in
  let preview := Post.getPreviewText x maxLength in
  Z.of_nat (String.length preview) <= Z.max m 0 + 3
  /\ (Z.of_nat (String.length text) <= m -> preview = text)
  /\ (text <> "" -> m < Z.of_nat (String.length text) ->
      endsWith preview "..." = true
      /\ Z.of_nat (String.length preview) <= Z.of_nat (String.length text) + 3)
  /\ (text = "" -> preview = "")
  /\ (text <> "" -> m < Z.of_nat (String.length text) ->
      exists cut rest,
        text = cut ++ rest
        /\ Z.of_nat (String.length cut) = Z.max m 0
        /\ preview = JsString.trim cut ++ "...").
Proof.
  intros m text preview. subst preview. unfold Post.getPreviewText.
  fold m. fold (previewSource x). fold text.
  destruct (JsString.truthy text) eqn:T; cbn [negb].
  - assert (N : text <> "") by (intros E; rewrite E in T; discriminate T).
    destruct (Z.leb_spec (Z.of_nat (String.length text)) m) as [L|L].
    + repeat split; try lia; try contradiction.
    + rewrite substring_from_start.
      pose proof (length_trim (JsString.take (Z.to_nat m) text)) as Ht.
      rewrite length_take in Ht.
      split; [|split; [|split; [|split]]]; rewrite ?length_append_dots; try lia.
      * intros _ _. split; [apply endsWith_append | lia].
      * contradiction.
      * intros _ _. exists (JsString.take (Z.to_nat m) text), (JsString.drop (Z.to_nat m) text).
        split; [symmetry; apply take_drop|]. split; [|reflexivity].
        rewrite length_take. lia.
  - assert (E : text = "").
    { unfold JsString.truthy in T. now destruct (String.eqb_spec text ""). }
    rewrite E. cbn. repeat split; intros; try reflexivity; try contradiction; lia.
Qed.

Lemma getPreviewText_bounded_witness :
  Post.getPreviewText (Post.mk (Some 1) "Deal" (Some "  a long description  ") (JArray [])
                         None None) (Some 8)
  = "a long..." /\
  Post.getPreviewText (Post.mk (Some 1) "Deal" None (JArray []) None None) None = "Deal".
Proof.
  split.
  - destruct (getPreviewText_bounded
                (Post.mk (Some 1) "Deal" (Some "  a long description  ") (JArray [])
                   None None) (Some 8)) as (_ & _ & _ & _ & H).
    destruct H as (cut & rest & E & L & P); [discriminate | vm_compute; reflexivity |].
    reflexivity.
  - destruct (getPreviewText_bounded (Post.mk (Some 1) "Deal" None (JArray []) None None) None)
      as (_ & H & _).
    apply H. cbn. lia.
Defined.

(** ** The links of a post *)

Lemma setLinks_same x : Post.setLinks x (Post.links x) = x.
Proof. now destruct x. Qed.

Lemma isLink_In link items :
  existsb (Post.isLink link) items = true <-> In (JString link) items.
Proof.
  rewrite existsb_exists. split.
  - intros (l & Hin & Hl). destruct l; try discriminate.
    cbn in Hl. apply String.eqb_eq in Hl. now subst.
  - intros H. exists (JString link). split; [exact H | apply String.eqb_refl].
Qed.

Lemma isLink_spec link l : Post.isLink link l = true <-> l = JString link.
Proof.
  split.
  - destruct l; try discriminate. cbn. intros H. apply String.eqb_eq in H. now subst.
  - intros ->. apply String.eqb_refl.
Qed.

(** X2.  [addLink] on a post whose links are a sequence returns the post with a
    sequence that holds the link when the link is a valid URL, that is the
    old sequence when the link is not valid or was there already, and that
    has no duplicate when the old one had none.  Adding the same link again
    changes nothing. *)
Theorem addLink_once (isValidLink : string -> bool) (x : Post.t) (link : string)
        (items : list Json) :
  Post.links x = JArray items ->
  exists items',
    Post.addLink isValidLink x link = Resolved (Post.setLinks x (JArray items'))
    /\ (isValidLink link = true -> In (JString link) items')
    /\ (isValidLink link = false \/ In (JString link) items -> items' = items)
    /\ (isValidLink link = true -> ~ In (JString link) items ->
        items' = (items ++ [JString link])%list)
    /\ (NoDup items -> NoDup items')
    /\ Post.addLink isValidLink (Post.setLinks x (JArray items')) link
       = Resolved (Post.setLinks x (JArray items')).
Proof.
  intros Hl. unfold Post.addLink. rewrite Hl.
  destruct (isValidLink link) eqn:V.
  - destruct (existsb (Post.isLink link) items) eqn:E.
    + apply isLink_In in E. exists items. rewrite <- Hl, setLinks_same.
      repeat split; auto.
      * intros _ C. contradiction.
      * rewrite Hl. apply isLink_In in E. now rewrite E.
    + assert (N : ~ In (JString link) items).
      { intros C. apply isLink_In in C. congruence. }
      exists (items ++ [JString link])%list. repeat split; auto.
      * intros _. apply in_or_app. right. now left.
      * intros [C|C]; [discriminate | contradiction].
      * intros D. apply NoDup_app; [exact D | repeat constructor; intros [] | ].
        intros a Ha [<-|[]]. contradiction.
      * cbn [Post.links Post.setLinks].
        assert (T : existsb (Post.isLink link) (items ++ [JString link])%list = true).
        { apply isLink_In, in_or_app. right. now left. }
        now rewrite T.
  - exists items. rewrite <- Hl, setLinks_same. repeat split; auto; discriminate.
Qed.

Lemma addLink_once_witness :
  Post.addLink anyUri (Post.mk (Some 1) "Deal" None (stringArray ["https://a.example/x"])
                         None None) "https://b.example/y"
  = Resolved (Post.mk (Some 1) "Deal" None
                (stringArray ["https://a.example/x"; "https://b.example/y"]) None None).
Proof.
  destruct (addLink_once anyUri
              (Post.mk (Some 1) "Deal" None (stringArray ["https://a.example/x"]) None None)
              "https://b.example/y" [JString "https://a.example/x"] eq_refl)
    as (items' & E & _ & _ & A & _).
  rewrite E, A; [reflexivity | reflexivity |].
  intros [C|[]]. discriminate C.
Defined.

Lemma filter_all {A} (p : A -> bool) (l : list A) :
  (forall a, In a l -> p a = true) -> filter p l = l.
Proof.
  induction l as [|a l IH]; intros H; [reflexivity|]. cbn.
  rewrite (H a (or_introl eq_refl)). f_equal. apply IH. intros b Hb. apply H. now right.
Qed.

(** X3.  [removeLink] on a post whose links are a sequence removes every
    occurrence of the link and keeps every other element, as often as it
    occurs and in the order of the sequence: the new links are the old ones
    filtered by "is not the link".  It undoes an [addLink] that added the
    link. *)
Theorem removeLink_removes (isValidLink : string -> bool) (x : Post.t) (link : string)
        (items : list Json) :
  Post.links x = JArray items ->
  exists items',
    Post.removeLink x link = Resolved (Post.setLinks x (JArray items'))
    /\ ~ In (JString link) items'
    /\ (forall l, In l items' <-> In l items /\ l <> JString link)
    /\ (~ In (JString link) items -> items' = items)
    /\ (isValidLink link = true -> ~ In (JString link) items ->
        exists y, Post.addLink isValidLink x link = Resolved y
                  /\ Post.removeLink y link = Resolved x)
    /\ (exists keep : Json -> bool,
          (forall l, keep l = true <-> l <> JString link)
          /\ items' = filter keep items)
    /\ (forall before after,
          items = (before ++ after)%list ->
          exists before' after',
            items' = (before' ++ after')%list
            /\ (forall l, In l before' <-> In l before /\ l <> JString link)
            /\ (forall l, In l after' <-> In l after /\ l <> JString link)).
Proof.
  intros Hl. unfold Post.removeLink. rewrite Hl.
  set (keep := fun l => negb (Post.isLink link l)).
  assert (K : forall l, keep l = true <-> l <> JString link).
  { intros l. unfold keep. rewrite negb_true_iff, <- not_true_iff_false, isLink_spec. tauto. }
  assert (F : ~ In (JString link) items -> filter keep items = items).
  { intros N. apply filter_all. intros a Ha. apply K. now intros ->. }
  assert (M : forall l0, forall l, In l (filter keep l0) <-> In l l0 /\ l <> JString link).
  { intros l0 l. rewrite filter_In, K. tauto. }
  exists (filter keep items). split; [reflexivity|].
  split; [|split; [|split; [|split; [|split]]]].
  - intros C. apply M in C. now destruct C.
  - apply M.
  - exact F.
  - intros V N. unfold Post.addLink. rewrite Hl, V.
    assert (E : existsb (Post.isLink link) items = false).
    { apply not_true_is_false. intros C. apply isLink_In in C. contradiction. }
    rewrite E. eexists. split; [reflexivity|].
    cbn [Post.links Post.setLinks]. rewrite filter_app, F by exact N. cbn.
    assert (D : keep (JString link) = false).
    { unfold keep. cbn. now rewrite String.eqb_refl. }
    rewrite D, List.app_nil_r, <- Hl. now destruct x.
  - exists keep. split; [exact K | reflexivity].
  - intros before after ->. exists (filter keep before), (filter keep after).
    split; [apply filter_app|]. split; apply M.
Qed.

Lemma removeLink_removes_witness :
  Post.removeLink (Post.mk (Some 1) "Deal" None (stringArray ["a:b"; "c:d"; "a:b"]) None None)
                  "a:b"
  = Resolved (Post.mk (Some 1) "Deal" None (stringArray ["c:d"]) None None).
Proof.
  destruct (removeLink_removes anyUri
              (Post.mk (Some 1) "Deal" None (stringArray ["a:b"; "c:d"; "a:b"]) None None)
              "a:b" _ eq_refl) as (items' & E & _).
  rewrite E. vm_compute in E. injection E as <-. reflexivity.
Defined.

(** ** Static validators and schemas *)

Lemma isValid_chain (v : JsValue) (ok : string -> bool) :
  Js.truthy (if negb (Js.truthy v) then v
             else match v with
                  | VString s => VBoolean (ok s)
                  | _ => VBoolean false
                  end) = true ->
  exists s, v = VString s /\ s <> "" /\ ok s = true.
Proof.
  destruct (Js.truthy v) eqn:T; cbn [negb]; [|congruence].
  destruct v as [| | b | n | | s | f e]; cbn; try discriminate.
  intros H. exists s. repeat split; [|exact H].
  intros ->. discriminate T.
Qed.

Lemma Joi_required_text key max emptyMsg maxMsg s :
  s <> "" -> Z.of_nat (String.length s) <= max ->
  Joi.required key max emptyMsg maxMsg (VString s) = Valid s.
Proof.
  intros Hs Hl. cbn. unfold Joi.text. rewrite (truthy_nonempty _ Hs). cbn.
  now destruct (Z.ltb_spec max (Z.of_nat (String.length s))); [lia|].
Qed.

Lemma trim_nonempty s : (0 <? Z.of_nat (String.length (JsString.trim s))) = true ->
  JsString.trim s <> "".
Proof. intros H E. rewrite E in H. discriminate H. Qed.

(** X4.  Whatever the static validators [isValidKeyword], [isValidName] and
    [isValidTitle] accept is a string that the create schema of the entity
    accepts too, unchanged, and whose trimmed form is not empty. *)
Theorem static_validators_imply_schemas :
  (forall v, Js.truthy (Keyword.isValidKeyword v) = true ->
     exists s, v = VString s /\ JsString.trim s <> "" /\
       KeywordValidation.create (KeywordValidation.mkCreateInput v)
         = Valid (KeywordValidation.mkCreateValue s)) /\
  (forall v, Js.truthy (Subreddit.isValidName v) = true ->
     exists s, v = VString s /\ JsString.trim s <> "" /\
       SubredditValidation.create (SubredditValidation.mkCreateInput v)
         = Valid (SubredditValidation.mkCreateValue s)) /\
  (forall isUri v, Js.truthy (Post.isValidTitle v) = true ->
     exists s, v = VString s /\ JsString.trim s <> "" /\
       PostValidation.create isUri (PostValidation.mkCreateInput v VUndefined None)
         = Valid (PostValidation.mkCreateValue s None [])).
Proof.
  repeat split.
  - intros v H. apply isValid_chain in H as (s & -> & Hs & H).
    apply andb_prop in H as [Ht Hl]. exists s. repeat split; [now apply trim_nonempty|].
    unfold KeywordValidation.create. cbn [KeywordValidation.keyword].
    rewrite Joi_required_text; [reflexivity | exact Hs |].
    apply Z.ltb_lt in Hl. lia.
  - intros v H. apply isValid_chain in H as (s & -> & Hs & H).
    apply andb_prop in H as [Ht Hl]. exists s. repeat split; [now apply trim_nonempty|].
    unfold SubredditValidation.create. cbn [SubredditValidation.name].
    rewrite Joi_required_text; [reflexivity | exact Hs |].
    apply Z.ltb_lt in Hl. lia.
  - intros isUri v H. apply isValid_chain in H as (s & -> & Hs & H).
    apply andb_prop in H as [Ht Hl]. exists s. repeat split; [now apply trim_nonempty|].
    unfold PostValidation.create. cbn [PostValidation.title].
    rewrite Joi_required_text; [reflexivity | exact Hs |].
    apply Z.leb_le in Hl. lia.
Qed.

Lemma static_validators_imply_schemas_witness :
  SubredditValidation.create (SubredditValidation.mkCreateInput (VString " r/News "))
    = Valid (SubredditValidation.mkCreateValue " r/News ").
Proof.
  destruct static_validators_imply_schemas as (_ & H & _).
  destruct (H (VString " r/News ") eq_refl) as (s & E & _ & V).
  injection E as <-. exact V.
Defined.

(** ** Running computations step by step *)

Lemma bind_resolved {A B} (m : Async A) (k : A -> Async B) w a w' :
  m w = (Resolved a, w') -> bind m k w = k a w'.
Proof. unfold bind. now intros ->. Qed.

Lemma bind_rejected {A B} (m : Async A) (k : A -> Async B) w e w' :
  m w = (Rejected e, w') -> bind m k w = (Rejected e, w').
Proof. unfold bind. now intros ->. Qed.

Lemma wrap_resolved {A} prefix (m : Async A) w a w' :
  m w = (Resolved a, w') -> wrap prefix m w = (Resolved a, w').
Proof. unfold wrap, tryCatch. now intros ->. Qed.

Lemma wrap_rejected {A} prefix (m : Async A) w e w' :
  m w = (Rejected e, w') ->
  wrap prefix m w = (Rejected (mkError RepositoryError (prefix ++ message e)), w').
Proof. unfold wrap, tryCatch. now intros ->. Qed.

Lemma count_positive {R} (p : R -> bool) (l : list R) :
  (0 <? Z.of_nat (List.length (filter p l))) = existsb p l.
Proof.
  induction l as [|a l IH]; [reflexivity|]. cbn.
  destruct (p a); cbn [List.length orb]; [|exact IH].
  apply Z.ltb_lt. lia.
Qed.

Lemma existsb_find {R} (p : R -> bool) (l : list R) :
  existsb p l = match find p l with Some _ => true | None => false end.
Proof. induction l as [|a l IH]; [reflexivity|]. cbn. now destruct (p a). Qed.

Lemma find_filter_neg {R} (p : R -> bool) (l : list R) :
  find p (filter (fun r => negb (p r)) l) = None.
Proof.
  apply find_absent. intros x Hx. apply filter_In in Hx as [_ Hx].
  now apply negb_true_iff in Hx.
Qed.

Section KnexRuns.
Context {R : Type} (ref : Knex.TableRef R).

Lemma Knex_first_run p w :
  Knex.first ref p w
  = (Resolved (find p (rows (tableOf ref w))), logged w [Sql (Knex.tableName ref) SELECT]).
Proof. reflexivity. Qed.

Lemma Knex_select_run p w :
  Knex.select ref p w
  = (Resolved (filter p (rows (tableOf ref w))), logged w [Sql (Knex.tableName ref) SELECT]).
Proof. reflexivity. Qed.

Lemma Knex_del_run p w :
  Knex.del ref p w
  = (Resolved (Z.of_nat (List.length (filter p (rows (tableOf ref w))))),
     withTable ref w
       (mkTable (filter (fun r => negb (p r)) (rows (tableOf ref w))) (seq (tableOf ref w)))
       [Sql (Knex.tableName ref) DELETE]).
Proof. reflexivity. Qed.

Lemma Knex_insert_run violation mk w :
  Knex.insert ref violation mk w
  = match violation (rows (tableOf ref w)) with
    | Some msg => (Rejected (mkError StorageError msg),
                   logged w [Sql (Knex.tableName ref) INSERT])
    | None =>
        (Resolved (freshId ref (tableOf ref w)),
         withTable ref w
           (mkTable (rows (tableOf ref w) ++ [mk (freshId ref (tableOf ref w)) (now w)])
                    (freshId ref (tableOf ref w)))
           [Sql (Knex.tableName ref) INSERT])
    end.
Proof.
  unfold Knex.insert, bind, emit, getDatabase, getNow, tableOf. cbn.
  destruct (violation _); reflexivity.
Qed.

Lemma Knex_update_run p violation set w :
  Knex.update ref p violation set w
  = match filter p (rows (tableOf ref w)) with
    | [] => (Resolved 0, logged w [Sql (Knex.tableName ref) UPDATE])
    | hit :: hits =>
        match violation (filter (fun r => negb (p r)) (rows (tableOf ref w))) with
        | Some msg => (Rejected (mkError StorageError msg),
                       logged w [Sql (Knex.tableName ref) UPDATE])
        | None =>
            (Resolved (Z.of_nat (List.length (hit :: hits))),
             withTable ref w
               (mkTable (map (fun r => if p r then set (now w) r else r) (rows (tableOf ref w)))
                        (seq (tableOf ref w)))
               [Sql (Knex.tableName ref) UPDATE])
        end
    end.
Proof.
  unfold Knex.update, bind, emit, getDatabase, getNow, tableOf. cbn.
  destruct (filter p _); [reflexivity|]. destruct (violation _); reflexivity.
Qed.
End KnexRuns.

(** ** Deleting *)

Lemma SubredditRepository_delete_run n w :
  SubredditRepository.delete SubredditService.db n w =
  (Resolved (existsb (fun r => sr_id r =? n) (rows (subredditsOf w))),
   withTable Knex.subredditsTable w
     (mkTable (filter (fun r => negb (sr_id r =? n)) (rows (subredditsOf w)))
              (seq (subredditsOf w)))
     [Call SubredditRepo "delete"; Sql "subreddits" DELETE]).
Proof.
  unfold SubredditRepository.delete, SubredditService.db.
  cbv [wrap tryCatch bind ret emit Knex.table]. rewrite Knex_del_run.
  rewrite count_positive. unfold withTable, logged, tableOf, subredditsOf. cbn.
  now rewrite <- app_assoc.
Qed.

Lemma PostRepository_delete_run n w :
  PostRepository.delete PostService.db n w =
  (Resolved (existsb (fun r => p_id r =? n) (rows (postsOf w))),
   withTable Knex.postsTable w
     (mkTable (filter (fun r => negb (p_id r =? n)) (rows (postsOf w))) (seq (postsOf w)))
     [Call PostRepo "delete"; Sql "posts" DELETE]).
Proof.
  unfold PostRepository.delete, PostService.db.
  cbv [wrap tryCatch bind ret emit Knex.table]. rewrite Knex_del_run.
  rewrite count_positive. unfold withTable, logged, tableOf, postsOf. cbn.
  now rewrite <- app_assoc.
Qed.

Lemma deleteSubreddit_present id n row w :
  Js.truthy id = true -> Js.parseInt id = Some n -> subredditById n w = Some row ->
  SubredditService.deleteSubreddit id w =
  (Resolved true,
   withTable Knex.subredditsTable w
     (mkTable (filter (fun r => negb (sr_id r =? n)) (rows (subredditsOf w)))
              (seq (subredditsOf w)))
     [Call SubredditRepo "findById"; Sql "subreddits" SELECT;
      Call SubredditRepo "delete"; Sql "subreddits" DELETE]).
Proof.
  intros Ht Hp Hrow. unfold SubredditService.deleteSubreddit. rewrite Ht, Hp, rethrow_run.
  rewrite (bind_resolved _ _ _ _ _ (SubredditRepository_findById n w)), Hrow.
  cbn [Subreddit.fromDatabase].
  rewrite (bind_resolved _ _ _ _ _ (SubredditRepository_delete_run n _)).
  change (rows (subredditsOf (logged w ?e))) with (rows (subredditsOf w)).
  rewrite existsb_find. unfold subredditById in Hrow. rewrite Hrow.
  unfold ret, withTable, logged. cbn. now rewrite <- app_assoc.
Qed.

Lemma deletePost_present id n row w :
  Js.truthy id = true -> Js.parseInt id = Some n -> postById n w = Some row ->
  PostService.deletePost id w =
  (Resolved true,
   withTable Knex.postsTable w
     (mkTable (filter (fun r => negb (p_id r =? n)) (rows (postsOf w))) (seq (postsOf w)))
     [Call PostRepo "findById"; Sql "posts" SELECT;
      Call PostRepo "delete"; Sql "posts" DELETE]).
Proof.
  intros Ht Hp Hrow. unfold PostService.deletePost. rewrite Ht, Hp, rethrow_run.
  rewrite (bind_resolved _ _ _ _ _ (PostRepository_findById n w)), Hrow.
  cbn [Post.fromDatabase].
  rewrite (bind_resolved _ _ _ _ _ (PostRepository_delete_run n _)).
  change (rows (postsOf (logged w ?e))) with (rows (postsOf w)).
  rewrite existsb_find. unfold postById in Hrow. rewrite Hrow.
  unfold ret, withTable, logged. cbn. now rewrite <- app_assoc.
Qed.

Lemma filter_neg_In {R} (p : R -> bool) (l : list R) r :
  In r (filter (fun x => negb (p x)) l) <-> In r l /\ p r = false.
Proof. rewrite filter_In, negb_true_iff. tauto. Qed.

(** X5.  Deleting a subreddit or a post that exists returns [true] and removes
    the rows with that id and no other; the AUTOINCREMENT sequence and the
    other tables stay as they were.  From then on the id is unknown: a
    lookup and a second delete fail with the not-found error. *)
Theorem delete_then_not_found (id : JsValue) (n : Z) (w : World) :
  Js.truthy id = true -> Js.parseInt id = Some n ->
  (subredditById n w <> None ->
   exists w',
     SubredditService.deleteSubreddit id w = (Resolved true, w')
     /\ database w'
        = mkDatabase (keywords (database w))
            (mkTable (filter (fun r => negb (sr_id r =? n)) (rows (subredditsOf w)))
                     (seq (subredditsOf w)))
            (posts (database w))
     /\ (forall r, In r (rows (subredditsOf w')) <-> In r (rows (subredditsOf w)) /\ sr_id r <> n)
     /\ failsWith NotFoundError (SubredditService.getSubredditById id) w'
     /\ failsWith NotFoundError (SubredditService.deleteSubreddit id) w')
  /\
  (postById n w <> None ->
   exists w',
     PostService.deletePost id w = (Resolved true, w')
     /\ database w'
        = mkDatabase (keywords (database w)) (subreddits (database w))
            (mkTable (filter (fun r => negb (p_id r =? n)) (rows (postsOf w)))
                     (seq (postsOf w)))
     /\ (forall r, In r (rows (postsOf w')) <-> In r (rows (postsOf w)) /\ p_id r <> n)
     /\ failsWith NotFoundError (PostService.getPostById id) w'
     /\ failsWith NotFoundError (PostService.deletePost id) w').
Proof.
  intros Ht Hp. split.
  - destruct (subredditById n w) as [row|] eqn:Hrow; [intros _ | congruence].
    eexists. split; [apply (deleteSubreddit_present id n row w Ht Hp Hrow)|].
    set (w' := withTable _ _ _ _).
    assert (Hnone : subredditById n w' = None) by apply find_filter_neg.
    split; [reflexivity|]. split; [|split].
    + intros r. unfold w', subredditsOf. cbn. rewrite filter_neg_In.
      now rewrite Z.eqb_neq.
    + do 2 eexists. rewrite (getSubredditById_accepted id n w' Ht Hp), Hnone. reflexivity.
    + do 2 eexists. unfold SubredditService.deleteSubreddit. rewrite Ht, Hp, rethrow_run.
      rewrite (bind_resolved _ _ _ _ _ (SubredditRepository_findById n w')), Hnone.
      reflexivity.
  - destruct (postById n w) as [row|] eqn:Hrow; [intros _ | congruence].
    eexists. split; [apply (deletePost_present id n row w Ht Hp Hrow)|].
    set (w' := withTable _ _ _ _).
    assert (Hnone : postById n w' = None) by apply find_filter_neg.
    split; [reflexivity|]. split; [|split].
    + intros r. unfold w', postsOf. cbn. rewrite filter_neg_In.
      now rewrite Z.eqb_neq.
    + do 2 eexists. rewrite (getPostById_accepted id n w' Ht Hp), Hnone. reflexivity.
    + do 2 eexists. unfold PostService.deletePost. rewrite Ht, Hp, rethrow_run.
      rewrite (bind_resolved _ _ _ _ _ (PostRepository_findById n w')), Hnone.
      reflexivity.
Qed.

Lemma delete_then_not_found_witness :
  (exists w',
     SubredditService.deleteSubreddit (VString "1") newsWorld = (Resolved true, w')
     /\ rows (subredditsOf w') = []
     /\ failsWith NotFoundError (SubredditService.getSubredditById (VString "1")) w') /\
  (exists w',
     PostService.deletePost (VNumber 2) linkedWorld = (Resolved true, w')
     /\ map p_id (rows (postsOf w')) = [1]).
Proof.
  split.
  - destruct (delete_then_not_found (VString "1") 1 newsWorld eq_refl eq_refl) as [H _].
    destruct H as (w' & E & D & _ & F & _); [discriminate|].
    exists w'. split; [exact E|]. split; [|exact F].
    unfold subredditsOf. rewrite D. reflexivity.
  - destruct (delete_then_not_found (VNumber 2) 2 linkedWorld eq_refl eq_refl) as [_ H].
    destruct H as (w' & E & D & _); [discriminate|].
    exists w'. split; [exact E|]. unfold postsOf. rewrite D. reflexivity.
Defined.

(** ** Names and titles that are blank *)

Lemma subreddit_absent name w :
  ~ subredditNamed name w ->
  find (fun r => String.eqb (sr_name r) name) (rows (subredditsOf w)) = None.
Proof.
  intros Habs. apply find_absent. intros x Hx.
  destruct (String.eqb_spec (sr_name x) name); [|reflexivity].
  exfalso. apply Habs. now exists x.
Qed.

Lemma createSubreddit_blank input value w :
  SubredditValidation.create input = Valid value ->
  normalizeName (SubredditValidation.v_name value) = "" ->
  ~ subredditNamed "" w ->
  SubredditService.createSubreddit input w
  = (Rejected (mkError RepositoryError
                 ("Failed to create subreddit: "
                    ++ "SQLITE_CONSTRAINT: NOT NULL constraint failed: subreddits.name")),
     logged w [Call SubredditRepo "exists"; Sql "subreddits" SELECT;
               Call SubredditRepo "create"; Sql "subreddits" INSERT]).
Proof.
  intros V Hn Habs. unfold SubredditService.createSubreddit. rewrite rethrow_run.
  rewrite (bind_resolved _ _ _ _ _ (validate_valid _ _ _ w V)).
  fold (normalizeName (SubredditValidation.v_name value)). rewrite Hn.
  rewrite (bind_resolved _ _ _ _ _ (SubredditRepository_exists "" w)).
  rewrite (subreddit_absent _ _ Habs).
  unfold SubredditRepository.create, SubredditService.db.
  cbv [bind emit wrap tryCatch Knex.table ret]. rewrite Knex_insert_run. cbn.
  unfold logged. cbn. rewrite <- !app_assoc. reflexivity.
Qed.

(** X6.  A name that passes the create schema and normalizes to the empty
    string, such as [r/] or a run of spaces, cannot be stored: the constructor
    turns the empty name into [null], the insert breaks the NOT NULL
    constraint, and [createSubreddit] fails with the repository's error.
    Nothing is written. *)
Theorem createSubreddit_blank_name (input : SubredditValidation.CreateInput)
        (value : SubredditValidation.CreateValue) (w : World) :
  SubredditValidation.create input = Valid value ->
  normalizeName (SubredditValidation.v_name value) = "" ->
  ~ subredditNamed "" w ->
  exists e,
    SubredditService.createSubreddit input w
      = (Rejected e, logged w [Call SubredditRepo "exists"; Sql "subreddits" SELECT;
                               Call SubredditRepo "create"; Sql "subreddits" INSERT])
    /\ kind e = RepositoryError
    /\ String.prefix "Failed to create subreddit: " (message e) = true.
Proof.
  intros V Hn Habs. rewrite (createSubreddit_blank input value w V Hn Habs).
  eexists. split; [reflexivity|]. split; reflexivity.
Qed.

Lemma createSubreddit_blank_name_witness :
  exists e,
    SubredditService.createSubreddit (SubredditValidation.mkCreateInput (VString " R/ ")) newsWorld
      = (Rejected e, logged newsWorld [Call SubredditRepo "exists"; Sql "subreddits" SELECT;
                                       Call SubredditRepo "create"; Sql "subreddits" INSERT])
    /\ kind e = RepositoryError.
Proof.
  destruct (createSubreddit_blank_name (SubredditValidation.mkCreateInput (VString " R/ "))
              (SubredditValidation.mkCreateValue " R/ ") newsWorld eq_refl eq_refl)
    as (e & E & K & _).
  - intros (row & [<- | []] & C). discriminate C.
  - exists e. split; [exact E | exact K].
Defined.

(** X7.  A title of white space only passes the create schema, and [createPost]
    stores it: the new post has the empty string for its title.  A second
    such post is then a duplicate. *)
Theorem createPost_blank_title (isUri : string -> bool) (input : PostValidation.CreateInput)
        (value : PostValidation.CreateValue) (w : World) :
  PostValidation.create isUri input = Valid value ->
  allWhiteSpace (PostValidation.v_title value) = true ->
  ~ postTitled "" w ->
  exists created w',
    PostService.createPost isUri input w = (Resolved created, w')
    /\ Post.title created = ""
    /\ Post.id created = Some (freshId Knex.postsTable (postsOf w))
    /\ postTitled "" w'
    /\ PostService.createPost isUri input w'
       = (Rejected (mkError DuplicateError "Duplicate post exists"),
          logged w' [Call PostRepo "existsByTitle"; Sql "posts" SELECT]).
Proof.
  intros V Hb Habs.
  pose proof (trim_allWhiteSpace _ Hb) as Ht.
  destruct (createPost_returns_trimmed isUri input value w V) as [E T].
  { unfold normalizeTitle. now rewrite Ht. }
  unfold normalizeTitle in E, T. rewrite Ht in E, T.
  do 2 eexists. split; [exact E|]. split; [exact T|]. split; [|split].
  - cbn. apply orNullZ_positive, freshId_positive.
  - eexists. split; [unfold postsOf; cbn; apply in_or_app; right; left; reflexivity|].
    reflexivity.
  - set (w' := mkWorld _ _ _).
    unfold PostService.createPost. rewrite rethrow_run.
    rewrite (bind_resolved _ _ _ _ _ (validate_valid _ _ _ w' V)), Ht.
    rewrite (bind_resolved _ _ _ _ _ (PostRepository_existsByTitle "" w')).
    destruct (find_present (fun r => String.eqb (p_title r) "") (rows (postsOf w')))
      as [y ->]; [|reflexivity].
    eexists. split; [unfold w', postsOf; cbn; apply in_or_app; right; left; reflexivity|].
    reflexivity.
Qed.

Lemma createPost_blank_title_witness :
  exists created w',
    PostService.createPost anyUri (PostValidation.mkCreateInput (VString "   ") VUndefined None)
      dealWorld = (Resolved created, w')
    /\ Post.title created = "" /\ Post.id created = Some 2.
Proof.
  destruct (createPost_blank_title anyUri
              (PostValidation.mkCreateInput (VString "   ") VUndefined None)
              (PostValidation.mkCreateValue "   " None []) dealWorld eq_refl eq_refl)
    as (created & w' & E & T & I & _).
  - intros (row & [<- | []] & C). discriminate C.
  - exists created, w'. split; [exact E|]. split; [exact T | exact I].
Defined.

(** ** Looking a subreddit up by name *)

Lemma SubredditRepository_findByName_run name w :
  SubredditRepository.findByName SubredditService.db name w =
  (Resolved (Subreddit.fromDatabase
               (find (fun r => String.eqb (sr_name r) name) (rows (subredditsOf w)))),
   logged w [Call SubredditRepo "findByName"; Sql "subreddits" SELECT]).
Proof.
  unfold SubredditRepository.findByName, SubredditService.db, subredditsOf, logged.
  run_repository.
Qed.

Lemma getSubredditByName_run name w :
  SubredditService.getSubredditByName name w =
  if negb (JsString.truthy (normalizeName name))
  then (Rejected (mkError InvalidInputError "Invalid subreddit name"), w)
  else
    (match find (fun r => String.eqb (sr_name r) (normalizeName name))
                (rows (subredditsOf w)) with
     | Some row => Resolved (Subreddit.new (Subreddit.ofRow row))
     | None => Rejected (mkError NotFoundError
                           ("Subreddit with name '" ++ name ++ "' not found"))
     end,
     logged w [Call SubredditRepo "findByName"; Sql "subreddits" SELECT]).
Proof.
  unfold SubredditService.getSubredditByName. rewrite rethrow_run.
  fold (normalizeName name).
  destruct (negb (JsString.truthy (normalizeName name))); [reflexivity|].
  rewrite (bind_resolved _ _ _ _ _ (SubredditRepository_findByName_run _ w)).
  now destruct (find _ _).
Qed.

Lemma find_app_fresh {R} (p : R -> bool) (l : list R) (x : R) :
  find p l = None -> p x = true -> find p (l ++ [x]) = Some x.
Proof.
  intros Hl Hx. induction l as [|a l IH]; cbn in *; [now rewrite Hx|].
  destruct (p a); [discriminate | now apply IH].
Qed.

(** X8.  A subreddit that [createSubreddit] stored is found by
    [getSubredditByName] under every spelling of its name, that is, under
    every text with the same normalization; the lookup writes nothing. *)
Theorem createSubreddit_then_getByName (input : SubredditValidation.CreateInput)
        (value : SubredditValidation.CreateValue) (spelling : string) (w : World) :
  SubredditValidation.create input = Valid value ->
  normalizeName (SubredditValidation.v_name value) <> "" ->
  ~ subredditNamed (normalizeName (SubredditValidation.v_name value)) w ->
  normalizeName spelling = normalizeName (SubredditValidation.v_name value) ->
  exists created w',
    SubredditService.createSubreddit input w = (Resolved created, w')
    /\ Subreddit.name created = Some (normalizeName spelling)
    /\ SubredditService.getSubredditByName spelling w'
       = (Resolved created,
          logged w' [Call SubredditRepo "findByName"; Sql "subreddits" SELECT]).
Proof.
  intros V Hne Habs Hs.
  pose proof (createSubreddit_returns_normalized input value w V Hne Habs) as E.
  cbv zeta in E. do 2 eexists. split; [exact E|]. rewrite Hs. split; [reflexivity|].
  rewrite getSubredditByName_run, Hs, (truthy_nonempty _ Hne). cbn [negb].
  set (name := normalizeName (SubredditValidation.v_name value)) in *.
  set (id := freshId Knex.subredditsTable (subredditsOf w)) in *.
  unfold subredditsOf at 1. cbn [database subreddits rows].
  rewrite (find_app_fresh _ _ (mkSubredditRow id name (now w) (now w))
             (subreddit_absent _ _ Habs)) by apply String.eqb_refl.
  cbv [Subreddit.new Subreddit.ofRow Subreddit.d_id Subreddit.d_name Subreddit.d_createdAt
       Subreddit.d_updatedAt sr_id sr_name sr_created_at sr_updated_at orNullString].
  rewrite (truthy_nonempty _ Hne).
  rewrite (orNullZ_positive id) by apply freshId_positive. reflexivity.
Qed.

Lemma createSubreddit_then_getByName_witness :
  exists created w',
    SubredditService.createSubreddit (SubredditValidation.mkCreateInput (VString "r/Gaming"))
      newsWorld = (Resolved created, w')
    /\ Subreddit.name created = Some "gaming"
    /\ SubredditService.getSubredditByName "  GAMING " w'
       = (Resolved created,
          logged w' [Call SubredditRepo "findByName"; Sql "subreddits" SELECT]).
Proof.
  apply (createSubreddit_then_getByName
           (SubredditValidation.mkCreateInput (VString "r/Gaming"))
           (SubredditValidation.mkCreateValue "r/Gaming") "  GAMING " newsWorld eq_refl).
  - discriminate.
  - intros (row & [<- | []] & C). discriminate C.
  - reflexivity.
Defined.

(** X9.  [getSubredditByName] rejects a name that normalizes to the empty string
    ([r/], white space) before it reaches the repository, and reports a
    name that is not stored as not found, quoting the name as it was given
    rather than the normalized name it searched for. *)
Theorem getSubredditByName_failures (name : string) (w : World) :
  (normalizeName name = "" ->
     SubredditService.getSubredditByName name w
       = (Rejected (mkError InvalidInputError "Invalid subreddit name"), w)) /\
  (normalizeName name <> "" -> ~ subredditNamed (normalizeName name) w ->
     SubredditService.getSubredditByName name w
       = (Rejected (mkError NotFoundError ("Subreddit with name '" ++ name ++ "' not found")),
          logged w [Call SubredditRepo "findByName"; Sql "subreddits" SELECT])).
Proof.
  split.
  - intros E. rewrite getSubredditByName_run, E. reflexivity.
  - intros Hne Habs. rewrite getSubredditByName_run, (truthy_nonempty _ Hne). cbn [negb].
    now rewrite (subreddit_absent _ _ Habs).
Qed.

Lemma getSubredditByName_failures_witness :
  SubredditService.getSubredditByName " r/ " newsWorld
    = (Rejected (mkError InvalidInputError "Invalid subreddit name"), newsWorld) /\
  SubredditService.getSubredditByName "r/Gaming" newsWorld
    = (Rejected (mkError NotFoundError "Subreddit with name 'r/Gaming' not found"),
       logged newsWorld [Call SubredditRepo "findByName"; Sql "subreddits" SELECT]).
Proof.
  split.
  - apply (getSubredditByName_failures " r/ " newsWorld). reflexivity.
  - apply (getSubredditByName_failures "r/Gaming" newsWorld); [discriminate|].
    intros (row & [<- | []] & C). discriminate C.
Defined.

(** ** Updating a post *)

Lemma find_map_same {R} (p : R -> bool) (f : R -> R) (l : list R) :
  (forall r, p (f r) = p r) ->
  find p (map (fun r => if p r then f r else r) l) = option_map f (find p l).
Proof.
  intros Hf. induction l as [|a l IH]; [reflexivity|]. cbn.
  destruct (p a) eqn:Pa; [now rewrite Hf, Pa | now rewrite Pa].
Qed.

Lemma find_filter_cons {R} (p : R -> bool) (l : list R) x :
  find p l = Some x -> exists hits, filter p l = x :: hits.
Proof.
  induction l as [|a l IH]; [discriminate|]. cbn.
  destruct (p a); [intros [= ->]; eauto | exact IH].
Qed.

Lemma PostRepository_update_run n patch row w :
  postById n w = Some row ->
  let c := Post.toDatabase
             (Post.new (PostRepository.merge (Post.spread (Post.new (Post.ofRow row))) patch)) in
  let set := fun t r => mkPostRow (p_id r) (Post.c_title c) (Post.c_description c)
                          (Some (Post.c_links c)) (p_created_at r) t in
  PostRepository.update PostService.db n patch w =
  (Resolved (Some (Post.new (Post.ofRow (set (now w) row)))),
   withTable Knex.postsTable w
     (mkTable (map (fun r => if p_id r =? n then set (now w) r else r) (rows (postsOf w)))
              (seq (postsOf w)))
     [Call PostRepo "update"; Call PostRepo "findById"; Sql "posts" SELECT;
      Sql "posts" UPDATE; Call PostRepo "findById"; Sql "posts" SELECT]).
Proof.
  intros Hrow c set. unfold PostRepository.update.
  cbv [bind emit wrap tryCatch].
  set (w1 := mkWorld _ _ _).
  change w1 with (logged w [Call PostRepo "update"]).
  rewrite PostRepository_findById.
  change (postById n (logged w ?e)) with (postById n w). rewrite Hrow.
  cbn [Post.fromDatabase]. fold c. change (Knex.table PostService.db ?x) with (Resolved tt, x).
  cbv iota beta.
  rewrite Knex_update_run.
  change (rows (tableOf Knex.postsTable (logged ?x ?e))) with (rows (postsOf w)).
  destruct (find_filter_cons _ _ _ Hrow) as [hits ->].
  cbn [Schema.postViolation].
  assert (Hc : (Z.of_nat (List.length (row :: hits)) =? 0) = false).
  { apply Z.eqb_neq. cbn [List.length]. lia. }
  rewrite Hc.
  rewrite PostRepository_findById.
  unfold postById at 1, postsOf at 1, withTable. cbn [database posts rows Knex.setTable
    Knex.postsTable].
  rewrite (find_map_same (fun r => p_id r =? n)
             (fun r => mkPostRow (p_id r) (Post.c_title c) (Post.c_description c)
                         (Some (Post.c_links c)) (p_created_at r) (now (logged (logged w
                           [Call PostRepo "update"]) [Call PostRepo "findById";
                                                       Sql "posts" SELECT]))))
    by reflexivity.
  fold (postById n w). rewrite Hrow. cbn [option_map Post.fromDatabase].
  unfold set, logged, tableOf, postsOf. cbn. rewrite <- !app_assoc. reflexivity.
Qed.

Lemma post_absent title w :
  ~ postTitled title w ->
  find (fun r => String.eqb (p_title r) title) (rows (postsOf w)) = None.
Proof.
  intros Habs. apply find_absent. intros x Hx.
  destruct (String.eqb_spec (p_title x) title); [|reflexivity].
  exfalso. apply Habs. now exists x.
Qed.

Lemma post_present title w :
  postTitled title w ->
  exists y, find (fun r => String.eqb (p_title r) title) (rows (postsOf w)) = Some y.
Proof.
  intros (row & Hin & Hn). apply find_present. exists row. split; [exact Hin|].
  rewrite Hn. apply String.eqb_refl.
Qed.

(** [updatePost] up to the call of the repository's [update]. *)
Lemma updatePost_run isUri id n patch value row w :
  Js.parseInt id = Some n ->
  PostValidation.update isUri (Some n) patch = Valid value ->
  postById n w = Some row ->
  let found := [Call PostRepo "findById"; Sql "posts" SELECT] in
  let checked := [Call PostRepo "findById"; Sql "posts" SELECT;
                  Call PostRepo "existsByTitle"; Sql "posts" SELECT] in
  let write := fun title evs =>
    PostRepository.update PostService.db n
      (PostRepository.mkPatch (Some n) title (PostValidation.uv_description value)
         (PostValidation.uv_links value)) (logged w evs) in
  PostService.updatePost isUri id patch w =
  match PostValidation.uv_title value with
  | Some v =>
      if String.eqb v (p_title row) then write (Some v) found
      else
        match find (fun r => String.eqb (p_title r) (JsString.trim v)) (rows (postsOf w)) with
        | Some _ =>
            (Rejected (mkError DuplicateError
                         ("Post '" ++ JsString.trim v ++ "' already exists")),
             logged w checked)
        | None => write (Some (JsString.trim v)) checked
        end
  | None => write None found
  end.
Proof.
  intros Hp V Hrow found checked write. unfold PostService.updatePost.
  rewrite Hp, rethrow_run.
  rewrite (bind_resolved _ _ _ _ _ (validate_valid _ _ _ w V)).
  rewrite (PostValidation_update_id _ _ _ _ V).
  rewrite (bind_resolved _ _ _ _ _ (PostRepository_findById n w)), Hrow.
  cbn [Post.fromDatabase].
  change (Post.title (Post.new (Post.ofRow row))) with (p_title row).
  destruct (PostValidation.uv_title value) as [v|]; [|reflexivity].
  destruct (String.eqb v (p_title row)); cbn [negb]; [reflexivity|].
  unfold bind at 1.
  rewrite (bind_resolved _ _ _ _ _ (PostRepository_existsByTitle _ _)).
  change (rows (postsOf (logged w ?e))) with (rows (postsOf w)).
  rewrite logged_app.
  destruct (find _ (rows (postsOf w))); reflexivity.
Qed.

Lemma updatePost_duplicate (isUri : string -> bool) (id : JsValue) (n : Z)
        (patch : PostValidation.UpdateInput) (value : PostValidation.UpdateValue)
        (v : string) (row : PostRow) (w : World) :
  Js.parseInt id = Some n ->
  PostValidation.update isUri (Some n) patch = Valid value ->
  PostValidation.uv_title value = Some v ->
  postById n w = Some row ->
  p_title row <> v ->
  postTitled (JsString.trim v) w ->
  PostService.updatePost isUri id patch w
  = (Rejected (mkError DuplicateError ("Post '" ++ JsString.trim v ++ "' already exists")),
     logged w [Call PostRepo "findById"; Sql "posts" SELECT;
               Call PostRepo "existsByTitle"; Sql "posts" SELECT]).
Proof.
  intros Hp V Hv Hrow Hne Hdup.
  rewrite (updatePost_run isUri id n patch value row w Hp V Hrow). cbv zeta. rewrite Hv.
  destruct (String.eqb_spec v (p_title row)); [congruence|].
  now destruct (post_present _ _ Hdup) as [y ->].
Qed.

Lemma map_length_same {R} (f : R -> R) (l : list R) : List.length (map f l) = List.length l.
Proof. apply length_map. Qed.

Lemma In_map_other {R} (p : R -> bool) (f : R -> R) (l : list R) r :
  In r l -> p r = false -> In r (map (fun x => if p x then f x else x) l).
Proof.
  intros Hin Hp. apply in_map_iff. exists r. now rewrite Hp.
Qed.

Lemma fromRow_links_null row :
  p_links row = None -> Post.links (Post.new (Post.ofRow row)) = stringArray [].
Proof. intros H. unfold Post.new, Post.ofRow. cbn [Post.links Post.d_links]. now rewrite H. Qed.

Lemma update_links_column row patch l :
  Post.links (Post.new (Post.ofRow row)) = stringArray l ->
  PostRepository.patch_links patch = None ->
  Post.c_links (Post.toDatabase
                  (Post.new (PostRepository.merge (Post.spread (Post.new (Post.ofRow row)))
                                                  patch)))
  = JSON.stringify (stringArray l).
Proof.
  intros F Hl. cbn [Post.c_links Post.toDatabase]. f_equal.
  apply new_links_array. unfold PostRepository.merge. cbn [Post.d_links Post.spread].
  now rewrite Hl.
Qed.

(** X11.  [updatePost] on a post that exists, with a valid patch that does not
    rename it to a stored title, returns the post read back from the row it
    wrote.  The row keeps its id and creation time and is stamped with the
    clock; the title is the trimmed title of the patch (the untrimmed one
    when it equals the stored title); a patch without [links] leaves a
    serialized [links] column as it is and turns a NULL one into the text of
    the empty array; an empty description is stored as NULL.  Rows with
    another id, the other tables and the id sequence are untouched. *)
Theorem updatePost_writes_patch (isUri : string -> bool) (id : JsValue) (n : Z)
        (patch : PostValidation.UpdateInput) (value : PostValidation.UpdateValue)
        (row : PostRow) (w : World) :
  Js.parseInt id = Some n ->
  PostValidation.update isUri (Some n) patch = Valid value ->
  postById n w = Some row ->
  (forall v, PostValidation.uv_title value = Some v -> p_title row <> v ->
             ~ postTitled (JsString.trim v) w) ->
  exists row' w',
    PostService.updatePost isUri id patch w = (Resolved (Some (Post.new (Post.ofRow row'))), w')
    /\ postById n w' = Some row'
    /\ p_id row' = n /\ p_created_at row' = p_created_at row /\ p_updated_at row' = now w
    /\ p_title row' = match PostValidation.uv_title value with
                      | Some v => if String.eqb v (p_title row) then v else JsString.trim v
                      | None => p_title row
                      end
    /\ p_description row' = orNullString (match PostValidation.uv_description value with
                                          | Some d => d
                                          | None => p_description row
                                          end)
    /\ (forall l, PostValidation.uv_links value = Some l ->
                  p_links row' = Some (JSON.stringify (stringArray l)))
    /\ (PostValidation.uv_links value = None ->
        match p_links row with
        | None => p_links row' = Some "[]"
        | Some text => (exists l, text = JSON.stringify (stringArray l)) -> p_links row' = Some text
        end)
    /\ (forall r, In r (rows (postsOf w)) -> p_id r <> n -> In r (rows (postsOf w')))
    /\ List.length (rows (postsOf w')) = List.length (rows (postsOf w))
    /\ seq (postsOf w') = seq (postsOf w)
    /\ keywords (database w') = keywords (database w)
    /\ subreddits (database w') = subreddits (database w).
Proof.
  intros Hp V Hrow Hfree.
  assert (Hid : p_id row = n).
  { unfold postById in Hrow. apply find_some in Hrow as [_ H]. now apply Z.eqb_eq in H. }
  rewrite (updatePost_run isUri id n patch value row w Hp V Hrow). cbv zeta.
  set (title' := match PostValidation.uv_title value with
                 | Some v => Some (if String.eqb v (p_title row) then v else JsString.trim v)
                 | None => None
                 end).
  assert (E : exists evs,
    match PostValidation.uv_title value with
    | Some v =>
        if String.eqb v (p_title row)
        then PostRepository.update PostService.db n
               (PostRepository.mkPatch (Some n) (Some v) (PostValidation.uv_description value)
                  (PostValidation.uv_links value))
               (logged w [Call PostRepo "findById"; Sql "posts" SELECT])
        else
          match find (fun r => String.eqb (p_title r) (JsString.trim v)) (rows (postsOf w)) with
          | Some _ =>
              (Rejected (mkError DuplicateError
                           ("Post '" ++ JsString.trim v ++ "' already exists")),
               logged w [Call PostRepo "findById"; Sql "posts" SELECT;
                         Call PostRepo "existsByTitle"; Sql "posts" SELECT])
          | None =>
              PostRepository.update PostService.db n
                (PostRepository.mkPatch (Some n) (Some (JsString.trim v))
                   (PostValidation.uv_description value) (PostValidation.uv_links value))
                (logged w [Call PostRepo "findById"; Sql "posts" SELECT;
                           Call PostRepo "existsByTitle"; Sql "posts" SELECT])
          end
    | None =>
        PostRepository.update PostService.db n
          (PostRepository.mkPatch (Some n) None (PostValidation.uv_description value)
             (PostValidation.uv_links value))
          (logged w [Call PostRepo "findById"; Sql "posts" SELECT])
    end
    = PostRepository.update PostService.db n
        (PostRepository.mkPatch (Some n) title' (PostValidation.uv_description value)
           (PostValidation.uv_links value)) (logged w evs)).
  { subst title'. destruct (PostValidation.uv_title value) as [v|]; [|eauto].
    destruct (String.eqb_spec v (p_title row)) as [->|Hne]; [eauto|].
    rewrite (post_absent _ _ (Hfree v eq_refl (not_eq_sym Hne))). eauto. }
  destruct E as [evs ->].
  assert (Hrow' : postById n (logged w evs) = Some row) by exact Hrow.
  rewrite (PostRepository_update_run n _ row (logged w evs) Hrow'). cbv zeta.
  do 2 eexists. split; [reflexivity|].
  change (rows (postsOf (logged w evs))) with (rows (postsOf w)).
  change (seq (postsOf (logged w evs))) with (seq (postsOf w)).
  change (now (logged w evs)) with (now w).
  repeat match goal with |- _ /\ _ => split end.
  - unfold postById, postsOf, withTable. cbn [database posts rows Knex.setTable Knex.postsTable].
    rewrite (find_map_same (fun r => p_id r =? n)) by reflexivity.
    unfold postById, postsOf in Hrow. rewrite Hrow. reflexivity.
  - exact Hid.
  - reflexivity.
  - reflexivity.
  - subst title'. cbn. destruct (PostValidation.uv_title value); reflexivity.
  - cbn. destruct (PostValidation.uv_description value) as [d|]; cbn.
    + destruct d as [d|]; cbn; [|reflexivity]. destruct (JsString.truthy d) eqn:T; cbn;
        now rewrite ?T.
    + destruct (p_description row) as [d|]; cbn; [|reflexivity].
      destruct (JsString.truthy d) eqn:T; cbn; now rewrite ?T.
  - intros l Hl. cbn. rewrite Hl. reflexivity.
  - intros Hl. cbn [p_links].
    destruct (p_links row) as [text|] eqn:Hlinks.
    + intros [l ->]. f_equal. apply update_links_column; [|exact Hl].
      now apply fromRow_links.
    + f_equal. apply (update_links_column row _ []); [|exact Hl].
      now apply fromRow_links_null.
  - intros r Hin Hr. unfold postsOf, withTable.
    cbn [database posts rows Knex.setTable Knex.postsTable].
    apply (In_map_other (fun x => p_id x =? n)); [exact Hin | now apply Z.eqb_neq].
  - unfold postsOf, withTable. cbn [database posts rows Knex.setTable Knex.postsTable].
    apply length_map.
  - reflexivity.
  - reflexivity.
  - reflexivity.
Qed.

Lemma updatePost_writes_patch_witness :
  exists row' w',
    PostService.updatePost anyUri (VString "1")
      (PostValidation.mkUpdateInput (VString " New deal ") VUndefined None) linkedWorld
    = (Resolved (Some (Post.new (Post.ofRow row'))), w')
    /\ p_title row' = "New deal"
    /\ p_links row' = Some (JSON.stringify (stringArray ["https://a.example/x"]))
    /\ p_updated_at row' = 5.
Proof.
  destruct (updatePost_writes_patch anyUri (VString "1") 1
              (PostValidation.mkUpdateInput (VString " New deal ") VUndefined None)
              (PostValidation.mkUpdateValue 1 (Some " New deal ") None None)
              (mkPostRow 1 "Deal" None
                 (Some (JSON.stringify (stringArray ["https://a.example/x"]))) 0 0)
              linkedWorld eq_refl eq_refl eq_refl)
    as (row' & w' & E & _ & _ & _ & Hu & Ht & _ & _ & Hl & _).
  - intros v [= <-] _ (r & [<- | [<- | []]] & C); discriminate C.
  - exists row', w'. split; [exact E|]. split; [exact Ht|]. split; [|exact Hu].
    apply (Hl eq_refl). now exists ["https://a.example/x"].
Defined.

(** ** Updating a subreddit *)

Lemma SubredditRepository_update_run n patch row w :
  subredditById n w = Some row ->
  let d := Subreddit.toDatabase
             (Subreddit.new (SubredditRepository.merge
                               (Subreddit.spread (Subreddit.new (Subreddit.ofRow row))) patch)) in
  let set := fun t r => mkSubredditRow (sr_id r) (orEmptyString (Subreddit.d_name d))
                          (sr_created_at r) t in
  SubredditRepository.update SubredditService.db n patch w =
  match Schema.subredditViolation (Subreddit.d_name d)
          (filter (fun r => negb (sr_id r =? n)) (rows (subredditsOf w))) with
  | Some msg =>
      (Rejected (mkError RepositoryError ("Failed to update subreddit: " ++ msg)),
       logged w [Call SubredditRepo "update"; Call SubredditRepo "findById";
                 Sql "subreddits" SELECT; Sql "subreddits" UPDATE])
  | None =>
      (Resolved (Some (Subreddit.new (Subreddit.ofRow (set (now w) row)))),
       withTable Knex.subredditsTable w
         (mkTable (map (fun r => if sr_id r =? n then set (now w) r else r)
                       (rows (subredditsOf w)))
                  (seq (subredditsOf w)))
         [Call SubredditRepo "update"; Call SubredditRepo "findById"; Sql "subreddits" SELECT;
          Sql "subreddits" UPDATE; Call SubredditRepo "findById"; Sql "subreddits" SELECT])
  end.
Proof.
  intros Hrow d set. unfold SubredditRepository.update.
  cbv [bind emit wrap tryCatch].
  set (w1 := mkWorld _ _ _).
  change w1 with (logged w [Call SubredditRepo "update"]).
  rewrite SubredditRepository_findById.
  change (subredditById n (logged w ?e)) with (subredditById n w). rewrite Hrow.
  cbn [Subreddit.fromDatabase]. fold d.
  change (Knex.table SubredditService.db ?x) with (Resolved tt, x).
  cbv iota beta.
  rewrite Knex_update_run.
  change (rows (tableOf Knex.subredditsTable (logged ?x ?e))) with (rows (subredditsOf w)).
  destruct (find_filter_cons _ _ _ Hrow) as [hits ->].
  destruct (Schema.subredditViolation _ _) as [msg|].
  - unfold throw, logged. cbn. rewrite <- !app_assoc. reflexivity.
  - assert (Hc : (Z.of_nat (List.length (row :: hits)) =? 0) = false).
    { apply Z.eqb_neq. cbn [List.length]. lia. }
    rewrite Hc.
    rewrite SubredditRepository_findById.
    unfold subredditById at 1, subredditsOf at 1, withTable.
    cbn [database subreddits rows Knex.setTable Knex.subredditsTable].
    rewrite (find_map_same (fun r => sr_id r =? n)
               (fun r => mkSubredditRow (sr_id r) (orEmptyString (Subreddit.d_name d))
                           (sr_created_at r)
                           (now (logged (logged w [Call SubredditRepo "update"])
                                   [Call SubredditRepo "findById"; Sql "subreddits" SELECT]))))
      by reflexivity.
    fold (subredditById n w). rewrite Hrow. cbn [option_map Subreddit.fromDatabase].
    unfold set, logged, tableOf, subredditsOf. cbn. rewrite <- !app_assoc. reflexivity.
Qed.

Lemma subreddit_present name w :
  subredditNamed name w ->
  exists y, find (fun r => String.eqb (sr_name r) name) (rows (subredditsOf w)) = Some y.
Proof.
  intros (row & Hin & Hn). apply find_present. exists row. split; [exact Hin|].
  rewrite Hn. apply String.eqb_refl.
Qed.

(** [updateSubreddit] up to the call of the repository's [update], for a
    row whose name is not empty. *)
Lemma updateSubreddit_run id n patch value row w :
  Js.parseInt id = Some n ->
  SubredditValidation.update (Some n) patch = Valid value ->
  subredditById n w = Some row ->
  sr_name row <> "" ->
  let write := fun name evs =>
    SubredditRepository.update SubredditService.db n
      (SubredditRepository.mkPatch (Some n) name) (logged w evs) in
  SubredditService.updateSubreddit id patch w =
  match SubredditValidation.uv_name value with
  | Some v =>
      if String.eqb v (sr_name row)
      then write (Some v) [Call SubredditRepo "findById"; Sql "subreddits" SELECT]
      else
        match find (fun r => String.eqb (sr_name r) (JsString.trim v))
                   (rows (subredditsOf w)) with
        | Some _ =>
            (Rejected (mkError DuplicateError
                         ("Subreddit " ++ JsString.trim v ++ " already exists")),
             logged w [Call SubredditRepo "findById"; Sql "subreddits" SELECT;
                       Call SubredditRepo "exists"; Sql "subreddits" SELECT])
        | None =>
            write (Some (JsString.trim v))
                  [Call SubredditRepo "findById"; Sql "subreddits" SELECT;
                   Call SubredditRepo "exists"; Sql "subreddits" SELECT]
        end
  | None => write None [Call SubredditRepo "findById"; Sql "subreddits" SELECT]
  end.
Proof.
  intros Hp V Hrow Hname write. unfold SubredditService.updateSubreddit.
  rewrite Hp, rethrow_run.
  rewrite (bind_resolved _ _ _ _ _ (validate_valid _ _ _ w V)).
  rewrite (SubredditValidation_update_id _ _ _ V).
  rewrite (bind_resolved _ _ _ _ _ (SubredditRepository_findById n w)), Hrow.
  cbn [Subreddit.fromDatabase].
  change (Subreddit.name (Subreddit.new (Subreddit.ofRow row)))
    with (orNullString (Some (sr_name row))).
  unfold orNullString. rewrite (truthy_nonempty _ Hname).
  destruct (SubredditValidation.uv_name value) as [v|]; [|reflexivity].
  destruct (String.eqb v (sr_name row)); cbn [negb]; [reflexivity|].
  unfold bind at 1.
  rewrite (bind_resolved _ _ _ _ _ (SubredditRepository_exists _ _)).
  change (rows (subredditsOf (logged w ?e))) with (rows (subredditsOf w)).
  rewrite logged_app.
  destruct (find _ (rows (subredditsOf w))); reflexivity.
Qed.

Lemma updateSubreddit_duplicate id n patch value v row w :
  Js.parseInt id = Some n ->
  SubredditValidation.update (Some n) patch = Valid value ->
  SubredditValidation.uv_name value = Some v ->
  subredditById n w = Some row ->
  sr_name row <> "" ->
  sr_name row <> v ->
  subredditNamed (JsString.trim v) w ->
  SubredditService.updateSubreddit id patch w
  = (Rejected (mkError DuplicateError ("Subreddit " ++ JsString.trim v ++ " already exists")),
     logged w [Call SubredditRepo "findById"; Sql "subreddits" SELECT;
               Call SubredditRepo "exists"; Sql "subreddits" SELECT]).
Proof.
  intros Hp V Hv Hrow Hname Hne Hdup.
  rewrite (updateSubreddit_run id n patch value row w Hp V Hrow Hname). cbv zeta. rewrite Hv.
  destruct (String.eqb_spec v (sr_name row)); [congruence|].
  now destruct (subreddit_present _ _ Hdup) as [y ->].
Qed.

(** X10.  A subreddit or a post cannot be renamed to a name or title that is
    stored: when the patch carries a value other than the stored one and
    its trimmed form is the key of some row, the update fails with the
    DuplicateError that names the trimmed value, and nothing is written.
    The row's own key counts when the patch pads it with white space. *)
Theorem update_duplicate_rejected (id : JsValue) (n : Z) (w : World) :
  Js.parseInt id = Some n ->
  (forall patch value v row,
     SubredditValidation.update (Some n) patch = Valid value ->
     SubredditValidation.uv_name value = Some v ->
     subredditById n w = Some row -> sr_name row <> "" -> sr_name row <> v ->
     subredditNamed (JsString.trim v) w ->
     SubredditService.updateSubreddit id patch w
     = (Rejected (mkError DuplicateError
                    ("Subreddit " ++ JsString.trim v ++ " already exists")),
        logged w [Call SubredditRepo "findById"; Sql "subreddits" SELECT;
                  Call SubredditRepo "exists"; Sql "subreddits" SELECT]))
  /\
  (forall isUri patch value v row,
     PostValidation.update isUri (Some n) patch = Valid value ->
     PostValidation.uv_title value = Some v ->
     postById n w = Some row -> p_title row <> v ->
     postTitled (JsString.trim v) w ->
     PostService.updatePost isUri id patch w
     = (Rejected (mkError DuplicateError ("Post '" ++ JsString.trim v ++ "' already exists")),
        logged w [Call PostRepo "findById"; Sql "posts" SELECT;
                  Call PostRepo "existsByTitle"; Sql "posts" SELECT])).
Proof.
  intros Hp. split.
  - intros patch value v row. now apply updateSubreddit_duplicate.
  - intros isUri patch value v row. now apply updatePost_duplicate.
Qed.

Lemma update_duplicate_rejected_witness :
  SubredditService.updateSubreddit (VNumber 1)
    (SubredditValidation.mkUpdateInput (VString " news ")) newsWorld
  = (Rejected (mkError DuplicateError "Subreddit news already exists"),
     logged newsWorld [Call SubredditRepo "findById"; Sql "subreddits" SELECT;
                       Call SubredditRepo "exists"; Sql "subreddits" SELECT]) /\
  PostService.updatePost anyUri (VNumber 1)
    (PostValidation.mkUpdateInput (VString " Deal ") VUndefined None) dealWorld
  = (Rejected (mkError DuplicateError "Post 'Deal' already exists"),
     logged dealWorld [Call PostRepo "findById"; Sql "posts" SELECT;
                       Call PostRepo "existsByTitle"; Sql "posts" SELECT]).
Proof.
  split.
  - destruct (update_duplicate_rejected (VNumber 1) 1 newsWorld eq_refl) as [H _].
    apply (H _ (SubredditValidation.mkUpdateValue 1 (Some " news ")) " news "
             (mkSubredditRow 1 "news" 0 0)); try reflexivity; try discriminate.
    exists (mkSubredditRow 1 "news" 0 0). split; [left|]; reflexivity.
  - destruct (update_duplicate_rejected (VNumber 1) 1 dealWorld eq_refl) as [_ H].
    apply (H anyUri _ (PostValidation.mkUpdateValue 1 (Some " Deal ") None None) " Deal "
             (mkPostRow 1 "Deal" None (Some "[]") 0 0)); try reflexivity; try discriminate.
    exists (mkPostRow 1 "Deal" None (Some "[]") 0 0). split; [left|]; reflexivity.
Defined.

Lemma existsb_none {R} (p : R -> bool) (l : list R) :
  (forall r, In r l -> p r = false) -> existsb p l = false.
Proof.
  intros H. apply not_true_is_false. intros C. apply existsb_exists in C as (x & Hx & Hp).
  now rewrite (H x Hx) in Hp.
Qed.

(** X12.  [updateSubreddit] on a subreddit that exists, with a valid patch whose
    name is not blank and is not taken, returns the subreddit read back
    from the row it wrote.  The row keeps its id and creation time and is
    stamped with the clock; its name is the name of the patch, trimmed and
    otherwise as given (the stored name when the patch has none); rows with
    another id, the other tables and the id sequence are untouched. *)
Theorem updateSubreddit_writes_patch (id : JsValue) (n : Z)
        (patch : SubredditValidation.UpdateInput) (value : SubredditValidation.UpdateValue)
        (row : SubredditRow) (w : World) :
  Js.parseInt id = Some n ->
  SubredditValidation.update (Some n) patch = Valid value ->
  subredditById n w = Some row ->
  sr_name row <> "" ->
  (forall r, In r (rows (subredditsOf w)) -> sr_id r <> n -> sr_name r <> sr_name row) ->
  (forall v, SubredditValidation.uv_name value = Some v -> sr_name row <> v ->
             JsString.trim v <> "" /\ ~ subredditNamed (JsString.trim v) w) ->
  let name' := match SubredditValidation.uv_name value with
               | Some v => if String.eqb v (sr_name row) then v else JsString.trim v
               | None => sr_name row
               end in
  let row' := mkSubredditRow n name' (sr_created_at row) (now w) in
  exists w',
    SubredditService.updateSubreddit id patch w
      = (Resolved (Some (Subreddit.new (Subreddit.ofRow row'))), w')
    /\ Subreddit.name (Subreddit.new (Subreddit.ofRow row')) = Some name'
    /\ subredditById n w' = Some row'
    /\ (forall r, In r (rows (subredditsOf w)) -> sr_id r <> n -> In r (rows (subredditsOf w')))
    /\ List.length (rows (subredditsOf w')) = List.length (rows (subredditsOf w))
    /\ seq (subredditsOf w') = seq (subredditsOf w)
    /\ keywords (database w') = keywords (database w)
    /\ posts (database w') = posts (database w).
Proof.
  intros Hp V Hrow Hname Hothers Hfree name' row'.
  assert (Hid : sr_id row = n).
  { unfold subredditById in Hrow. apply find_some in Hrow as [_ H]. now apply Z.eqb_eq in H. }
  assert (Hne' : name' <> "").
  { subst name'. destruct (SubredditValidation.uv_name value) as [v|]; [|exact Hname].
    destruct (String.eqb_spec v (sr_name row)) as [->|Hne]; [exact Hname|].
    apply (Hfree v eq_refl). congruence. }
  assert (Hun : forall r, In r (rows (subredditsOf w)) -> sr_id r <> n -> sr_name r <> name').
  { subst name'. destruct (SubredditValidation.uv_name value) as [v|]; [|exact Hothers].
    destruct (String.eqb_spec v (sr_name row)) as [->|Hne]; [exact Hothers|].
    intros r Hr _ C. apply (Hfree v eq_refl (not_eq_sym Hne)). now exists r. }
  rewrite (updateSubreddit_run id n patch value row w Hp V Hrow Hname). cbv zeta.
  assert (E : exists evs,
    match SubredditValidation.uv_name value with
    | Some v =>
        if String.eqb v (sr_name row)
        then SubredditRepository.update SubredditService.db n
               (SubredditRepository.mkPatch (Some n) (Some v))
               (logged w [Call SubredditRepo "findById"; Sql "subreddits" SELECT])
        else
          match find (fun r => String.eqb (sr_name r) (JsString.trim v))
                     (rows (subredditsOf w)) with
          | Some _ =>
              (Rejected (mkError DuplicateError
                           ("Subreddit " ++ JsString.trim v ++ " already exists")),
               logged w [Call SubredditRepo "findById"; Sql "subreddits" SELECT;
                         Call SubredditRepo "exists"; Sql "subreddits" SELECT])
          | None =>
              SubredditRepository.update SubredditService.db n
                (SubredditRepository.mkPatch (Some n) (Some (JsString.trim v)))
                (logged w [Call SubredditRepo "findById"; Sql "subreddits" SELECT;
                           Call SubredditRepo "exists"; Sql "subreddits" SELECT])
          end
    | None =>
        SubredditRepository.update SubredditService.db n
          (SubredditRepository.mkPatch (Some n) None)
          (logged w [Call SubredditRepo "findById"; Sql "subreddits" SELECT])
    end
    = SubredditRepository.update SubredditService.db n
        (SubredditRepository.mkPatch (Some n)
           (match SubredditValidation.uv_name value with
            | Some _ => Some name'
            | None => None
            end)) (logged w evs)).
  { subst name'. destruct (SubredditValidation.uv_name value) as [v|]; [|eauto].
    destruct (String.eqb_spec v (sr_name row)) as [->|Hne]; [eauto|].
    destruct (Hfree v eq_refl (not_eq_sym Hne)) as [_ Hfr].
    rewrite (subreddit_absent _ _ Hfr). eauto. }
  destruct E as [evs ->].
  assert (Hrow' : subredditById n (logged w evs) = Some row) by exact Hrow.
  rewrite (SubredditRepository_update_run n _ row (logged w evs) Hrow'). cbv zeta.
  assert (Hd : Subreddit.d_name
                 (Subreddit.toDatabase
                    (Subreddit.new
                       (SubredditRepository.merge
                          (Subreddit.spread (Subreddit.new (Subreddit.ofRow row)))
                          (SubredditRepository.mkPatch (Some n)
                             (match SubredditValidation.uv_name value with
                              | Some _ => Some name'
                              | None => None
                              end)))))
               = Some name').
  { cbn. destruct (SubredditValidation.uv_name value) as [v|]; cbn.
    - now rewrite (truthy_nonempty _ Hne').
    - rewrite (truthy_nonempty _ Hname). cbn. subst name'.
      now rewrite (truthy_nonempty _ Hname). }
  rewrite Hd. cbn [Schema.subredditViolation orEmptyString].
  change (rows (subredditsOf (logged w evs))) with (rows (subredditsOf w)).
  rewrite existsb_none.
  2:{ intros r Hr. apply filter_neg_In in Hr as [Hr Hi]. apply Z.eqb_neq in Hi.
      destruct (String.eqb_spec (sr_name r) name'); [|reflexivity].
      exfalso. now apply (Hun r Hr Hi). }
  change (now (logged w evs)) with (now w).
  eexists. split; [|split; [|split; [|split; [|split; [|split; [|split]]]]]].
  - subst row'. cbv beta. rewrite Hid. reflexivity.
  - cbn. now rewrite (truthy_nonempty _ Hne').
  - unfold subredditById, subredditsOf, withTable.
    cbn [database subreddits rows Knex.setTable Knex.subredditsTable].
    rewrite (find_map_same (fun r => sr_id r =? n)) by reflexivity.
    unfold subredditById, subredditsOf in Hrow. rewrite Hrow. cbn. now rewrite Hid.
  - intros r Hin Hr. unfold subredditsOf, withTable.
    cbn [database subreddits rows Knex.setTable Knex.subredditsTable].
    apply (In_map_other (fun x => sr_id x =? n)); [exact Hin | now apply Z.eqb_neq].
  - unfold subredditsOf, withTable.
    cbn [database subreddits rows Knex.setTable Knex.subredditsTable]. apply length_map.
  - reflexivity.
  - reflexivity.
  - reflexivity.
Qed.

Lemma updateSubreddit_writes_patch_witness :
  exists w',
    SubredditService.updateSubreddit (VString "1")
      (SubredditValidation.mkUpdateInput (VString " r/Gaming ")) newsWorld
    = (Resolved (Some (Subreddit.mk (Some 1) (Some "r/Gaming") (Some 0) (Some 5))), w')
    /\ subredditById 1 w' = Some (mkSubredditRow 1 "r/Gaming" 0 5).
Proof.
  destruct (updateSubreddit_writes_patch (VString "1") 1
              (SubredditValidation.mkUpdateInput (VString " r/Gaming "))
              (SubredditValidation.mkUpdateValue 1 (Some " r/Gaming "))
              (mkSubredditRow 1 "news" 0 0) newsWorld eq_refl eq_refl eq_refl)
    as (w' & E & _ & F & _).
  - discriminate.
  - intros r [<- | []] C. now contradiction C.
  - intros v [= <-] _. split; [discriminate|].
    intros (r & [<- | []] & C). discriminate C.
  - exists w'. split; [exact E | exact F].
Defined.

(** ** Posts with links, titles, statistics *)

Lemma PostRepository_findPostsWithLinks_run w :
  PostRepository.findPostsWithLinks PostService.db w =
  (Resolved (map (fun row => Post.new (Post.ofRow row))
               (Sqlite.orderByIndexDesc PostRepository.createdDesc
                  (filter PostRepository.withLinks (rows (postsOf w))))),
   logged w [Call PostRepo "findPostsWithLinks"; Sql "posts" SELECT]).
Proof.
  unfold PostRepository.findPostsWithLinks, PostService.db, postsOf, logged.
  run_repository.
Qed.


Lemma PostRepository_getStatistics_run w :
  PostRepository.getStatistics PostService.db w =
  (Resolved (PostRepository.mkStatistics
               (Z.of_nat (List.length (rows (postsOf w))))
               (Z.of_nat (List.length (filter PostRepository.withLinks (rows (postsOf w)))))
               (Z.of_nat (List.length (rows (postsOf w)))
                - Z.of_nat (List.length (filter PostRepository.withLinks (rows (postsOf w)))))
               (match Sqlite.avg (PostRepository.descriptionLengths (rows (postsOf w))) with
                | Some (sum, count) => roundDiv sum count
                | None => 0
                end)),
   logged w [Call PostRepo "getStatistics"; Sql "posts" SELECT]).
Proof.
  unfold PostRepository.getStatistics, PostService.db, postsOf, logged.
  cbv [wrap tryCatch bind ret emit getDatabase Knex.table Knex.select].
  cbn [database now trace Knex.getTable Knex.postsTable Knex.tableName].
  rewrite <- app_assoc.
  assert (F : forall l : list PostRow, filter (fun _ => true) l = l).
  { intros l. apply filter_all. reflexivity. }
  rewrite F. reflexivity.
Qed.

Lemma filter_partition_length {R} (p : R -> bool) (l : list R) :
  (List.length (filter p l) + List.length (filter (fun r => negb (p r)) l))%nat = List.length l.
Proof.
  induction l as [|a l IH]; [reflexivity|]. cbn. destruct (p a); cbn; lia.
Qed.

Lemma withoutLinks_negb r : PostRepository.withoutLinks r = negb (PostRepository.withLinks r).
Proof.
  unfold PostRepository.withoutLinks, PostRepository.withLinks.
  destruct (p_links r); [now rewrite negb_involutive | reflexivity].
Qed.

Lemma roundDiv_nearest sum count :
  0 < count -> 2 * sum - count < 2 * count * roundDiv sum count <= 2 * sum + count.
Proof.
  intros H. unfold roundDiv.
  pose proof (Z.div_mod (2 * sum + count) (2 * count) ltac:(lia)).
  pose proof (Z.mod_pos_bound (2 * sum + count) (2 * count) ltac:(lia)). nia.
Qed.

Lemma matchingPosts_hasLinks b w :
  matchingPosts (PostValidation.mkQueryValue 1 20 None (Some b)) w
  = filter (if b then PostRepository.withLinks else PostRepository.withoutLinks)
           (rows (postsOf w)).
Proof. unfold matchingPosts. apply filter_ext. intros r. now destruct b. Qed.

(** X13.  [getStatistics] of the post service returns on every state of the
    table, writes nothing, and its counts agree with the listings:
    [totalPosts] is the number of rows; [postsWithLinks] is the number of
    posts [getPostsWithLinks] returns and the [total] of [getAllPosts] with
    [hasLinks: true]; [postsWithoutLinks] is the [total] of [getAllPosts]
    with [hasLinks: false]; the two add up to [totalPosts].  The average
    description length is [0] when no post has a description, and otherwise
    the mean of the lengths rounded to the nearest integer. *)
Theorem post_statistics_agree_with_listings (w : World) :
  exists stats w1 found w2 withLinks w3 withoutLinks w4,
    PostService.getStatistics w = (Resolved stats, w1)
    /\ PostService.getPostsWithLinks w = (Resolved found, w2)
    /\ PostService.getAllPosts (PostValidation.mkQueryInput None None None (Some true)) w
       = (Resolved withLinks, w3)
    /\ PostService.getAllPosts (PostValidation.mkQueryInput None None None (Some false)) w
       = (Resolved withoutLinks, w4)
    /\ database w1 = database w /\ database w2 = database w
    /\ PostRepository.totalPosts stats = Z.of_nat (List.length (rows (postsOf w)))
    /\ PostRepository.postsWithLinks stats = Z.of_nat (List.length found)
    /\ PostRepository.postsWithLinks stats = total withLinks
    /\ PostRepository.postsWithoutLinks stats = total withoutLinks
    /\ PostRepository.postsWithLinks stats + PostRepository.postsWithoutLinks stats
       = PostRepository.totalPosts stats
    /\ 0 <= PostRepository.postsWithoutLinks stats
    /\ match PostRepository.descriptionLengths (rows (postsOf w)) with
       | [] => PostRepository.averageDescriptionLength stats = 0
       | lengths =>
           let sum := fold_right Z.add 0 lengths in
           let count := Z.of_nat (List.length lengths) in
           2 * sum - count
           < 2 * count * PostRepository.averageDescriptionLength stats
           <= 2 * sum + count
       end.
Proof.
  pose proof (filter_partition_length PostRepository.withLinks (rows (postsOf w))) as P.
  do 8 eexists.
  split; [unfold PostService.getStatistics; rewrite rethrow_run;
          rewrite (bind_resolved _ _ _ _ _ (PostRepository_getStatistics_run w));
          reflexivity|].
  split; [unfold PostService.getPostsWithLinks; rewrite rethrow_run;
          rewrite (bind_resolved _ _ _ _ _ (PostRepository_findPostsWithLinks_run w));
          reflexivity|].
  split; [rewrite (getAllPosts_valid (PostValidation.mkQueryInput None None None (Some true))
                     (PostValidation.mkQueryValue 1 20 None (Some true)) w eq_refl);
          apply PostRepository_findAll; exact defaults_inSchemaRange|].
  split; [rewrite (getAllPosts_valid (PostValidation.mkQueryInput None None None (Some false))
                     (PostValidation.mkQueryValue 1 20 None (Some false)) w eq_refl);
          apply PostRepository_findAll; exact defaults_inSchemaRange|].
  cbn [PostRepository.totalPosts PostRepository.postsWithLinks PostRepository.postsWithoutLinks
       PostRepository.averageDescriptionLength total].
  rewrite !matchingPosts_hasLinks.
  repeat match goal with |- _ /\ _ => split end; try reflexivity.
  - now rewrite length_map, orderByIndexDesc_length.
  - rewrite (filter_ext _ _ withoutLinks_negb). lia.
  - lia.
  - lia.
  - destruct (PostRepository.descriptionLengths (rows (postsOf w))) as [|x l] eqn:D;
      [reflexivity|].
    cbv zeta. unfold Sqlite.avg. apply roundDiv_nearest. cbn [List.length]. lia.
Qed.


(** ** The order of a listing *)

Section OrderBySorted.
Context {R : Type} (before : R -> R -> bool).
Hypothesis before_total : forall a b, before a b = true \/ before b a = true.
Hypothesis before_trans :
  forall a b c, before a b = true -> before b c = true -> before a c = true.

Lemma insertBy_sorted x l :
  StronglySorted (fun a b => before a b = true) l ->
  StronglySorted (fun a b => before a b = true) (Sqlite.insertBy before x l).
Proof.
  induction 1 as [|y l Hs IH Hy]; cbn; [repeat constructor|].
  destruct (before x y) eqn:E.
  - constructor; [now constructor|]. constructor; [exact E|].
    eapply Forall_impl; [|exact Hy]. intros z Hz. now apply (before_trans x y z).
  - constructor; [exact IH|]. apply Forall_forall. intros z Hz.
    apply insertBy_In in Hz as [->|Hz].
    + destruct (before_total x y) as [C|C]; [congruence | exact C].
    + rewrite Forall_forall in Hy. now apply Hy.
Qed.

Lemma orderBy_sorted l : StronglySorted (fun a b => before a b = true) (Sqlite.orderBy before l).
Proof.
  induction l as [|x l IH]; cbn; [constructor | now apply insertBy_sorted].
Qed.
End OrderBySorted.

Section OrderByPermutation.
Context {R : Type} (before : R -> R -> bool).

Lemma insertBy_permutation x l : Permutation (Sqlite.insertBy before x l) (x :: l).
Proof.
  induction l as [|y l IH]; cbn; [reflexivity|].
  destruct (before x y); [reflexivity|].
  rewrite IH. apply perm_swap.
Qed.

Lemma orderBy_permutation l : Permutation (Sqlite.orderBy before l) l.
Proof.
  induction l as [|x l IH]; cbn; [reflexivity|].
  rewrite insertBy_permutation. now constructor.
Qed.
End OrderByPermutation.

Lemma StronglySorted_skipn {R} (le : R -> R -> Prop) n (l : list R) :
  StronglySorted le l -> StronglySorted le (skipn n l).
Proof.
  revert l. induction n as [|n IH]; intros l H; [exact H|].
  destruct l as [|x l]; [constructor|]. cbn. apply IH. now inversion H.
Qed.

Lemma StronglySorted_firstn {R} (le : R -> R -> Prop) n (l : list R) :
  StronglySorted le l -> StronglySorted le (firstn n l).
Proof.
  revert l. induction n as [|n IH]; intros l H; [constructor|].
  destruct l as [|x l]; [constructor|]. cbn. inversion H as [|? ? Hs Hx]; subst.
  constructor; [now apply IH|]. apply Forall_forall. intros y Hy.
  rewrite Forall_forall in Hx. apply Hx. now apply In_firstn in Hy.
Qed.

Lemma StronglySorted_page {R} (le : R -> R -> Prop) limit offset (l : list R) :
  StronglySorted le l ->
  StronglySorted le (Sqlite.limit limit (Sqlite.offset offset l)).
Proof.
  intros H. unfold Sqlite.limit, Sqlite.offset.
  destruct (limit <? 0); [|apply StronglySorted_firstn]; now apply StronglySorted_skipn.
Qed.

Lemma ascii_compare_refl a : Ascii.compare a a = Eq.
Proof. unfold Ascii.compare. apply N.compare_refl. Qed.

Lemma ascii_compare_lt_trans a b c :
  Ascii.compare a b = Lt -> Ascii.compare b c = Lt -> Ascii.compare a c = Lt.
Proof. unfold Ascii.compare. rewrite !N.compare_lt_iff. lia. Qed.

Lemma string_compare_refl s : String.compare s s = Eq.
Proof. induction s as [|a s IH]; cbn; [reflexivity|]. now rewrite ascii_compare_refl. Qed.

Lemma string_compare_lt_trans s1 s2 s3 :
  String.compare s1 s2 = Lt -> String.compare s2 s3 = Lt -> String.compare s1 s3 = Lt.
Proof.
  revert s2 s3. induction s1 as [|a s1 IH]; intros [|b s2] [|c s3]; cbn;
    try discriminate; auto.
  destruct (Ascii.compare a b) eqn:Eab; try discriminate;
    destruct (Ascii.compare b c) eqn:Ebc; try discriminate; intros H1 H2.
  - apply Ascii.compare_eq_iff in Eab, Ebc. subst. rewrite ascii_compare_refl. eauto.
  - apply Ascii.compare_eq_iff in Eab. subst. now rewrite Ebc.
  - apply Ascii.compare_eq_iff in Ebc. subst. now rewrite Eab.
  - now rewrite (ascii_compare_lt_trans a b c).
Qed.

Lemma string_leb_trans s1 s2 s3 :
  String.leb s1 s2 = true -> String.leb s2 s3 = true -> String.leb s1 s3 = true.
Proof.
  unfold String.leb.
  destruct (String.compare s1 s2) eqn:E12; try discriminate;
    destruct (String.compare s2 s3) eqn:E23; try discriminate; intros _ _.
  - apply String.compare_eq_iff in E12, E23. subst. now rewrite string_compare_refl.
  - apply String.compare_eq_iff in E12. subst. now rewrite E23.
  - apply String.compare_eq_iff in E23. subst. now rewrite E12.
  - now rewrite (string_compare_lt_trans s1 s2 s3).
Qed.

Lemma StronglySorted_weaken {R} (le le' : R -> R -> Prop) (l : list R) :
  (forall a b, le a b -> le' a b) -> StronglySorted le l -> StronglySorted le' l.
Proof.
  intros H. induction 1 as [|x l Hs IH Hx]; constructor; [exact IH|].
  eapply Forall_impl; [|exact Hx]. intros b. apply H.
Qed.

Lemma createdDesc_sorted l :
  StronglySorted (fun a b => p_created_at b <= p_created_at a)
    (Sqlite.orderBy PostRepository.createdDesc l).
Proof.
  eapply StronglySorted_weaken; [|apply (orderBy_sorted PostRepository.createdDesc)].
  - intros a b H. now apply Z.leb_le in H.
  - intros a b. unfold PostRepository.createdDesc.
    destruct (Z.leb_spec (p_created_at b) (p_created_at a)); [now left|].
    right. apply Z.leb_le. lia.
  - intros a b c. unfold PostRepository.createdDesc. rewrite !Z.leb_le. lia.
Qed.

Lemma nameAsc_sorted l :
  StronglySorted (fun a b => String.leb (sr_name a) (sr_name b) = true)
    (Sqlite.orderBy SubredditRepository.nameAsc l).
Proof.
  apply (orderBy_sorted SubredditRepository.nameAsc).
  - intros a b. apply String.leb_total.
  - intros a b c. apply string_leb_trans.
Qed.

Lemma createdIndex_sorted l :
  StronglySorted (fun a b => p_created_at b <= p_created_at a)
    (Sqlite.orderByIndexDesc PostRepository.createdDesc l).
Proof. apply createdDesc_sorted. Qed.

Lemma orderByIndexDesc_permutation {R} (before : R -> R -> bool) (l : list R) :
  Permutation (Sqlite.orderByIndexDesc before l) l.
Proof.
  unfold Sqlite.orderByIndexDesc. rewrite orderBy_permutation.
  symmetry. apply Permutation_rev.
Qed.

Lemma StronglySorted_limit {R} (le : R -> R -> Prop) limit (l : list R) :
  StronglySorted le l -> StronglySorted le (Sqlite.limit limit l).
Proof.
  intros H. unfold Sqlite.limit. destruct (limit <? 0); [exact H|].
  now apply StronglySorted_firstn.
Qed.

(** What a statement returns is in the order of the rows it matched. *)
Lemma window_sorted {R} (le : R -> R -> Prop) limit offset (ordered page : list R) w w' :
  StronglySorted le ordered ->
  Knex.window limit offset ordered w = (Resolved page, w') ->
  StronglySorted le page.
Proof.
  intros Hs. unfold Knex.window. destruct (_ && _); [|discriminate].
  intros [= <- _]. destruct limit, offset;
    first [apply StronglySorted_page | apply StronglySorted_limit
          | apply StronglySorted_skipn | idtac]; exact Hs.
Qed.

Lemma PostRepository_searchByText_run text limit w :
  Z.abs limit < 2 ^ 53 ->
  PostRepository.searchByText PostService.db text limit w =
  (Resolved (fromPostRows
               (Sqlite.limit limit
                  (Sqlite.orderByIndexDesc PostRepository.createdDesc
                     (filter (fun r => Sqlite.like (searchPattern text) (p_title r)
                                       || Sqlite.likeNullable (searchPattern text)
                                            (p_description r))
                             (rows (postsOf w)))))),
   logged w [Call PostRepo "searchByText"; Sql "posts" SELECT]).
Proof.
  intros Hl.
  unfold PostRepository.searchByText, PostService.db, postsOf, logged, fromPostRows.
  rewrite limitClause_safe by exact Hl.
  cbv [wrap tryCatch bind ret emit getDatabase Knex.table Knex.select].
  rewrite window_limit_run, isInteger_range.
  - cbn [database now trace]. now rewrite <- app_assoc.
  - assert (2 ^ 53 < 2 ^ 63) by reflexivity. lia.
Qed.

Lemma SubredditRepository_searchByName_run text limit w :
  Z.abs limit < 2 ^ 53 ->
  SubredditRepository.searchByName SubredditService.db text limit w =
  (Resolved (fromSubredditRows
               (Sqlite.limit limit
                  (Sqlite.orderBy SubredditRepository.nameAsc
                     (filter (fun r => Sqlite.like (searchPattern text) (sr_name r))
                             (rows (subredditsOf w)))))),
   logged w [Call SubredditRepo "searchByName"; Sql "subreddits" SELECT]).
Proof.
  intros Hl.
  unfold SubredditRepository.searchByName, SubredditService.db, subredditsOf, logged,
    fromSubredditRows.
  rewrite limitClause_safe by exact Hl.
  cbv [wrap tryCatch bind ret emit getDatabase Knex.table Knex.select].
  rewrite window_limit_run, isInteger_range.
  - cbn [database now trace]. now rewrite <- app_assoc.
  - assert (2 ^ 53 < 2 ^ 63) by reflexivity. lia.
Qed.

Lemma PostRepository_findAll_ordered options w r w' :
  PostRepository.findAll PostService.db options w = (Resolved r, w') ->
  exists page, items r = fromPostRows page /\ newestFirst page.
Proof.
  unfold PostRepository.findAll, PostService.db.
  cbv [wrap tryCatch bind ret emit getDatabase Knex.table Knex.count Knex.select].
  destruct (Knex.offsetClause _ _) as [[clause|e] w1]; [|discriminate].
  destruct (Knex.window _ _ _ _) as [[page|e] w2] eqn:W; [|discriminate].
  intros [= <- _]. exists page. split; [reflexivity|].
  eapply window_sorted; [|exact W]. apply createdIndex_sorted.
Qed.

Lemma SubredditRepository_findAll_ordered options w r w' :
  SubredditRepository.findAll SubredditService.db options w = (Resolved r, w') ->
  exists page, items r = fromSubredditRows page /\ byName page.
Proof.
  unfold SubredditRepository.findAll, SubredditService.db.
  cbv [wrap tryCatch bind ret emit getDatabase Knex.table Knex.count Knex.select].
  destruct (Knex.offsetClause _ _) as [[clause|e] w1]; [|discriminate].
  destruct (Knex.window _ _ _ _) as [[page|e] w2] eqn:W; [|discriminate].
  intros [= <- _]. exists page. split; [reflexivity|].
  eapply window_sorted; [|exact W]. apply nameAsc_sorted.
Qed.

(** X15.  Every listing comes in its order.  Whatever [findAll] and
    [searchByText] of the post repository return are posts read from rows
    sorted by creation time, newest first, and whatever [findAll] and
    [searchByName] of the subreddit repository return are subreddits read
    from rows sorted by name.  They do return for what the services pass
    them: a page and a limit in the range of the query schemas, and a limit
    that is a safe integer. *)
Theorem listings_are_ordered (w : World) :
  (forall options r w',
     PostRepository.findAll PostService.db options w = (Resolved r, w') ->
     exists page, items r = fromPostRows page /\ newestFirst page) /\
  (forall text limit found w',
     PostRepository.searchByText PostService.db text limit w = (Resolved found, w') ->
     exists page, found = fromPostRows page /\ newestFirst page) /\
  (forall options r w',
     SubredditRepository.findAll SubredditService.db options w = (Resolved r, w') ->
     exists page, items r = fromSubredditRows page /\ byName page) /\
  (forall text limit found w',
     SubredditRepository.searchByName SubredditService.db text limit w
       = (Resolved found, w') ->
     exists page, found = fromSubredditRows page /\ byName page) /\
  (forall options,
     inSchemaRange (PostValidation.q_page options) (PostValidation.q_limit options) ->
     exists r w', PostRepository.findAll PostService.db options w = (Resolved r, w')) /\
  (forall options,
     inSchemaRange (SubredditValidation.q_page options)
                   (SubredditValidation.q_limit options) ->
     exists r w',
       SubredditRepository.findAll SubredditService.db options w = (Resolved r, w')) /\
  (forall text limit,
     Z.abs limit < 2 ^ 53 ->
     (exists found w',
        PostRepository.searchByText PostService.db text limit w = (Resolved found, w')) /\
     (exists found w',
        SubredditRepository.searchByName SubredditService.db text limit w
          = (Resolved found, w'))).
Proof.
  split; [|split; [|split; [|split; [|split; [|split]]]]].
  - intros options r w'. apply PostRepository_findAll_ordered.
  - intros text limit found w'.
    unfold PostRepository.searchByText, PostService.db.
    cbv [wrap tryCatch bind ret emit getDatabase Knex.table Knex.select].
    destruct (Knex.window _ _ _ _) as [[page|e] w2] eqn:W; [|discriminate].
    intros [= <- _]. exists page. split; [reflexivity|].
    eapply window_sorted; [|exact W]. apply createdIndex_sorted.
  - intros options r w'. apply SubredditRepository_findAll_ordered.
  - intros text limit found w'.
    unfold SubredditRepository.searchByName, SubredditService.db.
    cbv [wrap tryCatch bind ret emit getDatabase Knex.table Knex.select].
    destruct (Knex.window _ _ _ _) as [[page|e] w2] eqn:W; [|discriminate].
    intros [= <- _]. exists page. split; [reflexivity|].
    eapply window_sorted; [|exact W]. apply nameAsc_sorted.
  - intros options Hr. do 2 eexists. now apply PostRepository_findAll.
  - intros options Hr. do 2 eexists. now apply SubredditRepository_findAll.
  - intros text limit Hl. split; do 2 eexists.
    + now apply PostRepository_searchByText_run.
    + now apply SubredditRepository_searchByName_run.
Qed.

(** Outside those ranges a listing can fail: page 0 has a negative offset,
    which knex refuses once the count has run, and SQLite takes no limit
    from 2^63 on. *)
Example listing_refused :
  PostRepository.findAll PostService.db (PostValidation.mkQueryValue 0 20 None None) dealWorld
    = (Rejected (mkError RepositoryError
         "Failed to find posts: A non-negative integer must be provided to offset."),
       logged dealWorld [Call PostRepo "findAll"; Sql "posts" SELECT]) /\
  fst (SubredditRepository.findAll SubredditService.db
         (SubredditValidation.mkQueryValue 0 20 None "name" "asc") newsWorld)
    = Rejected (mkError RepositoryError
        "Failed to find subreddits: A non-negative integer must be provided to offset.") /\
  failsWith RepositoryError
    (PostRepository.findAll PostService.db (PostValidation.mkQueryValue 1 (2 ^ 63) None None))
    dealWorld /\
  failsWith RepositoryError (PostRepository.searchByText PostService.db "a" (2 ^ 63))
    dealWorld.
Proof.
  split; [vm_compute; reflexivity|]. split; [vm_compute; reflexivity|].
  split; do 2 eexists; vm_compute; reflexivity.
Qed.

(** ** Walking the pages *)

Lemma firstn_app_skipn {R} a b (l : list R) :
  (firstn a l ++ firstn b (skipn a l))%list = firstn (a + b) l.
Proof.
  revert l. induction a as [|a IH]; intros l; [reflexivity|].
  destruct l as [|x l]; cbn; [now rewrite firstn_nil | now rewrite IH].
Qed.

Lemma chunks_from {R} (size : nat) (l : list R) k start :
  flat_map (fun i => firstn size (skipn (i * size) l)) (List.seq start k)
  = firstn (k * size) (skipn (start * size) l).
Proof.
  revert start. induction k as [|k IH]; intros start; [reflexivity|].
  cbn [List.seq flat_map]. rewrite IH.
  replace (S start * size)%nat with (size + start * size)%nat by lia.
  rewrite <- skipn_skipn, firstn_app_skipn. f_equal.
Qed.

Lemma chunks_all {R} (size : nat) (l : list R) k :
  (List.length l <= k * size)%nat ->
  flat_map (fun p => firstn size (skipn ((p - 1) * size) l)) (List.seq 1 k) = l.
Proof.
  intros H.
  transitivity (firstn (k * size) (skipn (0 * size) l)); [|now apply firstn_all2].
  rewrite <- (chunks_from size l k 0), <- seq_shift, flat_map_concat_map, map_map.
  rewrite <- flat_map_concat_map. apply flat_map_ext. intros i.
  now replace (S i - 1)%nat with i by lia.
Qed.

Lemma flat_map_map {A B C} (f : B -> C) (g : A -> list B) (l : list A) :
  flat_map (fun x => map f (g x)) l = map f (flat_map g l).
Proof.
  induction l as [|a l IH]; [reflexivity|]. cbn. now rewrite map_app, IH.
Qed.

Lemma page_chunk {R} (limit : Z) (p : nat) (l : list R) :
  1 <= limit ->
  Sqlite.limit limit (Sqlite.offset ((Z.of_nat p - 1) * limit) l)
  = firstn (Z.to_nat limit) (skipn ((p - 1) * Z.to_nat limit) l).
Proof.
  intros H. unfold Sqlite.limit, Sqlite.offset.
  destruct (Z.ltb_spec limit 0); [lia|]. do 2 f_equal.
  destruct p as [|p].
  - replace ((Z.of_nat 0 - 1) * limit) with (- limit) by lia. cbn. lia.
  - replace (S p - 1)%nat with p by lia.
    replace (Z.of_nat (S p) - 1) with (Z.of_nat p) by lia.
    rewrite Z2Nat.inj_mul by lia. now rewrite Nat2Z.id.
Qed.

Lemma pages_enough total limit :
  1 <= limit -> (total <= Z.to_nat (ceilDiv (Z.of_nat total) limit) * Z.to_nat limit)%nat.
Proof.
  intros H. pose proof (ceilDiv_spec (Z.of_nat total) limit ltac:(lia)) as [_ Hc].
  assert (Hp : 0 <= ceilDiv (Z.of_nat total) limit) by nia.
  rewrite <- Z2Nat.inj_mul by lia. lia.
Qed.

Lemma flat_map_ext_in {A B} (f g : A -> list B) (l : list A) :
  (forall a, In a l -> f a = g a) -> flat_map f l = flat_map g l.
Proof.
  induction l as [|a l IH]; intros H; [reflexivity|]. cbn.
  rewrite (H a) by now left. rewrite IH; [reflexivity|]. intros b Hb. apply H. now right.
Qed.

(** The pages [1 .. pages] of fewer than 2^53 rows are in the range of the
    query schemas, and their offsets are exact. *)
Lemma page_in_range limit total p :
  1 <= limit <= 100 -> Z.of_nat total < 2 ^ 53 ->
  In p (List.seq 1 (Z.to_nat (ceilDiv (Z.of_nat total) limit))) ->
  inSchemaRange (Z.of_nat p) limit
  /\ offsetOf (Z.of_nat p) limit = (Z.of_nat p - 1) * limit.
Proof.
  intros Hl Ht Hp. apply in_seq in Hp.
  pose proof (ceilDiv_spec (Z.of_nat total) limit ltac:(lia)) as [Hc _].
  assert (Hpages : 0 <= ceilDiv (Z.of_nat total) limit) by nia.
  assert (Hle : Z.of_nat p <= ceilDiv (Z.of_nat total) limit) by lia.
  assert (Hx : (Z.of_nat p - 1) * limit < 2 ^ 53) by nia.
  assert (Hp' : Z.of_nat p < 2 ^ 53) by nia.
  split.
  - unfold inSchemaRange, Joi.MAX_SAFE_INTEGER. lia.
  - apply offsetOf_exact; lia.
Qed.

(** X16.  Walking the pages [1 .. pages] of [findAll] with a fixed limit
    from 1 to 100 and fixed filters, on a table that does not change
    meanwhile and has fewer than 2^53 matching rows, yields every matching
    row once and none twice: the items of the pages, one page after the
    other, are the matching rows in the order of the listing. *)
Theorem pages_cover_listing (limit : Z) (w : World) :
  1 <= limit <= 100 ->
  (forall search hasLinks,
     let matching := matchingPosts (PostValidation.mkQueryValue 1 limit search hasLinks) w in
     let pages := ceilDiv (Z.of_nat (List.length matching)) limit in
     Z.of_nat (List.length matching) < 2 ^ 53 ->
     exists listing,
       flat_map (fun p => itemsOf (PostRepository.findAll PostService.db
                                     (PostValidation.mkQueryValue (Z.of_nat p) limit search
                                        hasLinks) w))
                (List.seq 1 (Z.to_nat pages))
       = fromPostRows listing
       /\ Permutation listing matching /\ newestFirst listing) /\
  (forall search sortBy sortOrder,
     let matching := matchingSubreddits
                       (SubredditValidation.mkQueryValue 1 limit search sortBy sortOrder) w in
     let pages := ceilDiv (Z.of_nat (List.length matching)) limit in
     Z.of_nat (List.length matching) < 2 ^ 53 ->
     exists listing,
       flat_map (fun p => itemsOf (SubredditRepository.findAll SubredditService.db
                                     (SubredditValidation.mkQueryValue (Z.of_nat p) limit search
                                        sortBy sortOrder) w))
                (List.seq 1 (Z.to_nat pages))
       = fromSubredditRows listing
       /\ Permutation listing matching /\ byName listing).
Proof.
  intros Hl. assert (Hl1 : 1 <= limit) by lia. split.
  - intros search hasLinks matching pages Ht.
    exists (Sqlite.orderByIndexDesc PostRepository.createdDesc matching).
    split; [|split; [apply orderByIndexDesc_permutation | apply createdIndex_sorted]].
    erewrite flat_map_ext_in.
    2:{ intros p Hp. destruct (page_in_range limit _ p Hl Ht Hp) as [Hr Ho].
        rewrite PostRepository_findAll by exact Hr. unfold itemsOf. cbn [fst items].
        unfold postPage. cbn [PostValidation.q_page PostValidation.q_limit].
        change (matchingPosts _ w) with matching.
        rewrite Ho, (page_chunk limit p _ Hl1). reflexivity. }
    unfold fromPostRows. rewrite flat_map_map, chunks_all; [reflexivity|].
    rewrite orderByIndexDesc_length. now apply pages_enough.
  - intros search sortBy sortOrder matching pages Ht.
    exists (Sqlite.orderBy SubredditRepository.nameAsc matching).
    split; [|split; [apply orderBy_permutation | apply nameAsc_sorted]].
    erewrite flat_map_ext_in.
    2:{ intros p Hp. destruct (page_in_range limit _ p Hl Ht Hp) as [Hr Ho].
        rewrite SubredditRepository_findAll by exact Hr. unfold itemsOf. cbn [fst items].
        unfold subredditPage. cbn [SubredditValidation.q_page SubredditValidation.q_limit].
        change (matchingSubreddits _ w) with matching.
        rewrite Ho, (page_chunk limit p _ Hl1). reflexivity. }
    unfold fromSubredditRows. rewrite flat_map_map, chunks_all; [reflexivity|].
    rewrite orderBy_length. now apply pages_enough.
Qed.

Lemma pages_cover_listing_witness :
  exists listing,
    flat_map (fun p => itemsOf (PostRepository.findAll PostService.db
                                  (PostValidation.mkQueryValue (Z.of_nat p) 1 None None)
                                  linkedWorld))
             [1%nat; 2%nat]
    = fromPostRows listing
    /\ Permutation listing (rows (postsOf linkedWorld)) /\ newestFirst listing.
Proof.
  destruct (pages_cover_listing 1 linkedWorld) as [H _]; [lia|].
  apply (H None None). vm_compute. reflexivity.
Defined.

(** ** The size of a page *)

Lemma PostValidation_query_defaults raw value :
  PostValidation.query raw = Valid value ->
  (PostValidation.page raw = None -> PostValidation.q_page value = 1) /\
  (PostValidation.limit raw = None -> PostValidation.q_limit value = 20).
Proof.
  unfold PostValidation.query.
  destruct (Joi.bounded "page" _ _ _ _) as [p|] eqn:P; [|discriminate].
  destruct (Joi.bounded "limit" _ _ _ _) as [l|] eqn:L; [|discriminate].
  destruct (Joi.search _ _ _) as [s|]; [|discriminate].
  intros [= <-]. cbn. split; intros E; rewrite E in *; cbn in *; congruence.
Qed.

Lemma SubredditValidation_query_defaults raw value :
  SubredditValidation.query raw = Valid value ->
  (SubredditValidation.page raw = None -> SubredditValidation.q_page value = 1) /\
  (SubredditValidation.limit raw = None -> SubredditValidation.q_limit value = 20).
Proof.
  unfold SubredditValidation.query.
  destruct (Joi.bounded "page" _ _ _ _) as [p|] eqn:P; [|discriminate].
  destruct (Joi.bounded "limit" _ _ _ _) as [l|] eqn:L; [|discriminate].
  destruct (Joi.search _ _ _) as [s|]; [|discriminate].
  destruct (Joi.oneOf "sortBy" _ _ _) as [sb|]; [|discriminate].
  destruct (Joi.oneOf "sortOrder" _ _ _) as [so|]; [|discriminate].
  intros [= <-]. cbn. split; intros E; rewrite E in *; cbn in *; congruence.
Qed.

(** X17.  [getAllPosts] and [getAllSubreddits] either reject the options with a
    validation error, before any repository call, or return a page with
    [page >= 1] and [1 <= limit <= 100] that holds at most [limit] items;
    the page is [1] and the limit [20] when the options leave them out.  So
    no call returns more than a hundred items. *)
Theorem getAll_page_is_bounded (w : World) :
  (forall raw,
     match PostValidation.query raw with
     | Valid value =>
         exists r,
           PostService.getAllPosts raw w
             = (Resolved r, logged w [Call PostRepo "findAll"; Sql "posts" SELECT;
                                      Sql "posts" SELECT])
           /\ 1 <= page r /\ 1 <= limit r <= 100
           /\ Z.of_nat (List.length (items r)) <= limit r
           /\ (PostValidation.page raw = None -> page r = 1)
           /\ (PostValidation.limit raw = None -> limit r = 20)
     | Invalid detail =>
         PostService.getAllPosts raw w
           = (Rejected (mkError ValidationError ("Query validation error: " ++ detail)), w)
     end) /\
  (forall raw,
     match SubredditValidation.query raw with
     | Valid value =>
         exists r,
           SubredditService.getAllSubreddits raw w
             = (Resolved r, logged w [Call SubredditRepo "findAll"; Sql "subreddits" SELECT;
                                      Sql "subreddits" SELECT])
           /\ 1 <= page r /\ 1 <= limit r <= 100
           /\ Z.of_nat (List.length (items r)) <= limit r
           /\ (SubredditValidation.page raw = None -> page r = 1)
           /\ (SubredditValidation.limit raw = None -> limit r = 20)
     | Invalid detail =>
         SubredditService.getAllSubreddits raw w
           = (Rejected (mkError ValidationError ("Query validation error: " ++ detail)), w)
     end).
Proof.
  split; intros raw.
  - destruct (PostValidation.query raw) as [value|detail] eqn:V.
    + destruct (PostValidation_query_hasLinks _ _ V) as (Hp & Hl & _).
      destruct (PostValidation_query_defaults _ _ V) as [Dp Dl].
      eexists. split; [rewrite (getAllPosts_valid _ _ _ V); apply PostRepository_findAll;
                       exact (PostValidation_query_range _ _ V)|].
      cbn [page limit items]. repeat split; try lia; try assumption.
      rewrite length_map. apply limit_length. lia.
    + unfold PostService.getAllPosts. rewrite rethrow_run, V. reflexivity.
  - destruct (SubredditValidation.query raw) as [value|detail] eqn:V.
    + destruct (SubredditValidation_query_bounds _ _ V) as (Hp & Hl).
      destruct (SubredditValidation_query_defaults _ _ V) as [Dp Dl].
      eexists. split; [rewrite (getAllSubreddits_valid _ _ _ V);
                       apply SubredditRepository_findAll;
                       exact (SubredditValidation_query_range _ _ V)|].
      cbn [page limit items]. repeat split; try lia; try assumption.
      rewrite length_map. apply limit_length. lia.
    + unfold SubredditService.getAllSubreddits. rewrite rethrow_run, V. reflexivity.
Qed.

(** ** Operations that only read *)

Lemma logged_nil w : logged w [] = w.
Proof. destruct w. unfold logged. cbn. now rewrite List.app_nil_r. Qed.

Section ReadOnly.
Context {A B : Type}.

Lemma readOnly_ret (a : A) : readOnly (ret a).
Proof. intros w. exists []. now rewrite logged_nil. Qed.

Lemma readOnly_throw k msg : readOnly (throw (A := A) k msg).
Proof. intros w. exists []. now rewrite logged_nil. Qed.

Lemma readOnly_bind (m : Async A) (k : A -> Async B) :
  readOnly m -> (forall a, readOnly (k a)) -> readOnly (bind m k).
Proof.
  intros Hm Hk w. unfold bind. destruct (Hm w) as (e1 & E1 & R1).
  destruct (m w) as [[a|e] w']; cbn in E1; subst w'.
  - destruct (Hk a (logged w e1)) as (e2 & E2 & R2). exists (e1 ++ e2)%list.
    rewrite E2, logged_app, forallb_app, R1, R2. now split.
  - exists e1. now split.
Qed.

Lemma readOnly_tryCatch (body : Async A) handler :
  readOnly body -> (forall e, readOnly (handler e)) -> readOnly (tryCatch body handler).
Proof.
  intros Hb Hh w. unfold tryCatch. destruct (Hb w) as (e1 & E1 & R1).
  destruct (body w) as [[a|e] w']; cbn in E1; subst w'.
  - exists e1. now split.
  - destruct (Hh e (logged w e1)) as (e2 & E2 & R2). exists (e1 ++ e2)%list.
    rewrite E2, logged_app, forallb_app, R1, R2. now split.
Qed.

Lemma readOnly_rethrow (body : Async A) : readOnly body -> readOnly (rethrow body).
Proof. intros H. apply readOnly_tryCatch; [exact H|]. intros e. apply readOnly_throw. Qed.

Lemma readOnly_wrap prefix (body : Async A) : readOnly body -> readOnly (wrap prefix body).
Proof. intros H. apply readOnly_tryCatch; [exact H|]. intros e. apply readOnly_throw. Qed.
End ReadOnly.

Lemma readOnly_call repo method : readOnly (emit (Call repo method)).
Proof. intros w. now exists [Call repo method]. Qed.

Lemma readOnly_table db : readOnly (Knex.table db).
Proof. destruct db as [[]|]; [apply readOnly_ret | apply readOnly_throw]. Qed.

Lemma readOnly_validate {A} prefix (v : Validated A) : readOnly (validate prefix v).
Proof. destruct v; [apply readOnly_ret | apply readOnly_throw]. Qed.

Lemma readOnly_trimOf expr v : readOnly (trimOf expr v).
Proof. destruct v; first [apply readOnly_ret | apply readOnly_throw]. Qed.

Lemma readOnly_first {R} (ref : Knex.TableRef R) p : readOnly (Knex.first ref p).
Proof. intros w. now exists [Sql (Knex.tableName ref) SELECT]. Qed.

Lemma readOnly_select {R} (ref : Knex.TableRef R) p : readOnly (Knex.select ref p).
Proof. intros w. now exists [Sql (Knex.tableName ref) SELECT]. Qed.

Lemma readOnly_count {R} (ref : Knex.TableRef R) p : readOnly (Knex.count ref p).
Proof. intros w. now exists [Sql (Knex.tableName ref) SELECT]. Qed.

Lemma readOnly_offsetClause value : readOnly (Knex.offsetClause value).
Proof.
  unfold Knex.offsetClause. destruct (Js.parseInt _) as [val|]; [|apply readOnly_ret].
  destruct (val <? 0); [apply readOnly_throw | apply readOnly_ret].
Qed.

Lemma readOnly_window {R} limit offset (ordered : list R) :
  readOnly (Knex.window limit offset ordered).
Proof.
  unfold Knex.window. destruct (_ && _); [apply readOnly_ret | apply readOnly_throw].
Qed.

Ltac read_only :=
  repeat
    lazymatch goal with
    | |- readOnly (Knex.offsetClause _) => apply readOnly_offsetClause
    | |- readOnly (Knex.window _ _ _) => apply readOnly_window
    | |- readOnly (rethrow _) => apply readOnly_rethrow
    | |- readOnly (wrap _ _) => apply readOnly_wrap
    | |- readOnly (ret _) => apply readOnly_ret
    | |- readOnly (throw _ _) => apply readOnly_throw
    | |- readOnly (notAFunction _) => apply readOnly_throw
    | |- readOnly (emit (Call _ _)) => apply readOnly_call
    | |- readOnly (Knex.table _) => apply readOnly_table
    | |- readOnly (validate _ _) => apply readOnly_validate
    | |- readOnly (trimOf _ _) => apply readOnly_trimOf
    | |- readOnly (Knex.first _ _) => apply readOnly_first
    | |- readOnly (Knex.select _ _) => apply readOnly_select
    | |- readOnly (Knex.count _ _) => apply readOnly_count
    | |- readOnly (bind _ _) => apply readOnly_bind; [|intros ?]
    | |- readOnly (match ?x with _ => _ end) => destruct x
    | |- readOnly (let _ := _ in _) => cbv zeta
    end.

(** X18.  The operations that list, look up, search and count only read: on
    every input and in every state, whether they return or throw, they leave
    the three tables as they were, and what they send to storage are SELECT
    statements. *)
Theorem reading_operations_do_not_write :
  (forall options, readOnly (SubredditService.getAllSubreddits options)) /\
  (forall id, readOnly (SubredditService.getSubredditById id)) /\
  (forall name, readOnly (SubredditService.getSubredditByName name)) /\
  (forall text limit, readOnly (SubredditService.searchSubreddits text limit)) /\
  (forall options, readOnly (PostService.getAllPosts options)) /\
  (forall id, readOnly (PostService.getPostById id)) /\
  (forall id, readOnly (PostService.Id id)) /\
  (forall text limit, readOnly (PostService.searchPosts text limit)) /\
  readOnly PostService.getPostsWithLinks /\
  readOnly PostService.getStatistics.
Proof.
  repeat split; intros;
    unfold SubredditService.getAllSubreddits, SubredditService.getSubredditById,
      SubredditService.getSubredditByName, SubredditService.searchSubreddits,
      PostService.getAllPosts, PostService.getPostById, PostService.Id,
      PostService.searchPosts, PostService.getPostsWithLinks, PostService.getStatistics,
      SubredditRepository.findAll, SubredditRepository.findById,
      SubredditRepository.findByName, SubredditRepository.searchByName,
      PostRepository.findAll, PostRepository.findById, PostRepository.searchByText,
      PostRepository.findPostsWithLinks, PostRepository.getStatistics;
    read_only.
Qed.

(** ** What the writing operations do to a table *)

Lemma find_none_absent {R} (p : R -> bool) (l : list R) :
  find p l = None -> forall x, In x l -> p x = false.
Proof. intros H x Hx. now apply (find_none _ _ H). Qed.

Lemma post_find_absent title w :
  find (fun r => String.eqb (p_title r) title) (rows (postsOf w)) = None ->
  ~ postTitled title w.
Proof.
  intros F (row & Hin & Ht). pose proof (find_none_absent _ _ F row Hin) as C.
  cbn in C. rewrite Ht, String.eqb_refl in C. discriminate.
Qed.

Lemma subreddit_find_absent name w :
  find (fun r => String.eqb (sr_name r) name) (rows (subredditsOf w)) = None ->
  ~ subredditNamed name w.
Proof.
  intros F (row & Hin & Ht). pose proof (find_none_absent _ _ F row Hin) as C.
  cbn in C. rewrite Ht, String.eqb_refl in C. discriminate.
Qed.

(** [createPost] either fails and leaves the tables as they were, or
    appends one row under the next id and returns the post read from it. *)
Lemma createPost_cases isUri input w :
  (exists e w', PostService.createPost isUri input w = (Rejected e, w')
                /\ database w' = database w) \/
  (exists row w',
     PostService.createPost isUri input w = (Resolved (Post.new (Post.ofRow row)), w')
     /\ p_id row = freshId Knex.postsTable (postsOf w)
     /\ ~ postTitled (p_title row) w
     /\ database w'
        = mkDatabase (keywords (database w)) (subreddits (database w))
            (mkTable (rows (postsOf w) ++ [row]) (freshId Knex.postsTable (postsOf w)))).
Proof.
  destruct (PostValidation.create isUri input) as [value|detail] eqn:V.
  - destruct (find (fun r => String.eqb (p_title r)
                               (JsString.trim (PostValidation.v_title value)))
                   (rows (postsOf w))) as [y|] eqn:F.
    + left. do 2 eexists. split.
      * unfold PostService.createPost. rewrite rethrow_run.
        rewrite (bind_resolved _ _ _ _ _ (validate_valid _ _ _ w V)).
        rewrite (bind_resolved _ _ _ _ _ (PostRepository_existsByTitle _ w)), F. reflexivity.
      * reflexivity.
    + right. apply post_find_absent in F.
      destruct (createPost_returns_trimmed isUri input value w V F) as [E _].
      do 2 eexists. split; [exact E|]. split; [reflexivity|]. split; [exact F | reflexivity].
  - left. do 2 eexists. split.
    + unfold PostService.createPost. rewrite rethrow_run, V. reflexivity.
    + reflexivity.
Qed.

(** [deletePost] either leaves the tables as they were or removes the
    rows of one id. *)
Lemma deletePost_cases id w :
  exists out w', PostService.deletePost id w = (out, w') /\
    (database w' = database w \/
     exists n, database w'
               = mkDatabase (keywords (database w)) (subreddits (database w))
                   (mkTable (filter (fun r => negb (p_id r =? n)) (rows (postsOf w)))
                            (seq (postsOf w)))).
Proof.
  destruct (Js.truthy id) eqn:Ht; [destruct (Js.parseInt id) as [n|] eqn:Hp|].
  - destruct (postById n w) as [row|] eqn:Hrow.
    + do 2 eexists. split; [apply (deletePost_present id n row w Ht Hp Hrow)|].
      right. now exists n.
    + do 2 eexists. split; [|left].
      * unfold PostService.deletePost. rewrite Ht, Hp, rethrow_run.
        rewrite (bind_resolved _ _ _ _ _ (PostRepository_findById n w)), Hrow. reflexivity.
      * reflexivity.
  - do 2 eexists. split; [|left].
    + unfold PostService.deletePost. now rewrite Ht, Hp.
    + reflexivity.
  - do 2 eexists. split; [|left].
    + unfold PostService.deletePost. now rewrite Ht.
    + reflexivity.
Qed.

Lemma PostValidation_update_needs_id isUri patch value :
  PostValidation.update isUri None patch <> Valid value.
Proof. discriminate. Qed.

(** [updatePost] either leaves the tables as they were or rewrites the
    rows of one id, giving them a title that is the stored one or is not
    stored at all. *)
Lemma updatePost_cases isUri id patch w :
  exists out w', PostService.updatePost isUri id patch w = (out, w') /\
    (database w' = database w \/
     exists n row title description links,
       postById n w = Some row
       /\ (title = p_title row \/ ~ postTitled title w)
       /\ database w'
          = mkDatabase (keywords (database w)) (subreddits (database w))
              (mkTable (map (fun r => if p_id r =? n
                                      then mkPostRow (p_id r) title description links
                                             (p_created_at r) (now w)
                                      else r) (rows (postsOf w)))
                       (seq (postsOf w)))).
Proof.
  destruct (Js.parseInt id) as [n|] eqn:Hp.
  2:{ do 2 eexists. split; [|left].
      - unfold PostService.updatePost. rewrite Hp, rethrow_run. reflexivity.
      - reflexivity. }
  destruct (PostValidation.update isUri (Some n) patch) as [value|detail] eqn:V.
  2:{ do 2 eexists. split; [|left].
      - unfold PostService.updatePost. rewrite Hp, rethrow_run, V. reflexivity.
      - reflexivity. }
  destruct (postById n w) as [row|] eqn:Hrow.
  2:{ do 2 eexists. split; [|left].
      - unfold PostService.updatePost. rewrite Hp, rethrow_run.
        rewrite (bind_resolved _ _ _ _ _ (validate_valid _ _ _ w V)).
        rewrite (PostValidation_update_id _ _ _ _ V).
        rewrite (bind_resolved _ _ _ _ _ (PostRepository_findById n w)), Hrow. reflexivity.
      - reflexivity. }
  rewrite (updatePost_run isUri id n patch value row w Hp V Hrow). cbv zeta.
  assert (W : forall title evs,
            (orEmptyString (match title with Some t => Some t | None => Some (p_title row) end)
               = p_title row
             \/ ~ postTitled (orEmptyString (match title with
                                             | Some t => Some t
                                             | None => Some (p_title row)
                                             end)) w) ->
            exists out w',
              PostRepository.update PostService.db n
                (PostRepository.mkPatch (Some n) title (PostValidation.uv_description value)
                   (PostValidation.uv_links value)) (logged w evs) = (out, w') /\
              (database w' = database w \/
               exists n row title description links,
                 postById n w = Some row
                 /\ (title = p_title row \/ ~ postTitled title w)
                 /\ database w'
                    = mkDatabase (keywords (database w)) (subreddits (database w))
                        (mkTable (map (fun r => if p_id r =? n
                                                then mkPostRow (p_id r) title description links
                                                       (p_created_at r) (now w)
                                                else r) (rows (postsOf w)))
                                 (seq (postsOf w))))).
  { intros title evs Ht.
    assert (Hrow' : postById n (logged w evs) = Some row) by exact Hrow.
    rewrite (PostRepository_update_run n _ row (logged w evs) Hrow'). cbv zeta.
    do 2 eexists. split; [reflexivity|]. right.
    exists n, row. do 3 eexists. split; [exact Hrow|]. split; [|reflexivity].
    cbn [Post.c_title Post.toDatabase Post.title Post.new PostRepository.merge
         PostRepository.patch_title Post.d_title Post.spread].
    change (Post.title (Post.new (Post.ofRow row))) with (p_title row).
    destruct title; exact Ht. }
  destruct (PostValidation.uv_title value) as [v|].
  - destruct (String.eqb_spec v (p_title row)) as [->|Hne].
    + apply W. now left.
    + destruct (find _ (rows (postsOf w))) eqn:F.
      * do 2 eexists. split; [reflexivity | left; reflexivity].
      * apply W. right. now apply post_find_absent.
  - apply W. now left.
Qed.

(** ** Tables stay well formed *)

Lemma NoDup_map_filter {R K} (f : R -> K) (p : R -> bool) (l : list R) :
  NoDup (map f l) -> NoDup (map f (filter p l)).
Proof.
  induction l as [|a l IH]; cbn; [auto|]. intros H. inversion H as [|? ? Hn Hd]; subst.
  destruct (p a); cbn; [|auto]. constructor; [|auto].
  intros C. apply Hn. apply in_map_iff in C as (x & Hx & Hin).
  apply in_map_iff. exists x. split; [exact Hx|]. now apply filter_In in Hin.
Qed.

Lemma NoDup_map_snoc {R K} (f : R -> K) (l : list R) (x : R) :
  NoDup (map f l) -> (forall r, In r l -> f r <> f x) -> NoDup (map f (l ++ [x])).
Proof.
  intros Hd Hx. rewrite map_app. cbn. apply NoDup_app; [exact Hd | repeat constructor; intros [] |].
  intros k Hk [<-|[]]. apply in_map_iff in Hk as (r & Hr & Hin). now apply (Hx r Hin).
Qed.

Lemma NoDup_map_inj {R K} (f : R -> K) (l : list R) a b :
  NoDup (map f l) -> In a l -> In b l -> f a = f b -> a = b.
Proof.
  induction l as [|x l IH]; cbn; [tauto|]. intros H. inversion H as [|? ? Hn Hd]; subst.
  intros [->|Ha] [->|Hb] E; auto.
  - exfalso. apply Hn. rewrite E. now apply in_map.
  - exfalso. apply Hn. rewrite <- E. now apply in_map.
Qed.

Section RewriteOneId.
Context {R K : Type} (rowId : R -> Z) (key : R -> K) (set : R -> R) (n : Z) (k' : K).
Hypothesis set_id : forall r, rowId (set r) = rowId r.
Hypothesis set_key : forall r, key (set r) = k'.

Lemma map_rewrite_id (l : list R) :
  map rowId (map (fun r => if rowId r =? n then set r else r) l) = map rowId l.
Proof.
  rewrite map_map. apply map_ext. intros r. now destruct (rowId r =? n).
Qed.

Lemma NoDup_rewrite_key (l : list R) :
  NoDup (map rowId l) -> NoDup (map key l) ->
  (forall r, In r l -> rowId r <> n -> key r <> k') ->
  NoDup (map key (map (fun r => if rowId r =? n then set r else r) l)).
Proof.
  induction l as [|a l IH]; cbn; [auto|]. intros Hi Hk Hother.
  inversion Hi as [|? ? Hin Hid]; subst. inversion Hk as [|? ? Hkn Hkd]; subst.
  assert (IH' : NoDup (map key (map (fun r => if rowId r =? n then set r else r) l))).
  { apply IH; auto. }
  constructor; [|exact IH'].
  intros C. apply in_map_iff in C as (x & Hx & Hx'). apply in_map_iff in Hx' as (r & <- & Hr).
  destruct (Z.eqb_spec (rowId a) n) as [Ea|Ea].
  - rewrite set_key in Hx.
    destruct (Z.eqb_spec (rowId r) n) as [Er|Er].
    + apply Hin. rewrite Ea, <- Er. now apply in_map.
    + apply (Hother r (or_intror Hr) Er). exact Hx.
  - destruct (Z.eqb_spec (rowId r) n) as [Er|Er].
    + rewrite set_key in Hx. apply (Hother a (or_introl eq_refl) Ea). now symmetry.
    + apply Hkn. rewrite <- Hx. now apply in_map.
Qed.
End RewriteOneId.

Lemma wellFormedPosts_database w w' :
  database w' = database w -> wellFormedPosts w -> wellFormedPosts w'.
Proof. unfold wellFormedPosts, postsOf. now intros ->. Qed.

Lemma wellFormedPosts_append w w' row :
  database w'
  = mkDatabase (keywords (database w)) (subreddits (database w))
      (mkTable (rows (postsOf w) ++ [row]) (freshId Knex.postsTable (postsOf w))) ->
  p_id row = freshId Knex.postsTable (postsOf w) ->
  ~ postTitled (p_title row) w ->
  wellFormedPosts w -> wellFormedPosts w'.
Proof.
  intros D Hid Habs (Hi & Ht & Hb). unfold wellFormedPosts, postsOf. rewrite D.
  cbn [posts rows seq].
  assert (Hseq : seq (postsOf w) < freshId Knex.postsTable (postsOf w)).
  { unfold freshId. lia. }
  split; [|split].
  - apply NoDup_map_snoc; [exact Hi|]. intros r Hr. specialize (Hb r Hr). lia.
  - apply NoDup_map_snoc; [exact Ht|]. intros r Hr C. apply Habs. now exists r.
  - intros r Hr. apply in_app_or in Hr as [Hr | [<- | []]].
    + specialize (Hb r Hr). lia.
    + rewrite Hid. pose proof (freshId_positive Knex.postsTable (postsOf w)). lia.
Qed.

Lemma wellFormedPosts_filter w w' p :
  database w'
  = mkDatabase (keywords (database w)) (subreddits (database w))
      (mkTable (filter p (rows (postsOf w))) (seq (postsOf w))) ->
  wellFormedPosts w -> wellFormedPosts w'.
Proof.
  intros D (Hi & Ht & Hb). unfold wellFormedPosts, postsOf. rewrite D. cbn [posts rows seq].
  split; [|split]; try now apply NoDup_map_filter.
  intros r Hr. apply filter_In in Hr as [Hr _]. now apply Hb.
Qed.

Lemma wellFormedPosts_rewrite w w' n row title description links t :
  database w'
  = mkDatabase (keywords (database w)) (subreddits (database w))
      (mkTable (map (fun r => if p_id r =? n
                              then mkPostRow (p_id r) title description links
                                     (p_created_at r) t
                              else r) (rows (postsOf w)))
               (seq (postsOf w))) ->
  postById n w = Some row ->
  title = p_title row \/ ~ postTitled title w ->
  wellFormedPosts w -> wellFormedPosts w'.
Proof.
  intros D Hrow Htitle (Hi & Ht & Hb). unfold wellFormedPosts, postsOf. rewrite D.
  cbn [posts rows seq].
  apply find_some in Hrow as [Hin Hn]. apply Z.eqb_eq in Hn.
  split; [|split].
  - rewrite (map_rewrite_id p_id); [exact Hi | reflexivity].
  - apply (NoDup_rewrite_key p_id p_title _ n title); auto.
    intros r Hr Hne C. destruct Htitle as [->|Habs].
    + apply Hne. rewrite <- Hn. f_equal. now apply (NoDup_map_inj p_title (rows (postsOf w))).
    + apply Habs. now exists r.
  - intros r Hr. apply in_map_iff in Hr as (x & <- & Hx).
    destruct (p_id x =? n); cbn; now apply Hb.
Qed.

(** X19.  Whatever [createPost], [updatePost] and [deletePost] are given, and
    whether they return or throw, they keep the posts table well formed:
    the ids stay positive, distinct and within the AUTOINCREMENT sequence,
    and no title is stored twice, though the table has no unique index on
    the title. *)
Theorem post_service_keeps_posts_well_formed :
  (forall isUri input, keeps wellFormedPosts (PostService.createPost isUri input)) /\
  (forall isUri id patch, keeps wellFormedPosts (PostService.updatePost isUri id patch)) /\
  (forall id, keeps wellFormedPosts (PostService.deletePost id)).
Proof.
  split; [|split].
  - intros isUri input w Hw.
    destruct (createPost_cases isUri input w)
      as [(e & w' & -> & D) | (row & w' & -> & Hid & Habs & D)].
    + now apply (wellFormedPosts_database w).
    + now apply (wellFormedPosts_append w w' row).
  - intros isUri id patch w Hw.
    destruct (updatePost_cases isUri id patch w)
      as (out & w' & -> & [D | (n & row & title & description & links & Hrow & Ht & D)]).
    + destruct out; now apply (wellFormedPosts_database w).
    + destruct out; now apply (wellFormedPosts_rewrite w w' n row title description links
                                 (now w)).
  - intros id w Hw.
    destruct (deletePost_cases id w) as (out & w' & -> & [D | (n & D)]).
    + destruct out; now apply (wellFormedPosts_database w).
    + destruct out; now apply (wellFormedPosts_filter w w' _ D).
Qed.

Lemma post_service_keeps_posts_well_formed_witness :
  wellFormedPosts linkedWorld /\
  wellFormedPosts
    (snd (PostService.createPost anyUri
            (PostValidation.mkCreateInput (VString " New ") VUndefined None) linkedWorld)).
Proof.
  assert (H : wellFormedPosts linkedWorld).
  { split; [|split].
    - repeat constructor; cbn; intuition discriminate.
    - repeat constructor; cbn; intuition discriminate.
    - intros r [<- | [<- | []]]; cbn; lia. }
  split; [exact H|].
  destruct post_service_keeps_posts_well_formed as [K _].
  specialize (K anyUri (PostValidation.mkCreateInput (VString " New ") VUndefined None)
                linkedWorld H).
  destruct (PostService.createPost _ _ _) as [[a|e] w']; exact K.
Defined.

(** ** Ids are not used twice *)

Lemma afterWrite_seq isUri w op :
  seq (postsOf w) <= seq (postsOf (afterWrite isUri w op)).
Proof.
  destruct op as [input | id patch | id]; cbn [afterWrite].
  - destruct (createPost_cases isUri input w)
      as [(e & w' & -> & D) | (row & w' & -> & Hid & Habs & D)];
      cbn [snd]; unfold postsOf; rewrite D; cbn [posts seq]; [lia|].
    unfold freshId, postsOf. lia.
  - destruct (updatePost_cases isUri id patch w)
      as (out & w' & -> & [D | (n & row & title & description & links & Hrow & Ht & D)]);
      cbn [snd]; unfold postsOf; rewrite D; cbn [posts seq]; unfold postsOf; lia.
  - destruct (deletePost_cases id w) as (out & w' & -> & [D | (n & D)]);
      cbn [snd]; unfold postsOf; rewrite D; cbn [posts seq]; unfold postsOf; lia.
Qed.

Lemma afterWrites_seq isUri ops w :
  seq (postsOf w) <= seq (postsOf (afterWrites isUri ops w)).
Proof.
  revert w. induction ops as [|op ops IH]; intros w; cbn; [lia|].
  pose proof (afterWrite_seq isUri w op). specialize (IH (afterWrite isUri w op)).
  unfold afterWrites in IH. lia.
Qed.

Lemma createPost_resolved isUri input w created w' :
  PostService.createPost isUri input w = (Resolved created, w') ->
  Post.id created = Some (freshId Knex.postsTable (postsOf w))
  /\ seq (postsOf w') = freshId Knex.postsTable (postsOf w).
Proof.
  intros E.
  destruct (createPost_cases isUri input w)
    as [(e & w1 & E1 & D) | (row & w1 & E1 & Hid & Habs & D)]; rewrite E1 in E.
  - discriminate E.
  - injection E as <- <-. split.
    + cbn. rewrite Hid. apply orNullZ_positive, freshId_positive.
    + unfold postsOf at 1. now rewrite D.
Qed.

(** X20.  The id [createPost] gives a post is above every id in the table and
    above every id given before: after any sequence of creations, updates
    and deletions, successful or not, a later [createPost] returns a larger
    id.  The id of a deleted post is never given to another post. *)
Theorem post_ids_are_never_reused (isUri : string -> bool) (w : World)
        (input : PostValidation.CreateInput) (created : Post.t) (w1 : World)
        (ops : list PostWrite)
        (input' : PostValidation.CreateInput) (created' : Post.t) (w2 : World) :
  PostService.createPost isUri input w = (Resolved created, w1) ->
  PostService.createPost isUri input' (afterWrites isUri ops w1) = (Resolved created', w2) ->
  exists i j,
    Post.id created = Some i /\ Post.id created' = Some j /\ i < j
    /\ (forall r, In r (rows (postsOf w)) -> p_id r < i)
    /\ (forall r, In r (rows (postsOf (afterWrites isUri ops w1))) -> p_id r < j).
Proof.
  intros E1 E2.
  destruct (createPost_resolved _ _ _ _ _ E1) as [I1 S1].
  destruct (createPost_resolved _ _ _ _ _ E2) as [I2 _].
  pose proof (afterWrites_seq isUri ops w1) as M.
  do 2 eexists. split; [exact I1|]. split; [exact I2|].
  assert (F : forall t : Table PostRow,
            seq t < freshId Knex.postsTable t
            /\ forall r, In r (rows t) -> p_id r < freshId Knex.postsTable t).
  { intros t. unfold freshId. split; [lia|]. intros r Hr.
    pose proof (maxId_bound Knex.postsTable (rows t) r Hr). cbn in *. lia. }
  split; [|split].
  - destruct (F (postsOf (afterWrites isUri ops w1))). lia.
  - apply F.
  - apply F.
Qed.

Lemma post_ids_are_never_reused_witness :
  exists i j,
    Post.id (Post.mk (Some 2) "A" None (JArray []) (Some 5) (Some 5)) = Some i
    /\ Post.id (Post.mk (Some 3) "B" None (JArray []) (Some 5) (Some 5)) = Some j
    /\ i < j.
Proof.
  destruct (post_ids_are_never_reused anyUri dealWorld
              (PostValidation.mkCreateInput (VString "A") VUndefined None)
              (Post.mk (Some 2) "A" None (JArray []) (Some 5) (Some 5))
              (snd (PostService.createPost anyUri
                      (PostValidation.mkCreateInput (VString "A") VUndefined None) dealWorld))
              [DeletePost (VNumber 2)]
              (PostValidation.mkCreateInput (VString "B") VUndefined None)
              (Post.mk (Some 3) "B" None (JArray []) (Some 5) (Some 5))
              (snd (PostService.createPost anyUri
                      (PostValidation.mkCreateInput (VString "B") VUndefined None)
                      (afterWrites anyUri [DeletePost (VNumber 2)]
                         (snd (PostService.createPost anyUri
                                 (PostValidation.mkCreateInput (VString "A") VUndefined None)
                                 dealWorld))))))
    as (i & j & Hi & Hj & Hlt & _).
  - vm_compute. reflexivity.
  - vm_compute. reflexivity.
  - exists i, j. split; [exact Hi|]. split; [exact Hj | exact Hlt].
Defined.

(** ** The subreddits table stays well formed *)

Lemma createSubreddit_cases input w :
  (exists e w', SubredditService.createSubreddit input w = (Rejected e, w')
                /\ database w' = database w) \/
  (exists name created w',
     SubredditService.createSubreddit input w = (Resolved created, w')
     /\ name <> "" /\ ~ subredditNamed name w
     /\ database w'
        = mkDatabase (keywords (database w))
            (mkTable (rows (subredditsOf w)
                        ++ [mkSubredditRow (freshId Knex.subredditsTable (subredditsOf w)) name
                              (now w) (now w)])
                     (freshId Knex.subredditsTable (subredditsOf w)))
            (posts (database w))).
Proof.
  destruct (SubredditValidation.create input) as [value|detail] eqn:V.
  - set (name := normalizeName (SubredditValidation.v_name value)).
    destruct (find (fun r => String.eqb (sr_name r) name) (rows (subredditsOf w)))
      as [y|] eqn:F.
    + left. do 2 eexists. split.
      * unfold SubredditService.createSubreddit. rewrite rethrow_run.
        rewrite (bind_resolved _ _ _ _ _ (validate_valid _ _ _ w V)).
        fold (normalizeName (SubredditValidation.v_name value)). fold name.
        rewrite (bind_resolved _ _ _ _ _ (SubredditRepository_exists _ w)), F. reflexivity.
      * reflexivity.
    + apply subreddit_find_absent in F.
      destruct (String.eqb_spec name "") as [E|Hne].
      * left. do 2 eexists. split.
        -- apply (createSubreddit_blank input value w V E). now rewrite <- E.
        -- reflexivity.
      * right. exists name. do 2 eexists. split.
        -- apply (createSubreddit_returns_normalized input value w V Hne F).
        -- split; [exact Hne|]. split; [exact F | reflexivity].
  - left. do 2 eexists. split.
    + unfold SubredditService.createSubreddit. rewrite rethrow_run, V. reflexivity.
    + reflexivity.
Qed.

Lemma deleteSubreddit_cases id w :
  exists out w', SubredditService.deleteSubreddit id w = (out, w') /\
    (database w' = database w \/
     exists n, database w'
               = mkDatabase (keywords (database w))
                   (mkTable (filter (fun r => negb (sr_id r =? n)) (rows (subredditsOf w)))
                            (seq (subredditsOf w)))
                   (posts (database w))).
Proof.
  destruct (Js.truthy id) eqn:Ht; [destruct (Js.parseInt id) as [n|] eqn:Hp|].
  - destruct (subredditById n w) as [row|] eqn:Hrow.
    + do 2 eexists. split; [apply (deleteSubreddit_present id n row w Ht Hp Hrow)|].
      right. now exists n.
    + do 2 eexists. split; [|left].
      * unfold SubredditService.deleteSubreddit. rewrite Ht, Hp, rethrow_run.
        rewrite (bind_resolved _ _ _ _ _ (SubredditRepository_findById n w)), Hrow.
        reflexivity.
      * reflexivity.
  - do 2 eexists. split; [|left].
    + unfold SubredditService.deleteSubreddit. now rewrite Ht, Hp.
    + reflexivity.
  - do 2 eexists. split; [|left].
    + unfold SubredditService.deleteSubreddit. now rewrite Ht.
    + reflexivity.
Qed.

Lemma orNullString_some x s : orNullString x = Some s -> s <> "".
Proof.
  destruct x as [t|]; cbn; [|discriminate].
  destruct (JsString.truthy t) eqn:T; [|discriminate]. intros [= <-] ->. discriminate T.
Qed.

Lemma updateSubreddit_cases id patch w :
  (forall r, In r (rows (subredditsOf w)) -> sr_name r <> "") ->
  exists out w', SubredditService.updateSubreddit id patch w = (out, w') /\
    (database w' = database w \/
     exists n row name,
       subredditById n w = Some row
       /\ name <> ""
       /\ (forall r, In r (rows (subredditsOf w)) -> sr_id r <> n -> sr_name r <> name)
       /\ database w'
          = mkDatabase (keywords (database w))
              (mkTable (map (fun r => if sr_id r =? n
                                      then mkSubredditRow (sr_id r) name (sr_created_at r) (now w)
                                      else r) (rows (subredditsOf w)))
                       (seq (subredditsOf w)))
              (posts (database w))).
Proof.
  intros Hnames.
  destruct (Js.parseInt id) as [n|] eqn:Hp.
  2:{ do 2 eexists. split; [|left].
      - unfold SubredditService.updateSubreddit. rewrite Hp, rethrow_run. reflexivity.
      - reflexivity. }
  destruct (SubredditValidation.update (Some n) patch) as [value|detail] eqn:V.
  2:{ do 2 eexists. split; [|left].
      - unfold SubredditService.updateSubreddit. rewrite Hp, rethrow_run, V. reflexivity.
      - reflexivity. }
  destruct (subredditById n w) as [row|] eqn:Hrow.
  2:{ do 2 eexists. split; [|left].
      - unfold SubredditService.updateSubreddit. rewrite Hp, rethrow_run.
        rewrite (bind_resolved _ _ _ _ _ (validate_valid _ _ _ w V)).
        rewrite (SubredditValidation_update_id _ _ _ V).
        rewrite (bind_resolved _ _ _ _ _ (SubredditRepository_findById n w)), Hrow.
        reflexivity.
      - reflexivity. }
  assert (Hname : sr_name row <> "").
  { apply Hnames. unfold subredditById in Hrow. now apply find_some in Hrow. }
  rewrite (updateSubreddit_run id n patch value row w Hp V Hrow Hname). cbv zeta.
  assert (W : forall name evs,
            exists out w',
              SubredditRepository.update SubredditService.db n
                (SubredditRepository.mkPatch (Some n) name) (logged w evs) = (out, w') /\
              (database w' = database w \/
               exists n row name,
                 subredditById n w = Some row
                 /\ name <> ""
                 /\ (forall r, In r (rows (subredditsOf w)) -> sr_id r <> n -> sr_name r <> name)
                 /\ database w'
                    = mkDatabase (keywords (database w))
                        (mkTable (map (fun r => if sr_id r =? n
                                                then mkSubredditRow (sr_id r) name
                                                       (sr_created_at r) (now w)
                                                else r) (rows (subredditsOf w)))
                                 (seq (subredditsOf w)))
                        (posts (database w)))).
  { intros name evs.
    assert (Hrow' : subredditById n (logged w evs) = Some row) by exact Hrow.
    rewrite (SubredditRepository_update_run n _ row (logged w evs) Hrow'). cbv zeta.
    change (rows (subredditsOf (logged w evs))) with (rows (subredditsOf w)).
    set (d := Subreddit.d_name _).
    destruct d as [nm|] eqn:Hd; cbn [Schema.subredditViolation];
      [|do 2 eexists; split; [reflexivity | left; reflexivity]].
    destruct (existsb _ _) eqn:Ex;
      [do 2 eexists; split; [reflexivity | left; reflexivity]|].
    do 2 eexists. split; [reflexivity|]. right. exists n, row, nm.
    split; [exact Hrow|]. split; [|split; [|reflexivity]].
    - subst d. cbn in Hd. now apply orNullString_some in Hd.
    - intros r Hr Hi C.
      assert (Hf : In r (filter (fun r => negb (sr_id r =? n)) (rows (subredditsOf w)))).
      { apply filter_In. split; [exact Hr|]. apply negb_true_iff. now apply Z.eqb_neq. }
      assert (T : existsb (fun r => String.eqb (sr_name r) nm)
                    (filter (fun r => negb (sr_id r =? n)) (rows (subredditsOf w))) = true).
      { apply existsb_exists. exists r. split; [exact Hf|]. rewrite C. apply String.eqb_refl. }
      congruence. }
  destruct (SubredditValidation.uv_name value) as [v|].
  - destruct (String.eqb v (sr_name row)); [apply W|].
    destruct (find _ (rows (subredditsOf w))) eqn:F; [|apply W].
    do 2 eexists. split; [reflexivity | left; reflexivity].
  - apply W.
Qed.

Lemma wellFormedSubreddits_database w w' :
  database w' = database w -> wellFormedSubreddits w -> wellFormedSubreddits w'.
Proof. unfold wellFormedSubreddits, subredditsOf. now intros ->. Qed.

(** X21.  Whatever [createSubreddit], [updateSubreddit] and [deleteSubreddit] are
    given, and whether they return or throw, they keep the subreddits table
    well formed: the ids stay positive, distinct and within the
    AUTOINCREMENT sequence, no name is stored twice, and no name is
    empty. *)
Theorem subreddit_service_keeps_table_well_formed :
  (forall input, keeps wellFormedSubreddits (SubredditService.createSubreddit input)) /\
  (forall id patch, keeps wellFormedSubreddits (SubredditService.updateSubreddit id patch)) /\
  (forall id, keeps wellFormedSubreddits (SubredditService.deleteSubreddit id)).
Proof.
  split; [|split].
  - intros input w Hw.
    destruct (createSubreddit_cases input w)
      as [(e & w' & -> & D) | (name & created & w' & -> & Hne & Habs & D)].
    + now apply (wellFormedSubreddits_database w).
    + destruct Hw as (Hi & Hn & Hb). unfold wellFormedSubreddits, subredditsOf. rewrite D.
      cbn [subreddits rows seq].
      assert (Hseq : seq (subredditsOf w) < freshId Knex.subredditsTable (subredditsOf w)).
      { unfold freshId. lia. }
      split; [|split].
      * apply NoDup_map_snoc; [exact Hi|]. intros r Hr. destruct (Hb r Hr). cbn. lia.
      * apply NoDup_map_snoc; [exact Hn|]. intros r Hr C. apply Habs. now exists r.
      * intros r Hr. apply in_app_or in Hr as [Hr | [<- | []]].
        -- destruct (Hb r Hr). split; [lia | assumption].
        -- cbn. pose proof (freshId_positive Knex.subredditsTable (subredditsOf w)).
           split; [lia | exact Hne].
  - intros id patch w Hw.
    assert (Hnames : forall r, In r (rows (subredditsOf w)) -> sr_name r <> "").
    { intros r Hr. now apply Hw. }
    destruct (updateSubreddit_cases id patch w Hnames)
      as (out & w' & -> & [D | (n & row & name & Hrow & Hne & Hother & D)]).
    + destruct out; now apply (wellFormedSubreddits_database w).
    + assert (G : wellFormedSubreddits w').
      { destruct Hw as (Hi & Hn & Hb). unfold wellFormedSubreddits, subredditsOf. rewrite D.
        cbn [subreddits rows seq]. split; [|split].
        - rewrite (map_rewrite_id sr_id); [exact Hi | reflexivity].
        - apply (NoDup_rewrite_key sr_id sr_name _ n name); auto.
        - intros r Hr. apply in_map_iff in Hr as (x & <- & Hx). destruct (Hb x Hx).
          destruct (sr_id x =? n); cbn; split; auto. }
      destruct out; exact G.
  - intros id w Hw.
    destruct (deleteSubreddit_cases id w) as (out & w' & -> & [D | (n & D)]).
    + destruct out; now apply (wellFormedSubreddits_database w).
    + assert (G : wellFormedSubreddits w').
      { destruct Hw as (Hi & Hn & Hb). unfold wellFormedSubreddits, subredditsOf. rewrite D.
        cbn [subreddits rows seq].
        split; [|split]; try now apply NoDup_map_filter.
        intros r Hr. apply filter_In in Hr as [Hr _]. now apply Hb. }
      destruct out; exact G.
Qed.

Lemma subreddit_service_keeps_table_well_formed_witness :
  wellFormedSubreddits newsWorld /\
  wellFormedSubreddits
    (snd (SubredditService.updateSubreddit (VNumber 1)
            (SubredditValidation.mkUpdateInput (VString "r/Gaming")) newsWorld)).
Proof.
  assert (H : wellFormedSubreddits newsWorld).
  { split; [|split].
    - repeat constructor; cbn; intuition discriminate.
    - repeat constructor; cbn; intuition discriminate.
    - intros r [<- | []]; cbn. split; [lia | discriminate]. }
  split; [exact H|].
  destruct subreddit_service_keeps_table_well_formed as (_ & K & _).
  specialize (K (VNumber 1) (SubredditValidation.mkUpdateInput (VString "r/Gaming"))
                newsWorld H).
  destruct (SubredditService.updateSubreddit _ _ _) as [[a|e] w']; exact K.
Defined.

(** ** What a search finds *)










Lemma length_zero_iff s : Nat.eqb (String.length s) 0 = false <-> s <> "".
Proof. destruct s; cbn; split; congruence. Qed.






(** The limit of a search is not validated, and knex reads it with
    [parseInt]: of the two posts that contain [a], a search with the limit
    10^21, which prints as [1e+21], returns one; and with a limit from 2^63
    on the query fails. *)
Example search_limit_read_by_parseInt :
  (exists found w',
     PostService.searchPosts (VString "a") (Some (10 ^ 21)) linkedWorld
       = (Resolved found, w')
     /\ List.length found = 1%nat) /\
  (exists e w',
     PostService.searchPosts (VString "a") (Some (2 ^ 63)) linkedWorld = (Rejected e, w')
     /\ kind e = RepositoryError).
Proof. split; do 2 eexists; split; vm_compute; reflexivity. Qed.

(** ** The keyword repository with a connection *)

Lemma KeywordRepository_findById_run n w :
  KeywordRepository.findById connected n w =
  (Resolved (Keyword.fromDatabase (keywordById n w)),
   logged w [Call KeywordRepo "findById"; Sql "keywords" SELECT]).
Proof.
  unfold KeywordRepository.findById, connected, keywordById, keywordsOf, logged.
  run_repository.
Qed.

Lemma KeywordRepository_delete_run n w :
  KeywordRepository.delete connected n w =
  (Resolved (existsb (fun r => kw_id r =? n) (rows (keywordsOf w))),
   withTable Knex.keywordsTable w
     (mkTable (filter (fun r => negb (kw_id r =? n)) (rows (keywordsOf w)))
              (seq (keywordsOf w)))
     [Call KeywordRepo "delete"; Sql "keywords" DELETE]).
Proof.
  unfold KeywordRepository.delete, connected.
  cbv [wrap tryCatch bind ret emit Knex.table]. rewrite Knex_del_run.
  rewrite count_positive. unfold withTable, logged, tableOf, keywordsOf. cbn.
  now rewrite <- app_assoc.
Qed.

Lemma keyword_absent keyword w :
  ~ keywordStored keyword w ->
  existsb (fun r => String.eqb (kw_keyword r) keyword) (rows (keywordsOf w)) = false.
Proof.
  intros Habs. apply existsb_none. intros r Hr.
  destruct (String.eqb_spec (kw_keyword r) keyword); [|reflexivity].
  exfalso. apply Habs. now exists r.
Qed.

Lemma keyword_present keyword w :
  keywordStored keyword w ->
  existsb (fun r => String.eqb (kw_keyword r) keyword) (rows (keywordsOf w)) = true.
Proof.
  intros (row & Hin & Hk). apply existsb_exists. exists row. split; [exact Hin|].
  rewrite Hk. apply String.eqb_refl.
Qed.

Lemma KeywordRepository_create_run data w :
  let keyword := orEmptyString (Keyword.d_keyword data) in
  let id := freshId Knex.keywordsTable (keywordsOf w) in
  KeywordRepository.create connected data w =
  if existsb (fun r => String.eqb (kw_keyword r) keyword) (rows (keywordsOf w))
  then (Rejected (mkError RepositoryError
                    ("Failed to create keyword: "
                       ++ "SQLITE_CONSTRAINT: UNIQUE constraint failed: keywords.keyword")),
        logged w [Call KeywordRepo "create"; Sql "keywords" INSERT])
  else (Resolved (Some (Keyword.mk (Some id) keyword (Some (now w)) (Some (now w)))),
        withTable Knex.keywordsTable w
          (mkTable (rows (keywordsOf w) ++ [mkKeywordRow id keyword (now w) (now w)]) id)
          [Call KeywordRepo "create"; Sql "keywords" INSERT;
           Call KeywordRepo "findById"; Sql "keywords" SELECT]).
Proof.
  intros keyword id. unfold KeywordRepository.create.
  cbv [bind emit wrap tryCatch]. change (Knex.table connected ?x) with (Resolved tt, x).
  cbv iota beta. rewrite Knex_insert_run.
  cbn [Schema.keywordViolation Keyword.d_keyword Keyword.toDatabase Keyword.keyword
       Keyword.new orEmptyString].
  fold keyword.
  change (rows (tableOf Knex.keywordsTable ?x)) with (rows (keywordsOf w)).
  destruct (existsb _ _) eqn:Ex.
  - unfold throw, logged. cbn. rewrite <- !app_assoc. reflexivity.
  - rewrite KeywordRepository_findById_run.
    unfold keywordById at 1, keywordsOf at 1, withTable.
    cbn [database keywords rows Knex.setTable Knex.keywordsTable].
    change (tableOf Knex.keywordsTable ?x) with (keywordsOf w). fold id.
    pose proof (find_fresh Knex.keywordsTable (keywordsOf w)
                  (mkKeywordRow id keyword (now w) (now w)) eq_refl) as Ff.
    cbn [Knex.rowId Knex.keywordsTable] in Ff. fold id in Ff.
    change (now (mkWorld ?d ?n ?t)) with n. rewrite Ff.
    unfold Keyword.fromDatabase, Keyword.new, Keyword.ofRow.
    cbn [Keyword.d_id Keyword.d_keyword Keyword.d_createdAt Keyword.d_updatedAt
         orEmptyString kw_id kw_keyword kw_created_at kw_updated_at].
    rewrite (orNullZ_positive id) by apply freshId_positive.
    unfold logged. cbn. rewrite <- !app_assoc. reflexivity.
Qed.

Lemma filter_fresh {R} (ref : Knex.TableRef R) (t : Table R) (x : R) :
  Knex.rowId ref x = freshId ref t ->
  filter (fun r => negb (Knex.rowId ref r =? freshId ref t)) (rows t ++ [x]) = rows t.
Proof.
  intros Hx. rewrite filter_app. cbn. rewrite Hx, Z.eqb_refl. cbn. rewrite List.app_nil_r.
  apply filter_all. intros r Hr. apply negb_true_iff, Z.eqb_neq.
  pose proof (maxId_bound ref (rows t) r Hr). unfold freshId. lia.
Qed.

(** X23.  With a connection the keyword repository works as the other two.
    [create] refuses a keyword that is stored, by the unique index, and
    leaves the table as it was.  It stores any other keyword under the next
    id, stamped with the clock, and returns the entity; [findById] of that
    id returns the same entity; and [delete] of that id returns [true] and
    leaves the rows that were there before the creation. *)
Theorem keywordRepository_create_find_delete (data : Keyword.Data) (w : World) :
  let keyword := orEmptyString (Keyword.d_keyword data) in
  let id := freshId Knex.keywordsTable (keywordsOf w) in
  let created := Keyword.mk (Some id) keyword (Some (now w)) (Some (now w)) in
  (keywordStored keyword w ->
   exists e w',
     KeywordRepository.create connected data w = (Rejected e, w')
     /\ kind e = RepositoryError /\ database w' = database w) /\
  (~ keywordStored keyword w ->
   exists w1 w2 w3,
     KeywordRepository.create connected data w = (Resolved (Some created), w1)
     /\ rows (keywordsOf w1)
        = (rows (keywordsOf w) ++ [mkKeywordRow id keyword (now w) (now w)])%list
     /\ (forall r, In r (rows (keywordsOf w)) -> kw_id r < id)
     /\ KeywordRepository.findById connected id w1 = (Resolved (Some created), w2)
     /\ KeywordRepository.delete connected id w1 = (Resolved true, w3)
     /\ rows (keywordsOf w3) = rows (keywordsOf w)
     /\ seq (keywordsOf w3) = id).
Proof.
  intros keyword id created. split.
  - intros Hs. pose proof (KeywordRepository_create_run data w) as E. cbv zeta in E.
    fold keyword in E. rewrite (keyword_present _ _ Hs) in E.
    do 2 eexists. split; [exact E|]. split; reflexivity.
  - intros Habs. pose proof (KeywordRepository_create_run data w) as E. cbv zeta in E.
    fold keyword id in E. rewrite (keyword_absent _ _ Habs) in E.
    pose proof (find_fresh Knex.keywordsTable (keywordsOf w)
                  (mkKeywordRow id keyword (now w) (now w)) eq_refl) as Ff.
    cbn [Knex.rowId Knex.keywordsTable] in Ff. fold id in Ff.
    do 3 eexists. split; [exact E|]. set (w1 := withTable _ _ _ _).
    split; [reflexivity|]. split; [|split; [|split; [|split]]].
    + intros r Hr. pose proof (maxId_bound Knex.keywordsTable (rows (keywordsOf w)) r Hr).
      subst id. unfold freshId. cbn in *. lia.
    + rewrite KeywordRepository_findById_run. unfold keywordById.
      change (rows (keywordsOf w1))
        with (rows (keywordsOf w) ++ [mkKeywordRow id keyword (now w) (now w)])%list.
      rewrite Ff. unfold Keyword.fromDatabase, Keyword.new, Keyword.ofRow.
      cbn [Keyword.d_id Keyword.d_keyword Keyword.d_createdAt Keyword.d_updatedAt
           orEmptyString kw_id kw_keyword kw_created_at kw_updated_at].
      rewrite (orNullZ_positive id) by apply freshId_positive. reflexivity.
    + rewrite KeywordRepository_delete_run.
      change (rows (keywordsOf w1))
        with (rows (keywordsOf w) ++ [mkKeywordRow id keyword (now w) (now w)])%list.
      rewrite existsb_find, Ff. reflexivity.
    + unfold keywordsOf at 1, withTable. cbn [database keywords rows Knex.setTable
        Knex.keywordsTable].
      change (rows (keywordsOf w1))
        with (rows (keywordsOf w) ++ [mkKeywordRow id keyword (now w) (now w)])%list.
      apply (filter_fresh Knex.keywordsTable (keywordsOf w)). reflexivity.
    + reflexivity.
Qed.

Lemma keywordRepository_create_find_delete_witness :
  exists w1 w2 w3,
    KeywordRepository.create connected (Keyword.mkData None (Some "gaming laptop") None None)
      emptyWorld
    = (Resolved (Some (Keyword.mk (Some 1) "gaming laptop" (Some 0) (Some 0))), w1)
    /\ KeywordRepository.findById connected 1 w1
       = (Resolved (Some (Keyword.mk (Some 1) "gaming laptop" (Some 0) (Some 0))), w2)
    /\ KeywordRepository.delete connected 1 w1 = (Resolved true, w3)
    /\ rows (keywordsOf w3) = [].
Proof.
  destruct (keywordRepository_create_find_delete
              (Keyword.mkData None (Some "gaming laptop") None None) emptyWorld) as [_ H].
  destruct H as (w1 & w2 & w3 & E & _ & _ & F & D & R & _).
  - intros (row & [] & _).
  - exists w1, w2, w3. split; [exact E|]. split; [exact F|]. split; [exact D | exact R].
Defined.

Lemma find_rewrite_other {R} (key : R -> Z) (f : R -> R) (n m : Z) (l : list R) :
  (forall r, key (f r) = key r) ->
  m <> n ->
  find (fun r => key r =? m) (map (fun r => if key r =? n then f r else r) l)
  = find (fun r => key r =? m) l.
Proof.
  intros Hkey Hm. induction l as [|r l IH]; [reflexivity|].
  cbn [map find]. destruct (key r =? n) eqn:En.
  - apply Z.eqb_eq in En. rewrite Hkey.
    assert (Hf : (key r =? m) = false) by (apply Z.eqb_neq; lia).
    rewrite Hf. exact IH.
  - destruct (key r =? m); [reflexivity | exact IH].
Qed.

Lemma KeywordRepository_update_run n patch row w :
  keywordById n w = Some row ->
  let keyword' := match KeywordRepository.patch_keyword patch with
                  | Some k => k
                  | None => kw_keyword row
                  end in
  let set := fun t r => mkKeywordRow (kw_id r) keyword' (kw_created_at r) t in
  KeywordRepository.update connected n patch w =
  if existsb (fun r => String.eqb (kw_keyword r) keyword')
       (filter (fun r => negb (kw_id r =? n)) (rows (keywordsOf w)))
  then (Rejected (mkError RepositoryError
                    ("Failed to update keyword: "
                       ++ "SQLITE_CONSTRAINT: UNIQUE constraint failed: keywords.keyword")),
        logged w [Call KeywordRepo "update"; Call KeywordRepo "findById";
                  Sql "keywords" SELECT; Sql "keywords" UPDATE])
  else (Resolved (Some (Keyword.new (Keyword.ofRow (set (now w) row)))),
        withTable Knex.keywordsTable w
          (mkTable (map (fun r => if kw_id r =? n then set (now w) r else r)
                        (rows (keywordsOf w)))
                   (seq (keywordsOf w)))
          [Call KeywordRepo "update"; Call KeywordRepo "findById"; Sql "keywords" SELECT;
           Sql "keywords" UPDATE; Call KeywordRepo "findById"; Sql "keywords" SELECT]).
Proof.
  intros Hrow keyword' set. unfold KeywordRepository.update.
  cbv [bind emit wrap tryCatch].
  set (w1 := mkWorld _ _ _).
  change w1 with (logged w [Call KeywordRepo "update"]).
  rewrite KeywordRepository_findById_run.
  change (keywordById n (logged w ?e)) with (keywordById n w). rewrite Hrow.
  cbn [Keyword.fromDatabase].
  change (Knex.table connected ?x) with (Resolved tt, x).
  cbv iota beta.
  rewrite Knex_update_run.
  change (rows (tableOf Knex.keywordsTable (logged ?x ?e))) with (rows (keywordsOf w)).
  destruct (find_filter_cons _ _ _ Hrow) as [hits ->].
  assert (Hk : Keyword.d_keyword
                 (Keyword.toDatabase
                    (Keyword.new (KeywordRepository.merge
                                    (Keyword.spread (Keyword.new (Keyword.ofRow row))) patch)))
               = Some keyword').
  { unfold keyword'. destruct patch as [pi [k|]]; reflexivity. }
  rewrite Hk. cbn [Schema.keywordViolation orEmptyString].
  destruct (existsb _ _).
  - unfold throw, logged. cbn. rewrite <- !app_assoc. reflexivity.
  - assert (Hc : (Z.of_nat (List.length (row :: hits)) =? 0) = false).
    { apply Z.eqb_neq. cbn [List.length]. lia. }
    rewrite Hc.
    rewrite KeywordRepository_findById_run.
    unfold keywordById at 1, keywordsOf at 1, withTable.
    cbn [database keywords rows Knex.setTable Knex.keywordsTable].
    rewrite (find_map_same (fun r => kw_id r =? n)
               (fun r => mkKeywordRow (kw_id r) keyword' (kw_created_at r)
                           (now (logged (logged w [Call KeywordRepo "update"])
                                   [Call KeywordRepo "findById"; Sql "keywords" SELECT]))))
      by reflexivity.
    fold (keywordById n w). rewrite Hrow. cbn [option_map Keyword.fromDatabase].
    unfold set, logged, tableOf, keywordsOf. cbn. rewrite <- !app_assoc. reflexivity.
Qed.

(** X24.  [KeywordRepository.update] with a connection.  For an id that names no
    row it returns null after the lookup, without an UPDATE.  For a row
    that exists, the new keyword is the one of the patch (the stored one
    when the patch has none): when another row holds it, the unique index
    refuses the write and the table stays as it was; otherwise the row keeps
    its id and creation time whatever id the patch carries, takes the new
    keyword and the clock as update time, and every other row and the id
    sequence are untouched. *)
Theorem keywordRepository_update_writes_patch (n : Z) (patch : KeywordRepository.Patch)
        (w : World) :
  (keywordById n w = None ->
   KeywordRepository.update connected n patch w
   = (Resolved None,
      logged w [Call KeywordRepo "update"; Call KeywordRepo "findById";
                Sql "keywords" SELECT])) /\
  (forall row, keywordById n w = Some row ->
     let keyword' := match KeywordRepository.patch_keyword patch with
                     | Some k => k
                     | None => kw_keyword row
                     end in
     let row' := mkKeywordRow n keyword' (kw_created_at row) (now w) in
     ((exists r, In r (rows (keywordsOf w)) /\ kw_id r <> n /\ kw_keyword r = keyword') ->
      exists e w',
        KeywordRepository.update connected n patch w = (Rejected e, w')
        /\ kind e = RepositoryError /\ database w' = database w) /\
     ((forall r, In r (rows (keywordsOf w)) -> kw_id r <> n -> kw_keyword r <> keyword') ->
      exists w',
        KeywordRepository.update connected n patch w
        = (Resolved (Some (Keyword.new (Keyword.ofRow row'))), w')
        /\ keywordById n w' = Some row'
        /\ (forall m, m <> n -> keywordById m w' = keywordById m w)
        /\ List.length (rows (keywordsOf w')) = List.length (rows (keywordsOf w))
        /\ seq (keywordsOf w') = seq (keywordsOf w)
        /\ subreddits (database w') = subreddits (database w)
        /\ posts (database w') = posts (database w))).
Proof.
  split.
  - intros Hnone. unfold KeywordRepository.update.
    cbv [bind emit wrap tryCatch].
    set (w1 := mkWorld _ _ _).
    change w1 with (logged w [Call KeywordRepo "update"]).
    rewrite KeywordRepository_findById_run.
    change (keywordById n (logged w ?e)) with (keywordById n w). rewrite Hnone.
    unfold logged, ret. cbn. rewrite <- !app_assoc. reflexivity.
  - intros row Hrow keyword' row'.
    pose proof (KeywordRepository_update_run n patch row w Hrow) as E. cbv zeta in E.
    fold keyword' in E.
    assert (Hid : kw_id row = n).
    { unfold keywordById in Hrow. apply find_some in Hrow as [_ H]. now apply Z.eqb_eq. }
    split.
    + intros (r & Hin & Hne & Hk).
      assert (Ex : existsb (fun r => String.eqb (kw_keyword r) keyword')
                     (filter (fun r => negb (kw_id r =? n)) (rows (keywordsOf w))) = true).
      { apply existsb_exists. exists r. split.
        - apply filter_In. split; [exact Hin|]. now apply negb_true_iff, Z.eqb_neq.
        - rewrite Hk. apply String.eqb_refl. }
      rewrite Ex in E. do 2 eexists. split; [exact E|]. split; reflexivity.
    + intros Hfree.
      assert (Ex : existsb (fun r => String.eqb (kw_keyword r) keyword')
                     (filter (fun r => negb (kw_id r =? n)) (rows (keywordsOf w))) = false).
      { apply existsb_none. intros r Hr. apply filter_In in Hr as [Hin Hne].
        apply negb_true_iff, Z.eqb_neq in Hne.
        destruct (String.eqb_spec (kw_keyword r) keyword'); [|reflexivity].
        now destruct (Hfree r Hin Hne). }
      rewrite Ex in E. rewrite Hid in E. fold row' in E.
      eexists. split; [exact E|]. set (w' := withTable _ _ _ _).
      assert (Hrows : rows (keywordsOf w')
                      = map (fun r => if kw_id r =? n
                                      then mkKeywordRow (kw_id r) keyword' (kw_created_at r) (now w)
                                      else r) (rows (keywordsOf w))) by reflexivity.
      split; [|split; [|split; [|split; [|split]]]]; try reflexivity.
      * unfold keywordById. rewrite Hrows.
        rewrite (find_map_same (fun r => kw_id r =? n)
                   (fun r => mkKeywordRow (kw_id r) keyword' (kw_created_at r) (now w)))
          by reflexivity.
        fold (keywordById n w). rewrite Hrow. cbn [option_map]. unfold row'. now rewrite Hid.
      * intros m Hm. unfold keywordById. rewrite Hrows.
        apply (find_rewrite_other kw_id
                 (fun r => mkKeywordRow (kw_id r) keyword' (kw_created_at r) (now w)));
          [reflexivity | exact Hm].
      * rewrite Hrows. apply length_map.
Qed.

Lemma keywordRepository_update_writes_patch_witness :
  exists w',
    KeywordRepository.update connected 1 (KeywordRepository.mkPatch (Some 7) (Some "laptop"))
      (withTable Knex.keywordsTable emptyWorld
         (mkTable [mkKeywordRow 1 "gaming" 0 0; mkKeywordRow 2 "phone" 0 0] 2) [])
    = (Resolved (Some (Keyword.mk (Some 1) "laptop" (Some 0) (Some 0))), w')
    /\ keywordById 1 w' = Some (mkKeywordRow 1 "laptop" 0 0)
    /\ keywordById 2 w' = Some (mkKeywordRow 2 "phone" 0 0).
Proof.
  destruct (keywordRepository_update_writes_patch 1
              (KeywordRepository.mkPatch (Some 7) (Some "laptop"))
              (withTable Knex.keywordsTable emptyWorld
                 (mkTable [mkKeywordRow 1 "gaming" 0 0; mkKeywordRow 2 "phone" 0 0] 2) []))
    as [_ H].
  destruct (H (mkKeywordRow 1 "gaming" 0 0) eq_refl) as [_ H'].
  destruct H' as (w' & E & F & G & _).
  - intros r [<- | [<- | []]] Hne; [now destruct Hne | discriminate].
  - exists w'. split; [exact E|]. split; [exact F|]. now rewrite G.
Defined.

(** ** The keyword service without a connection *)

(** X25.  [getKeywordById], [updateKeyword] and [deleteKeyword] never return: the
    keyword service builds its repository without a connection, so on every
    id, patch and state they throw, and no statement reaches the storage.
    An id that passes the guard, or a patch that passes the schema, is not
    reported as not found: the lookup fails with the repository's error
    [this.db is not a function]. *)
Theorem keyword_by_id_operations_fail (id : JsValue) (w : World) :
  let noConnection :=
    mkError RepositoryError "Failed to find keyword by ID: this.db is not a function" in
  (exists e evs,
     KeywordService.getKeywordById id w = (Rejected e, logged w evs)
     /\ forallb isCall evs = true
     /\ (Js.truthy id = true -> Js.parseInt id <> None -> e = noConnection)) /\
  (forall patch, exists e evs,
     KeywordService.updateKeyword id patch w = (Rejected e, logged w evs)
     /\ forallb isCall evs = true
     /\ (forall value, KeywordValidation.update (Js.parseInt id) patch = Valid value ->
         e = noConnection)) /\
  (exists e evs,
     KeywordService.deleteKeyword id w = (Rejected e, logged w evs)
     /\ forallb isCall evs = true
     /\ (Js.truthy id = true -> Js.parseInt id <> None -> e = noConnection)).
Proof.
  intros noConnection. split; [|split].
  - unfold KeywordService.getKeywordById.
    destruct (Js.truthy id), (Js.parseInt id) as [n|].
    + exists noConnection, [Call KeywordRepo "findById"]. repeat split.
    + eexists; exists []. rewrite logged_nil. split; [reflexivity|].
      split; [reflexivity|]. intros _ H. now destruct H.
    + eexists; exists []. rewrite logged_nil. split; [reflexivity|].
      split; [reflexivity|]. discriminate.
    + eexists; exists []. rewrite logged_nil. split; [reflexivity|].
      split; [reflexivity|]. discriminate.
  - intros patch. unfold KeywordService.updateKeyword.
    cbv [rethrow tryCatch bind validate ret throw].
    destruct (KeywordValidation.update (Js.parseInt id) patch) as [value|detail].
    + exists noConnection, [Call KeywordRepo "findById"]. repeat split.
    + eexists; exists []. rewrite logged_nil. split; [reflexivity|].
      split; [reflexivity|]. discriminate.
  - unfold KeywordService.deleteKeyword.
    destruct (Js.truthy id), (Js.parseInt id) as [n|].
    + exists noConnection, [Call KeywordRepo "findById"]. repeat split.
    + eexists; exists []. rewrite logged_nil. split; [reflexivity|].
      split; [reflexivity|]. intros _ H. now destruct H.
    + eexists; exists []. rewrite logged_nil. split; [reflexivity|].
      split; [reflexivity|]. discriminate.
    + eexists; exists []. rewrite logged_nil. split; [reflexivity|].
      split; [reflexivity|]. discriminate.
Qed.
